(** * Credit scoring model: scoring, explanation, decision policy, oversight gate

    Shallow embedding of [src/model.py] (classes [CreditPrediction],
    [CreditScoringModel] and [HumanOversight]) and the properties the
    specification states about it.

    - Python dictionaries are insertion-ordered association lists living in a
      heap of objects; the methods run in a state-and-exception monad over that
      heap, so that "who writes where" is visible.
    - Python floats are kept abstract behind the interface [Arith]; the program
      is written once, and read either over IEEE binary64 ([Binary64], Rocq's
      primitive floats: what the interpreter computes) or over the real numbers
      ([Exact]: what the arithmetic means).
    - A FeatureSet holds floats; [Numbers] is the pipeline over FeatureSets
      that hold Python's [int] values as well, where the conversion of an
      [int] to a float can raise [OverflowError]. *)

From Stdlib Require Import ZArith Reals Lra Lia.
From Stdlib Require PrimFloat SpecFloat FloatOps FloatAxioms FloatLemmas Uint63.
From stdpp Require Import gmap strings list fin_maps.

(** ** The arithmetic the program uses *)

Class Arith (F : Type) := {
  of_Z : Z -> F;               (* an [int] literal or value used as a float *)
  fadd : F -> F -> F;
  fsub : F -> F -> F;
  fmul : F -> F -> F;
  fdiv : F -> F -> F;
  fneg : F -> F;
  fabs : F -> F;               (* builtin abs *)
  flt : F -> F -> bool;        (* a < b *)
  fle : F -> F -> bool;        (* a <= b *)
  np_exp : F -> F;             (* numpy.exp on a scalar *)
  round4 : F -> F;             (* builtin round(x, 4) on a float *)
  np_round4 : F -> F           (* round(x, 4) on a numpy.float64 *)
}.

Declare Scope py_scope.
Delimit Scope py_scope with py.
Notation "# n" := (of_Z n%Z) (at level 1, n at level 0, format "# n") : py_scope.
Infix "+" := fadd : py_scope.
Infix "-" := fsub : py_scope.
Infix "*" := fmul : py_scope.
Infix "/" := fdiv : py_scope.
Notation "- x" := (fneg x) : py_scope.
Notation "a <? b" := (flt a b) : py_scope.
Notation "a <=? b" := (fle a b) : py_scope.
Notation "a >? b" := (flt b a) : py_scope.
Notation "a >=? b" := (fle b a) : py_scope.

(** A decimal literal [n / d] with [d] a power of ten, such as [0.35] written
    [lit 35 100].  In binary64 the division of two exactly represented
    integers is correctly rounded, which is how Python reads the literal. *)
Definition lit {F} {AF : Arith F} (n d : Z) : F := (#n / #d)%py.

(** builtin [min(a, b)]: the first argument unless the second is smaller *)
Definition py_min {F} {AF : Arith F} (a b : F) : F := if (b <? a)%py then b else a.

(** ** Python objects: dictionaries in a heap *)

Definition loc := nat.

Inductive exn :=
| ValueError (missing : gset string)   (* "Missing required features: {missing}" *)
| KeyError (key : string)
| Unbound (l : loc)
| OverflowError.                       (* "int too large to convert to float" *)

Inductive outcome (A : Type) :=
| Raise (e : exn)
| Return (a : A).
Arguments Raise {A} e.
Arguments Return {A} a.

Section Dict.
Context {V : Type}.

(** [k in d] *)
Fixpoint dict_contains (k : string) (d : list (string * V)) : bool :=
  match d with
  | [] => false
  | (k', _) :: d' => if decide (k = k') then true else dict_contains k d'
  end.

(** [d[k]] *)
Fixpoint dict_get (k : string) (d : list (string * V)) : option V :=
  match d with
  | [] => None
  | (k', v) :: d' => if decide (k = k') then Some v else dict_get k d'
  end.

(** [d[k] = v]: an existing key keeps its position, a new key goes last *)
Fixpoint dict_set (k : string) (v : V) (d : list (string * V)) : list (string * V) :=
  match d with
  | [] => [(k, v)]
  | (k', v') :: d' =>
      if decide (k = k') then (k, v) :: d' else (k', v') :: dict_set k v d'
  end.

(** [dict(pairs)] *)
Definition dict_of_items (pairs : list (string * V)) : list (string * V) :=
  fold_left (fun d kv => dict_set kv.1 kv.2 d) pairs [].
End Dict.

(** [x] occurs at an earlier position than [y] *)
Definition before {A} (xs : list A) (x y : A) : Prop :=
  exists i j, i < j /\ xs !! i = Some x /\ xs !! j = Some y.

Notation pydict F := (list (string * F)).
Notation heap F := (gmap loc (pydict F)).

Section Heap.
Context {F : Type}.

Definition M (A : Type) : Type := heap F -> outcome A * heap F.

Definition ret {A} (a : A) : M A := fun h => (Return a, h).
Definition raise {A} (e : exn) : M A := fun h => (Raise e, h).
Definition bind {A B} (c : M A) (k : A -> M B) : M B :=
  fun h => match c h with
           | (Return a, h') => k a h'
           | (Raise e, h') => (Raise e, h')
           end.

(** reading the dictionary an object reference points to *)
Definition deref (l : loc) : M (pydict F) :=
  fun h => match h !! l with
           | Some d => (Return d, h)
           | None => (Raise (Unbound l), h)
           end.

(** [{}] and [dict(pairs)]: a new object *)
Definition new_dict (pairs : list (string * F)) : M loc :=
  fun h => let l := fresh (dom h) in (Return l, <[l := dict_of_items pairs]> h).

(** [k in d] *)
Definition contains (d : loc) (k : string) : M bool :=
  bind (deref d) (fun items => ret (dict_contains k items)).

(** [d[k]] *)
Definition getitem (d : loc) (k : string) : M F :=
  bind (deref d) (fun items =>
    match dict_get k items with
    | Some v => ret v
    | None => raise (KeyError k)
    end).

(** [d[k] = v] *)
Definition setitem (d : loc) (k : string) (v : F) : M unit :=
  bind (deref d) (fun items h => (Return tt, <[d := dict_set k v items]> h)).

(** [d.keys()] and [d.items()] *)
Definition keys (d : loc) : M (list string) :=
  bind (deref d) (fun items => ret items.*1).
Definition items (d : loc) : M (list (string * F)) := deref d.

(** [for x in xs: body], with the local variables the body rebinds as [s] *)
Fixpoint for_each {A S} (xs : list A) (body : S -> A -> M S) (s : S) : M S :=
  match xs with
  | [] => ret s
  | x :: xs' => bind (body s x) (for_each xs' body)
  end.
End Heap.
Arguments M F A : clear implicits.

Global Instance M_ret {F} : MRet (M F) := @ret F.
Global Instance M_bind {F} : MBind (M F) := fun A B k c => bind c k.

(** ** The program *)

Section Model.
Context {F : Type} {AF : Arith F}.
Local Open Scope py_scope.

(** [@dataclass class CreditPrediction] *)
Record CreditPrediction := {
  score : F;
  decision : string;             (* 'approved' or 'denied' *)
  confidence : F;
  explanation : loc;             (* a dict, by reference *)
  model_version : string;
  timestamp : string
}.

(** [self.model]: the weight table (a dict, in insertion order) and the
    intercept *)
Record model := {
  weights : list (string * F);
  intercept : F
}.

Definition VERSION : string := "2.1.0".

Definition FEATURES : list string :=
  [ "debt_to_income"; "credit_utilization"; "payment_history_score";
    "account_age_months"; "inquiry_count_6mo"; "income_stability";
    "employment_length"; "existing_accounts" ].

Definition THRESHOLD : F := lit 5 10.

Definition _create_demo_model : model :=
  {| weights :=
       [ ("debt_to_income", - lit 35 100);
         ("credit_utilization", - lit 25 100);
         ("payment_history_score", lit 30 100);
         ("account_age_months", lit 15 100);
         ("inquiry_count_6mo", - lit 10 100);
         ("income_stability", lit 20 100);
         ("employment_length", lit 10 100);
         ("existing_accounts", lit 5 100) ];
     intercept := lit 5 10 |}.

(** [_validate_features] *)
Definition _validate_features (features : loc) : M F unit :=
  ks ← keys features;
  let missing : gset string := list_to_set FEATURES ∖ list_to_set ks in
  if decide (missing = ∅) then mret tt else raise (ValueError missing).

(** The expression
    [features[feature] / 100.0 if features[feature] > 1 else features[feature]],
    which the source writes out at lines 137 and 151. *)
Definition normalized (features : loc) (feature : string) : M F F :=
  c ← getitem features feature;
  if c >? #1 then x ← getitem features feature; mret (x / #100)
  else getitem features feature.

(** The loop of [_calculate_score]: the local [score] before the sigmoid *)
Definition linear_score (self : model) (features : loc) : M F F :=
  for_each (weights self) (fun score '(feature, weight) =>
    b ← contains features feature;
    if b : bool then
      normalized ← normalized features feature;
      mret (score + weight * normalized)
    else mret score) (intercept self).

(** [_calculate_score] *)
Definition _calculate_score (self : model) (features : loc) : M F F :=
  score ← linear_score self features;
  mret (#1 / (#1 + np_exp (- score * #2))).

(** [sorted(xs, key=key, reverse=True)]: descending by key, entries with
    equal keys in their original order.  The comparison is the [<] of the
    keys, as in the list sort. *)
Fixpoint insert_desc {A} (key : A -> F) (x : A) (xs : list A) : list A :=
  match xs with
  | [] => [x]
  | y :: ys => if key x <? key y then y :: insert_desc key x ys else x :: y :: ys
  end.
Definition sorted_reverse {A} (key : A -> F) (xs : list A) : list A :=
  foldr (insert_desc key) [] xs.

(** [_generate_explanation] *)
Definition _generate_explanation (self : model) (features : loc) : M F loc :=
  explanation ← new_dict [];
  for_each (weights self) (fun _ '(feature, weight) =>
    b ← contains features feature;
    if b : bool then
      normalized ← normalized features feature;
      let contribution := weight * normalized in
      setitem explanation feature (round4 contribution)
    else mret tt) tt;;
  its ← items explanation;
  new_dict (sorted_reverse (fun x => fabs x.2) its).

(** Lines 104 to 109 of [predict]: the decision and the confidence, as a
    function of the local [score]. *)
Definition decision_policy (score : F) : string * F :=
  let decision := if score >=? THRESHOLD then "approved" else "denied" in
  let confidence := fabs (score - THRESHOLD) / THRESHOLD in
  let confidence := py_min confidence #1 in
  (decision, confidence).

(** [predict]; [now] is what [datetime.now().isoformat()] returns.  [score]
    and [confidence] come out of [numpy.exp] as numpy.float64 scalars, whose
    [round] is numpy's; the contributions of the explanation are plain floats,
    rounded by the builtin. *)
Definition predict (self : model) (now : string) (features : loc)
  : M F CreditPrediction :=
  _validate_features features;;
  score ← _calculate_score self features;
  let '(decision, confidence) := decision_policy score in
  explanation ← _generate_explanation self features;
  mret {| score := np_round4 score;
          decision := decision;
          confidence := np_round4 confidence;
          explanation := explanation;
          model_version := VERSION;
          timestamp := now |}.

(** [HumanOversight] *)
Definition REVIEW_THRESHOLD_LOW : F := lit 4 10.
Definition REVIEW_THRESHOLD_HIGH : F := lit 6 10.

Definition requires_review (prediction : CreditPrediction) : bool * string :=
  if (REVIEW_THRESHOLD_LOW <=? score prediction)
     && (score prediction <=? REVIEW_THRESHOLD_HIGH)
  then (true, "Borderline score requires human review")
  else if confidence prediction <? lit 3 10
  then (true, "Low confidence prediction")
  else (false, "").
End Model.
Arguments model F : clear implicits.
Arguments CreditPrediction F : clear implicits.


(** ** Binary64: the arithmetic of the interpreter *)

Module Binary64.
Import SpecFloat FloatOps.
Local Open Scope Z_scope.

Definition float_of_Z (z : Z) : PrimFloat.float :=
  SF2Prim (binary_normalize prec emax z 0 false).

(** *** numpy.exp

    A library function, not part of the repository.  It is modelled by the
    exponential computed in fixed point with [guard] fractional bits and
    rounded to the nearest binary64.  This is the correctly rounded
    exponential, which numpy does not promise: for some arguments numpy
    returns the float next to it.  So [exp] is evaluated below only where the
    outcome does not hang on the last place, and the theorems about binary64
    that hold for every request are stated for [arith_with], with any function
    in the place of numpy.exp. *)
Definition guard : Z := 192.

(** [ln 2 * 2^guard], from [ln 2 = sum_(n >= 1) 1 / (n * 2^n)] *)
Definition ln2_fix : Z :=
  Eval vm_compute in
    (fold_left (fun acc n => acc + (2 ^ (guard + 16)) / (Z.of_nat n * 2 ^ Z.of_nat n))
       (seq 1 220) 0) / 2 ^ 16.

(** [e^(r / 2^guard) * 2^guard] for small [r], by the Taylor series *)
Definition exp_fix (r : Z) : Z :=
  fst (fold_left (fun '(acc, term) n =>
                    let term' := term * r / (Z.of_nat n * 2 ^ guard) in
                    (acc + term', term'))
         (seq 1 48) (2 ^ guard, 2 ^ guard)).

Definition exp (x : PrimFloat.float) : PrimFloat.float :=
  match Prim2SF x with
  | S754_nan => PrimFloat.nan
  | S754_infinity false => PrimFloat.infinity
  | S754_infinity true => PrimFloat.zero
  | S754_zero _ => PrimFloat.one
  | S754_finite s m e =>
      if PrimFloat.ltb (float_of_Z 710) x then PrimFloat.infinity
      else if PrimFloat.ltb x (float_of_Z (-750)) then PrimFloat.zero
      else
        let a := if s then - Z.pos m else Z.pos m in
        let xfix := if 0 <=? e then a * 2 ^ (e + guard)
                    else if 0 <=? e + guard then a * 2 ^ (e + guard)
                    else a / 2 ^ (- (e + guard)) in
        let k := (2 * xfix + ln2_fix) / (2 * ln2_fix) in
        let r := xfix - k * ln2_fix in
        SF2Prim (binary_normalize prec emax (exp_fix r) (k - guard) false)
  end.

(** *** builtin round(x, 4)

    The decimal value nearest to [x] with four fractional digits (ties to
    even, decided on the exact binary value), read back as a float.  Beyond
    [2^53 / 10^4] the spacing of floats exceeds [10^-4] and [x] is
    returned. *)
Definition round_half_even (num den : Z) : Z :=
  let q := num / den in
  let r := num mod den in
  match 2 * r ?= den with
  | Lt => q
  | Gt => q + 1
  | Eq => if Z.even q then q else q + 1
  end.

Definition round_4 (x : PrimFloat.float) : PrimFloat.float :=
  match Prim2SF x with
  | S754_finite s m e =>
      let n := if 0 <=? e then Z.pos m * 2 ^ e * 10000
               else round_half_even (Z.pos m * 10000) (2 ^ (- e)) in
      if n <? 2 ^ 53 then
        let y := PrimFloat.div (float_of_Z n) (float_of_Z 10000) in
        if s then PrimFloat.opp y else y
      else x
  | _ => x
  end.

(** *** round(x, 4) on a numpy.float64

    numpy scales by [10^4], rounds to the nearest integer (ties to even) and
    scales back, each step in binary64. *)
Definition rint (x : PrimFloat.float) : PrimFloat.float :=
  match Prim2SF x with
  | S754_finite s m e =>
      if 0 <=? e then x
      else
        let y := float_of_Z (round_half_even (Z.pos m) (2 ^ (- e))) in
        if s then PrimFloat.opp y else y
  | _ => x
  end.

Definition np_round_4 (x : PrimFloat.float) : PrimFloat.float :=
  PrimFloat.div (rint (PrimFloat.mul x (float_of_Z 10000))) (float_of_Z 10000).

#[export] Instance arith : Arith PrimFloat.float := {|
  of_Z := float_of_Z;
  fadd := PrimFloat.add;
  fsub := PrimFloat.sub;
  fmul := PrimFloat.mul;
  fdiv := PrimFloat.div;
  fneg := PrimFloat.opp;
  fabs := PrimFloat.abs;
  flt := PrimFloat.ltb;
  fle := PrimFloat.leb;
  np_exp := exp;
  round4 := round_4;
  np_round4 := np_round_4
|}.

(** The float 1, and the floats from [+0] to 1, in the format's own terms:
    sign, mantissa and exponent *)
Definition SF_one : spec_float := S754_finite false 4503599627370496 (-52).

Definition SF_unit (x : spec_float) : Prop :=
  x = S754_zero false
  \/ exists p e, x = S754_finite false p e /\ (e < -52 \/ e = -52 /\ Z.pos p <= 2 ^ 52).

(** The same arithmetic with any function [e] in the place of numpy.exp *)
Definition arith_with (e : PrimFloat.float -> PrimFloat.float) : Arith PrimFloat.float := {|
  of_Z := float_of_Z;
  fadd := PrimFloat.add;
  fsub := PrimFloat.sub;
  fmul := PrimFloat.mul;
  fdiv := PrimFloat.div;
  fneg := PrimFloat.opp;
  fabs := PrimFloat.abs;
  flt := PrimFloat.ltb;
  fle := PrimFloat.leb;
  np_exp := e;
  round4 := round_4;
  np_round4 := np_round_4
|}.
End Binary64.

(** ** Exact: the same program over the real numbers *)

Module Exact.
Local Open Scope R_scope.

Definition Rltb (a b : R) : bool := if Rlt_dec a b then true else false.
Definition Rleb (a b : R) : bool := if Rle_dec a b then true else false.

(** the integer nearest to [x], ties to even *)
Definition nearest_even (x : R) : Z :=
  let n := Int_part x in
  let f := frac_part x in
  if Rlt_dec f (1 / 2) then n
  else if Rlt_dec (1 / 2) f then (n + 1)%Z
  else if Z.even n then n else (n + 1)%Z.

Definition round_4 (x : R) : R := IZR (nearest_even (x * 10000)) / 10000.

Definition Rsum (xs : list R) : R := foldr Rplus 0 xs.

#[export] Instance arith : Arith R := {|
  of_Z := IZR;
  fadd := Rplus;
  fsub := Rminus;
  fmul := Rmult;
  fdiv := Rdiv;
  fneg := Ropp;
  fabs := Rabs;
  flt := Rltb;
  fle := Rleb;
  np_exp := exp;
  round4 := round_4;
  np_round4 := round_4
|}.
End Exact.


(** ** What the specification calls things

    Pure counterparts of the methods, named after the components of the
    specification; the theorems below relate the methods to them. *)

Section Spec.
Context {F : Type} {AF : Arith F}.
Local Open Scope py_scope.

(** FeatureNormalizer, as the code decides it: on the signed value. *)
Definition normalize (v : F) : F := if v >? #1 then v / #100 else v.

(** FeatureNormalizer, in the words of the specification: "if the raw value's
    magnitude is > 1, divide by 100; otherwise pass through unchanged". *)
Definition spec_normalize (v : F) : F := if fabs v >? #1 then v / #100 else v.

(** The unrounded contribution of every weighted feature present in the
    FeatureSet, in the order of the weight table. *)
Definition contributions (self : model F) (fs : pydict F) : list (string * F) :=
  omap (fun '(feature, weight) =>
          v ← dict_get feature fs; Some (feature, weight * normalize v))
       (weights self).

(** [start + c1 + c2 + ...], added from left to right *)
Definition accumulate (cs : list (string * F)) (start : F) : F :=
  fold_left (fun acc c => acc + c.2) cs start.

(** The pre-sigmoid linear sum *)
Definition linear_sum (self : model F) (fs : pydict F) : F :=
  accumulate (contributions self fs) (intercept self).

Definition logistic (s : F) : F := #1 / (#1 + np_exp (- s * #2)).

(** The contributions as the explanation reports them *)
Definition rounded (cs : list (string * F)) : list (string * F) :=
  (fun c => (c.1, round4 c.2)) <$> cs.

(** The required names a FeatureSet lacks *)
Definition missing_features (fs : pydict F) : gset string :=
  list_to_set FEATURES ∖ list_to_set fs.*1.

(** A FeatureSet containing all 8 required features *)
Definition has_required (fs : pydict F) : bool :=
  forallb (fun f => dict_contains f fs) FEATURES.

(** The two dictionaries [_generate_explanation] creates in heap [h]: the one
    its loop fills, and the sorted one it returns. *)
Definition loop_dict (self : model F) (fs : pydict F) : pydict F :=
  fold_left (fun d c => dict_set c.1 c.2 d) (rounded (contributions self fs)) [].
Definition explanation_heap (self : model F) (fs : pydict F) (h : heap F)
  : loc * heap F :=
  let e1 := fresh (dom h) in
  let h1 := <[e1 := loop_dict self fs]> h in
  let e2 := fresh (dom h1) in
  (e2, <[e2 := dict_of_items (sorted_reverse (fun x => fabs x.2) (loop_dict self fs))]> h1).
End Spec.

(** ** The FeatureSet with Python's numbers

    The annotation [Dict[str, float]] admits [int] values too, and the demo
    request passes [35], [45], ... as such.  An [int] is compared as an
    integer in [features[feature] > 1], and it is converted to a float where
    it meets one, in [features[feature] / 100.0] and in [weight * normalized];
    the conversion raises [OverflowError] when the [int] is too large for a
    float.  [Numbers] is the pipeline over such FeatureSets: the same
    statements as above, with the conversions written out.  On a FeatureSet
    of floats no conversion takes place. *)

Inductive number (F : Type) :=
| Float (x : F)                      (* a [float] *)
| Int (z : Z).                       (* an [int]; a [bool] is the [int] 0 or 1 *)
Arguments Float {F} x.
Arguments Int {F} z.

(** [float(z)] for an [int] [z]; [None] where Python raises [OverflowError] *)
Class IntToFloat (F : Type) := float_of_int : Z -> option F.

(** In binary64 the conversion rounds to the nearest float, and fails when
    that is beyond the largest one. *)
#[export] Instance binary64_float_of_int : IntToFloat PrimFloat.float := fun z =>
  match SpecFloat.binary_normalize FloatOps.prec FloatOps.emax z 0 false with
  | SpecFloat.S754_infinity _ => None
  | x => Some (FloatOps.SF2Prim x)
  end.

#[export] Instance exact_float_of_int : IntToFloat R := fun z => Some (IZR z).

Module Numbers.
Section Model.
Context {F : Type} {AF : Arith F} {IF : IntToFloat F}.
Local Open Scope py_scope.

(** an operand of a float operation, converted where it is an [int] *)
Definition as_float (x : number F) : M (number F) F :=
  match x with
  | Float x => mret x
  | Int z => match float_of_int z with
             | Some x => mret x
             | None => raise OverflowError
             end
  end.

(** [x > 1]: between floats for a float, between integers for an [int] *)
Definition gt_one (x : number F) : bool :=
  match x with
  | Float x => x >? #1
  | Int z => (1 <? z)%Z
  end.

(** [abs(x)] as a sort key; the explanation holds floats only *)
Definition magnitude (x : number F) : F :=
  match x with
  | Float x => fabs x
  | Int z => #(Z.abs z)
  end.

(** [features[feature] / 100.0 if features[feature] > 1 else features[feature]] *)
Definition normalized (features : loc) (feature : string)
  : M (number F) (number F) :=
  c ← getitem features feature;
  if gt_one c then
    x ← getitem features feature;
    x ← as_float x;
    mret (Float (x / #100))
  else getitem features feature.

(** The loop of [_calculate_score] *)
Definition linear_score (self : model F) (features : loc) : M (number F) F :=
  for_each (weights self) (fun score '(feature, weight) =>
    b ← contains features feature;
    if b : bool then
      normalized ← normalized features feature;
      normalized ← as_float normalized;
      mret (score + weight * normalized)
    else mret score) (intercept self).

(** [_calculate_score] *)
Definition _calculate_score (self : model F) (features : loc) : M (number F) F :=
  score ← linear_score self features;
  mret (#1 / (#1 + np_exp (- score * #2))).

(** [_generate_explanation] *)
Definition _generate_explanation (self : model F) (features : loc)
  : M (number F) loc :=
  explanation ← new_dict [];
  for_each (weights self) (fun _ '(feature, weight) =>
    b ← contains features feature;
    if b : bool then
      normalized ← normalized features feature;
      normalized ← as_float normalized;
      let contribution := weight * normalized in
      setitem explanation feature (Float (round4 contribution))
    else mret tt) tt;;
  its ← items explanation;
  new_dict (sorted_reverse (fun x => magnitude x.2) its).

(** [predict] *)
Definition predict (self : model F) (now : string) (features : loc)
  : M (number F) (CreditPrediction F) :=
  _validate_features features;;
  score ← _calculate_score self features;
  let '(decision, confidence) := decision_policy score in
  explanation ← _generate_explanation self features;
  mret {| score := np_round4 score;
          decision := decision;
          confidence := np_round4 confidence;
          explanation := explanation;
          model_version := VERSION;
          timestamp := now |}.

(** *** Pure counterparts *)

(** the float an operand stands for; [None] where the conversion fails *)
Definition to_float (x : number F) : option F :=
  match x with
  | Float x => Some x
  | Int z => float_of_int z
  end.

(** the normalized value, as a float *)
Definition normalize (x : number F) : option F :=
  y ← to_float x; Some (if gt_one x then y / #100 else y).

(** the linear sum from [acc] on; [None] where a conversion fails *)
Fixpoint linear_from (ws : list (string * F)) (fs : pydict (number F)) (acc : F)
  : option F :=
  match ws with
  | [] => Some acc
  | (feature, weight) :: ws' =>
      match dict_get feature fs with
      | Some v => n ← normalize v; linear_from ws' fs (acc + weight * n)
      | None => linear_from ws' fs acc
      end
  end.

(** the dictionary the loop of [_generate_explanation] leaves, from [d] on *)
Fixpoint explained (ws : list (string * F)) (fs d : pydict (number F))
  : option (pydict (number F)) :=
  match ws with
  | [] => Some d
  | (feature, weight) :: ws' =>
      match dict_get feature fs with
      | Some v =>
          n ← normalize v;
          explained ws' fs (dict_set feature (Float (round4 (weight * n))) d)
      | None => explained ws' fs d
      end
  end.

(** some weighted feature of the FeatureSet is an [int] too large for a
    float *)
Definition overflows (ws : list (string * F)) (fs : pydict (number F)) : bool :=
  existsb (fun '(feature, _) =>
             match dict_get feature fs with
             | Some v => match to_float v with None => true | Some _ => false end
             | None => false
             end) ws.

(** a FeatureSet of floats, and a heap of such *)
Definition floats (fs : pydict F) : pydict (number F) :=
  (fun kv : string * F => (kv.1, Float kv.2)) <$> fs.
Definition float_heap (h : heap F) : heap (number F) := floats <$> h.
End Model.
End Numbers.

(** ** Inputs used in examples *)

Module Samples.
Import PrimFloat.
Local Open Scope float_scope.
#[local] Set Warnings "-inexact-float".

(** The request of the demo at the end of [model.py] *)
Definition sample_features : pydict float :=
  [ ("debt_to_income", 35); ("credit_utilization", 45);
    ("payment_history_score", 85); ("account_age_months", 48);
    ("inquiry_count_6mo", 2); ("income_stability", 0.8);
    ("employment_length", 36); ("existing_accounts", 5) ].

(** The same request without two of the required features, and with an
    entry the model does not know *)
Definition incomplete_features : pydict float :=
  [ ("debt_to_income", 35); ("payment_history_score", 85);
    ("account_age_months", 48); ("inquiry_count_6mo", 2);
    ("employment_length", 36); ("existing_accounts", 5); ("zip_code", 90210) ].

(** The same request with [payment_history_score] given as 10000 *)
Definition saturating_features : pydict float :=
  [ ("debt_to_income", 35); ("credit_utilization", 45);
    ("payment_history_score", 10000); ("account_age_months", 48);
    ("inquiry_count_6mo", 2); ("income_stability", 0.8);
    ("employment_length", 36); ("existing_accounts", 5) ].

(** The same request with [inquiry_count_6mo] equal to [employment_length]:
    two contributions of the same magnitude and opposite signs *)
Definition tied_features : pydict float :=
  [ ("debt_to_income", 35); ("credit_utilization", 45);
    ("payment_history_score", 85); ("account_age_months", 48);
    ("inquiry_count_6mo", 36); ("income_stability", 0.8);
    ("employment_length", 36); ("existing_accounts", 5) ].

(** The request of the demo in another order, with two entries the model
    does not weigh *)
Definition sample_with_extras : pydict float :=
  [ ("zip_code", 90210); ("existing_accounts", 5); ("employment_length", 36);
    ("income_stability", 0.8); ("inquiry_count_6mo", 2);
    ("account_age_months", 48); ("payment_history_score", 85);
    ("credit_utilization", 45); ("debt_to_income", 35); ("age", 41) ].

(** The same request with [debt_to_income] given as 200000 *)
Definition vanishing_features : pydict float :=
  [ ("debt_to_income", 200000); ("credit_utilization", 45);
    ("payment_history_score", 85); ("account_age_months", 48);
    ("inquiry_count_6mo", 2); ("income_stability", 0.8);
    ("employment_length", 36); ("existing_accounts", 5) ].

(** A heap in which the request is the object at address 0 *)
Definition heap_with (fs : pydict float) : heap float := {[ 0%nat := fs ]}.

(** The request of the demo as the source writes it, with its four [int]
    values *)
Definition demo_request : pydict (number float) :=
  [ ("debt_to_income", Float 35); ("credit_utilization", Float 45);
    ("payment_history_score", Float 85); ("account_age_months", Int 48);
    ("inquiry_count_6mo", Int 2); ("income_stability", Float 0.8);
    ("employment_length", Int 36); ("existing_accounts", Int 5) ].

(** The same request with an [int] beyond the range of the floats *)
Definition overflowing_request : pydict (number float) :=
  [ ("debt_to_income", Float 35); ("credit_utilization", Float 45);
    ("payment_history_score", Float 85); ("account_age_months", Int (10 ^ 400));
    ("inquiry_count_6mo", Int 2); ("income_stability", Float 0.8);
    ("employment_length", Int 36); ("existing_accounts", Int 5) ].

(** That request without two of the required features *)
Definition overflowing_incomplete : pydict (number float) :=
  [ ("debt_to_income", Float 35); ("payment_history_score", Float 85);
    ("account_age_months", Int (10 ^ 400)); ("inquiry_count_6mo", Int 2);
    ("employment_length", Int 36); ("existing_accounts", Int 5) ].

Definition number_heap (fs : pydict (number float)) : heap (number float) :=
  {[ 0%nat := fs ]}.

(** The request of the demo, over the reals *)
Definition exact_features : pydict R :=
  [ ("debt_to_income", 35); ("credit_utilization", 45);
    ("payment_history_score", 85); ("account_age_months", 48);
    ("inquiry_count_6mo", 2); ("income_stability", 0.8);
    ("employment_length", 36); ("existing_accounts", 5) ]%R.
Definition exact_heap : heap R := {[ 0%nat := exact_features ]}.

(** A FeatureSet with values below, at and above the threshold of the
    normalizer *)
Definition threshold_features : pydict R :=
  [ ("income_stability", 0.5); ("existing_accounts", 1);
    ("inquiry_count_6mo", 2); ("employment_length", 50) ]%R.
Definition threshold_heap : heap R := {[ 0%nat := threshold_features ]}.
End Samples.

(** ** Construction, metadata and the audit log

    The methods that talk to the outside: [print] goes to the console, and
    [datetime.now()] reads a clock that the program does not control. *)

(** A [datetime], field by field *)
Record datetime := {
  year : nat; month : nat; day : nat;
  hour : nat; minute : nat; second : nat; microsecond : nat
}.

(** The console (the lines printed so far) and the clock: the [n]-th call of
    [datetime.now()] returns [clock n]. *)
Record world := {
  stdout : list string;
  clock : nat -> datetime;
  reads : nat
}.

Definition IO (A : Type) : Type := world -> A * world.

Global Instance IO_ret : MRet IO := fun A a w => (a, w).
Global Instance IO_bind : MBind IO :=
  fun A B k c w => let '(a, w') := c w in k a w'.

(** [print(line)] *)
Definition print (line : string) : IO unit :=
  fun w => (tt, {| stdout := stdout w ++ [line]; clock := clock w; reads := reads w |}).

(** [datetime.now()] *)
Definition datetime_now : IO datetime :=
  fun w => (clock w (reads w),
            {| stdout := stdout w; clock := clock w; reads := S (reads w) |}).

(** Decimal digits: [fixed_digits w n] is [n] in [w] digits, zero padded
    ([%02d], [%04d], [%06d]); [decimal n] has no padding. *)
Definition digit (d : nat) : Ascii.ascii := Ascii.ascii_of_nat (48 + d).

Fixpoint fixed_digits (width n : nat) : list Ascii.ascii :=
  match width with
  | 0 => []
  | S width' => fixed_digits width' (n / 10) ++ [digit (n mod 10)]
  end.

Fixpoint count_digits (fuel n : nat) : nat :=
  match fuel with
  | 0 => 1
  | S fuel' => if n <? 10 then 1 else S (count_digits fuel' (n / 10))
  end.

Definition decimal (n : nat) : list Ascii.ascii := fixed_digits (count_digits n n) n.

(** [dt.isoformat()]: [YYYY-MM-DDTHH:MM:SS], followed by [.ffffff] when the
    microseconds are not zero *)
Definition zero_padded (width n : nat) : string :=
  String.string_of_list_ascii (fixed_digits width n).

Definition isoformat (dt : datetime) : string :=
  zero_padded 4 (year dt) +:+ "-" +:+ zero_padded 2 (month dt) +:+ "-"
  +:+ zero_padded 2 (day dt) +:+ "T" +:+ zero_padded 2 (hour dt) +:+ ":"
  +:+ zero_padded 2 (minute dt) +:+ ":" +:+ zero_padded 2 (second dt)
  +:+ (if microsecond dt =? 0 then "" else "." +:+ zero_padded 6 (microsecond dt)).

(** [dt.strftime('%Y%m%d%H%M%S')]; [%Y] is the year as the C library prints
    it, in four digits from the year 1000 on *)
Definition strftime_compact (dt : datetime) : string :=
  String.string_of_list_ascii
    (decimal (year dt) ++ fixed_digits 2 (month dt) ++ fixed_digits 2 (day dt)
     ++ fixed_digits 2 (hour dt) ++ fixed_digits 2 (minute dt)
     ++ fixed_digits 2 (second dt)).

(** What [datetime] admits (hours below 24, and so on), and two readings
    falling in the same second *)
Definition valid_datetime (dt : datetime) : Prop :=
  1 <= year dt < 10 * 1000 /\ 1 <= month dt <= 12 /\ 1 <= day dt <= 31
  /\ hour dt < 24 /\ minute dt < 60 /\ second dt < 60
  /\ microsecond dt < 1000 * 1000.

Definition same_second (dt1 dt2 : datetime) : Prop :=
  year dt1 = year dt2 /\ month dt1 = month dt2 /\ day dt1 = day dt2
  /\ hour dt1 = hour dt2 /\ minute dt1 = minute dt2 /\ second dt1 = second dt2.

(** The values the dictionaries handed to callers hold *)
Inductive pyval (F : Type) :=
| PyNone
| PyBool (b : bool)
| PyStr (s : string)
| PyNum (x : F)
| PyList (xs : list string)
| PyDict (d : list (string * pyval F)).
Arguments PyNone {F}.
Arguments PyBool {F} b.
Arguments PyStr {F} s.
Arguments PyNum {F} x.
Arguments PyList {F} xs.
Arguments PyDict {F} d.

Section Service.
Context {F : Type} {AF : Arith F}.
Local Open Scope py_scope.

(** A [CreditScoringModel] object: its attributes [model] and [model_path] *)
Record CreditScoringModel := {
  self_model : option (model F);
  self_model_path : option string
}.

Definition RISK_CATEGORY : string := "high-risk".

(** [_load_model] *)
Definition _load_model (self : CreditScoringModel) : IO CreditScoringModel :=
  print ("[Model] Loading Credit Scoring Model v" +:+ VERSION);;
  mret {| self_model := Some _create_demo_model;
          self_model_path := self_model_path self |}.

(** [__init__] *)
Definition __init__ (model_path : option string) : IO CreditScoringModel :=
  let self := {| self_model := None; self_model_path := model_path |} in
  _load_model self.

(** [get_model_info] *)
Definition get_model_info (self : CreditScoringModel) : list (string * pyval F) :=
  [ ("name", PyStr "CreditScore-XGB");
    ("version", PyStr VERSION);
    ("risk_category", PyStr RISK_CATEGORY);
    ("framework", PyStr "XGBoost 2.0.3");
    ("features", PyList FEATURES);
    ("threshold", PyNum THRESHOLD);
    ("eu_ai_act_reference", PyStr "Annex III, Section 5(b)") ].

(** [HumanOversight.log_decision]; the dictionary display reads the clock for
    ['timestamp'] first and for ['audit_id'] last. *)
Definition log_decision (prediction : CreditPrediction F)
    (reviewer : option string) (override : bool)
  : IO (list (string * pyval F)) :=
  t1 ← datetime_now;
  t2 ← datetime_now;
  let audit_id := "AUDIT-" +:+ strftime_compact t2 in
  let log_entry :=
    [ ("timestamp", PyStr (isoformat t1));
      ("prediction",
       PyDict [ ("score", PyNum (score prediction));
                ("decision", PyStr (decision prediction));
                ("model_version", PyStr (model_version prediction)) ]);
      ("reviewer", match reviewer with Some r => PyStr r | None => PyNone end);
      ("override", PyBool override);
      ("audit_id", PyStr audit_id) ] in
  print ("[Audit] Logged decision: " +:+ audit_id);;
  mret log_entry.
End Service.
Arguments CreditScoringModel F : clear implicits.

Module AuditSamples.
(** A reading of the clock, and a world whose clock gives it at every call
    but for the microseconds *)
Definition reading (us : nat) : datetime :=
  {| year := 2024; month := 5; day := 17; hour := 9; minute := 30; second := 7;
     microsecond := us |}.
Definition world_at (us : nat) : world :=
  {| stdout := []; clock := fun n => reading (us + n); reads := 0 |}.
End AuditSamples.

(** ** The range of the linear sum

    The least and the greatest linear sum a weight table can give when every
    normalized value lies in [[0, 1]]: the intercept plus the negative,
    respectively the positive, weights. *)

Module Range.
Import Exact.
Local Open Scope R_scope.

Definition linear_floor (self : model R) : R :=
  intercept self + Rsum ((fun kw => Rmin kw.2 0) <$> weights self).

Definition linear_ceiling (self : model R) : R :=
  intercept self + Rsum ((fun kw => Rmax kw.2 0) <$> weights self).
End Range.

(** ** Running the heap operations *)

Section Run.
Context {F : Type} {AF : Arith F}.
Local Open Scope py_scope.
Implicit Types (h : heap F) (fs : pydict F) (l : loc) (k : string) (v : F).

Lemma run_bind {A B} (c : M F A) (f : A -> M F B) h a h' :
  c h = (Return a, h') -> (c ≫= f) h = f a h'.
Proof. intros Hc. unfold mbind, M_bind, bind. by rewrite Hc. Qed.

Lemma run_bind_raise {A B} (c : M F A) (f : A -> M F B) h e h' :
  c h = (Raise e, h') -> (c ≫= f) h = (Raise e, h').
Proof. intros Hc. unfold mbind, M_bind, bind. by rewrite Hc. Qed.

Lemma run_deref h l fs : h !! l = Some fs -> deref l h = (Return fs, h).
Proof. intros Hl. unfold deref. by rewrite Hl. Qed.

Lemma run_contains h l fs k :
  h !! l = Some fs -> contains l k h = (Return (dict_contains k fs), h).
Proof. intros Hl. unfold contains, bind. by rewrite (run_deref h l fs). Qed.

Lemma run_getitem h l fs k v :
  h !! l = Some fs -> dict_get k fs = Some v -> getitem l k h = (Return v, h).
Proof.
  intros Hl Hk. unfold getitem, bind. rewrite (run_deref h l fs) by done.
  by rewrite Hk.
Qed.

Lemma run_setitem h l d k v :
  h !! l = Some d -> setitem l k v h = (Return tt, <[l := dict_set k v d]> h).
Proof. intros Hl. unfold setitem, bind. by rewrite (run_deref h l d). Qed.

Lemma run_keys h l fs : h !! l = Some fs -> keys l h = (Return fs.*1, h).
Proof. intros Hl. unfold keys, bind. by rewrite (run_deref h l fs). Qed.

Lemma dict_contains_Some {V} k (d : list (string * V)) (v : V) :
  dict_get k d = Some v -> dict_contains k d = true.
Proof.
  induction d as [|[k' v'] d IH]; simpl; [done|]. by case_decide.
Qed.

Lemma dict_contains_None {V} k (d : list (string * V)) :
  dict_get k d = None -> dict_contains k d = false.
Proof.
  induction d as [|[k' v'] d IH]; simpl; [done|]. by case_decide.
Qed.

Lemma dict_contains_elem_of {V} k (d : list (string * V)) :
  dict_contains k d = true <-> k ∈ d.*1.
Proof.
  induction d as [|[k' v'] d IH]; simpl.
  - split; [done|]. by intros ?%elem_of_nil.
  - rewrite elem_of_cons. case_decide as Hk.
    + split; [by left|done].
    + rewrite IH. split; [by right|]. by intros [?|?].
Qed.

Lemma run_normalized h l fs k v :
  h !! l = Some fs -> dict_get k fs = Some v ->
  normalized l k h = (Return (normalize v), h).
Proof.
  intros Hl Hk. unfold normalized, normalize.
  rewrite (run_bind _ _ h v h) by eauto using run_getitem.
  destruct (v >? #1).
  - by rewrite (run_bind _ _ h v h) by eauto using run_getitem.
  - eauto using run_getitem.
Qed.

(** *** The scoring loop *)

Lemma run_linear_score_from (ws : list (string * F)) h l fs acc :
  h !! l = Some fs ->
  for_each ws (fun score '(feature, weight) =>
      b ← contains l feature;
      if b : bool then
        normalized ← normalized l feature;
        mret (score + weight * normalized)
      else mret score) acc h
  = (Return (accumulate
       (omap (fun '(feature, weight) =>
                v ← dict_get feature fs; Some (feature, weight * normalize v)) ws)
       acc), h).
Proof.
  intros Hl. revert acc. induction ws as [|[feature weight] ws IH]; intros acc; [done|].
  cbn [for_each omap list_omap].
  unfold bind at 1.
  rewrite (run_bind _ _ h (dict_contains feature fs) h) by eauto using run_contains.
  destruct (dict_get feature fs) as [v|] eqn:Hk.
  - rewrite (dict_contains_Some _ _ _ Hk).
    rewrite (run_bind _ _ h (normalize v) h) by eauto using run_normalized.
    cbn. apply IH.
  - rewrite (dict_contains_None _ _ Hk). cbn. apply IH.
Qed.

Lemma run_linear_score self h l fs :
  h !! l = Some fs -> linear_score self l h = (Return (linear_sum self fs), h).
Proof. apply run_linear_score_from. Qed.

Lemma run_calculate_score self h l fs :
  h !! l = Some fs ->
  _calculate_score self l h = (Return (logistic (linear_sum self fs)), h).
Proof.
  intros Hl. unfold _calculate_score.
  by rewrite (run_bind _ _ h (linear_sum self fs) h) by eauto using run_linear_score.
Qed.
(** *** Dictionaries with distinct keys *)

Lemma dict_set_fresh {V} k (v : V) (d : list (string * V)) :
  k ∉ d.*1 -> dict_set k v d = d ++ [(k, v)].
Proof.
  induction d as [|[k' v'] d IH]; simpl; [done|].
  rewrite not_elem_of_cons. intros [Hne Hd]. case_decide; [done|]. by rewrite IH.
Qed.

Lemma dict_set_all_fresh {V} (d cs : list (string * V)) :
  NoDup (d.*1 ++ cs.*1) ->
  fold_left (fun d c => dict_set c.1 c.2 d) cs d = d ++ cs.
Proof.
  revert d. induction cs as [|[k v] cs IH]; intros d Hnd; simpl.
  - by rewrite app_nil_r.
  - simpl in Hnd. apply NoDup_app in Hnd as (Hd & Hdisj & Hcs).
    apply NoDup_cons in Hcs as [Hk Hcs].
    rewrite dict_set_fresh by (intros Hin; apply (Hdisj k Hin); left).
    rewrite IH, <- app_assoc; [done|].
    rewrite fmap_app. simpl. apply NoDup_app. split_and!.
    + apply NoDup_app. split_and!; [done| |apply NoDup_singleton].
      intros x Hx ->%list_elem_of_singleton. apply (Hdisj _ Hx). left.
    + intros x [Hx| ->%list_elem_of_singleton]%elem_of_app; [|done].
      intros Hx'. apply (Hdisj _ Hx). by right.
    + done.
Qed.

Lemma dict_of_items_NoDup {V} (cs : list (string * V)) :
  NoDup cs.*1 -> dict_of_items cs = cs.
Proof. intros Hnd. unfold dict_of_items. by rewrite dict_set_all_fresh. Qed.

Lemma rounded_keys (cs : list (string * F)) : (rounded cs).*1 = cs.*1.
Proof. unfold rounded. rewrite <- list_fmap_compose. done. Qed.

Lemma contributions_keys_sublist self fs :
  (contributions self fs).*1 `sublist_of` (weights self).*1.
Proof.
  unfold contributions. induction (weights self) as [|[f w] ws IH]; simpl; [done|].
  destruct (dict_get f fs); simpl.
  - by apply sublist_skip.
  - by apply sublist_cons.
Qed.

Lemma contributions_keys_complete self fs :
  (forall f, f ∈ (weights self).*1 -> dict_contains f fs = true) ->
  (contributions self fs).*1 = (weights self).*1.
Proof.
  unfold contributions. induction (weights self) as [|[f w] ws IH]; intros Hall; [done|].
  cbn [omap list_omap fmap list_fmap].
  destruct (dict_get f fs) as [v|] eqn:Hf.
  - cbn. f_equal. apply IH. intros f' Hf'. apply Hall. by right.
  - apply dict_contains_None in Hf. rewrite Hall in Hf; [done|by left].
Qed.

Lemma contributions_NoDup self fs :
  NoDup (weights self).*1 -> NoDup (contributions self fs).*1.
Proof. intros Hnd. exact (sublist_NoDup _ _ Hnd (contributions_keys_sublist self fs)). Qed.

Lemma loop_dict_NoDup self fs :
  NoDup (weights self).*1 -> loop_dict self fs = rounded (contributions self fs).
Proof.
  intros Hnd. apply dict_of_items_NoDup. rewrite rounded_keys.
  by apply contributions_NoDup.
Qed.

Lemma FEATURES_NoDup : NoDup FEATURES.
Proof. by apply (bool_decide_unpack _). Qed.

Lemma demo_weights_NoDup : NoDup (weights _create_demo_model).*1.
Proof. apply FEATURES_NoDup. Qed.

(** *** The sort *)

Lemma insert_desc_perm {A} (key : A -> F) x xs : insert_desc key x xs ≡ₚ x :: xs.
Proof.
  induction xs as [|y ys IH]; simpl; [done|].
  destruct (key x <? key y); [|done]. rewrite IH. apply Permutation_swap.
Qed.

Lemma sorted_reverse_perm {A} (key : A -> F) xs : sorted_reverse key xs ≡ₚ xs.
Proof.
  induction xs as [|x xs IH]; simpl; [done|]. by rewrite insert_desc_perm, IH.
Qed.

Lemma sorted_dict_NoDup (d : pydict F) :
  NoDup d.*1 ->
  dict_of_items (sorted_reverse (fun x => fabs x.2) d)
  = sorted_reverse (fun x => fabs x.2) d.
Proof.
  intros Hnd. apply dict_of_items_NoDup. by rewrite sorted_reverse_perm.
Qed.

(** *** The explanation *)

Lemma run_new_dict cs h :
  new_dict cs h = (Return (fresh (dom h)), <[fresh (dom h) := dict_of_items cs]> h).
Proof. done. Qed.

Lemma fresh_ne h l fs : h !! l = Some fs -> fresh (dom h) ≠ l.
Proof.
  intros Hl Heq. apply (is_fresh (dom h)). rewrite Heq. by apply elem_of_dom_2 in Hl.
Qed.

Lemma run_explanation_loop (ws : list (string * F)) h l e fs d :
  h !! l = Some fs -> h !! e = Some d -> e ≠ l ->
  for_each ws (fun _ '(feature, weight) =>
      b ← contains l feature;
      if b : bool then
        normalized ← normalized l feature;
        let contribution := weight * normalized in
        setitem e feature (round4 contribution)
      else mret tt) tt h
  = (Return tt,
     <[e := fold_left (fun d c => dict_set c.1 c.2 d)
              (rounded (omap (fun '(feature, weight) =>
                 v ← dict_get feature fs; Some (feature, weight * normalize v)) ws))
              d]> h).
Proof.
  intros Hl He Hne. revert h d Hl He.
  induction ws as [|[feature weight] ws IH]; intros h d Hl He.
  - simpl. by rewrite insert_id.
  - cbn [for_each omap list_omap]. unfold bind at 1.
    rewrite (run_bind _ _ h (dict_contains feature fs) h) by eauto using run_contains.
    destruct (dict_get feature fs) as [v|] eqn:Hk.
    + rewrite (dict_contains_Some _ _ _ Hk).
      rewrite (run_bind _ _ h (normalize v) h) by eauto using run_normalized.
      rewrite (run_setitem h e d) by done.
      rewrite (IH _ (dict_set feature (round4 (weight * normalize v)) d)).
      * by rewrite insert_insert_eq.
      * by rewrite lookup_insert_ne.
      * by rewrite lookup_insert_eq.
    + rewrite (dict_contains_None _ _ Hk). cbn. by apply IH.
Qed.

Lemma run_generate_explanation self h l fs :
  h !! l = Some fs ->
  _generate_explanation self l h
  = (Return (explanation_heap self fs h).1, (explanation_heap self fs h).2).
Proof.
  intros Hl. unfold _generate_explanation, explanation_heap. cbn [fst snd].
  rewrite (run_bind _ _ h _ _ (run_new_dict [] h)).
  set (e1 := fresh (dom h)).
  assert (e1 ≠ l) as Hne by eauto using fresh_ne.
  rewrite (run_bind _ _ _ tt (<[e1 := loop_dict self fs]> h)).
  - rewrite (run_bind _ _ _ (loop_dict self fs) (<[e1 := loop_dict self fs]> h)).
    + apply run_new_dict.
    + apply run_deref, lookup_insert_eq.
  - rewrite (run_explanation_loop _ _ l e1 fs []).
    + by rewrite insert_insert_eq.
    + by rewrite lookup_insert_ne.
    + apply lookup_insert_eq.
    + done.
Qed.

(** *** Validation and the whole pipeline *)

Lemma has_required_missing fs : has_required fs = true <-> missing_features fs = ∅.
Proof.
  unfold has_required, missing_features. rewrite forallb_forall.
  setoid_rewrite dict_contains_elem_of. setoid_rewrite <- list_elem_of_In.
  split.
  - intros Hall. apply set_eq. intros f.
    rewrite elem_of_difference, !elem_of_list_to_set. split; [|set_solver].
    intros [Hf Hn]. destruct Hn. by apply Hall.
  - intros Hempty f Hf. destruct (decide (f ∈ fs.*1)) as [|Hn]; [done|].
    assert (f ∈ (∅ : gset string)) as []%not_elem_of_empty.
    rewrite <- Hempty, elem_of_difference, !elem_of_list_to_set. done.
Qed.

Lemma run_validate_features h l fs :
  h !! l = Some fs ->
  _validate_features l h
  = (if decide (missing_features fs = ∅) then Return tt
     else Raise (ValueError (missing_features fs)), h).
Proof.
  intros Hl. unfold _validate_features.
  rewrite (run_bind _ _ h fs.*1 h) by eauto using run_keys.
  fold (missing_features fs). by case_decide.
Qed.

Lemma run_predict_missing self now h l fs :
  h !! l = Some fs -> missing_features fs ≠ ∅ ->
  predict self now l h = (Raise (ValueError (missing_features fs)), h).
Proof.
  intros Hl Hm. unfold predict. apply run_bind_raise.
  rewrite (run_validate_features h l fs Hl). by case_decide.
Qed.

Lemma run_predict self now h l fs :
  h !! l = Some fs -> missing_features fs = ∅ ->
  predict self now l h
  = (Return {| score := np_round4 (logistic (linear_sum self fs));
               decision := (decision_policy (logistic (linear_sum self fs))).1;
               confidence := np_round4 (decision_policy (logistic (linear_sum self fs))).2;
               explanation := (explanation_heap self fs h).1;
               model_version := VERSION;
               timestamp := now |},
     (explanation_heap self fs h).2).
Proof.
  intros Hl Hm. unfold predict.
  rewrite (run_bind _ _ h tt h).
  2:{ rewrite (run_validate_features h l fs Hl). by case_decide. }
  rewrite (run_bind _ _ h _ h (run_calculate_score self h l fs Hl)).
  unfold decision_policy at 1. cbv zeta.
  by rewrite (run_bind _ _ h _ _ (run_generate_explanation self h l fs Hl)).
Qed.
End Run.

(** * Properties that hold in every arithmetic *)

Section Claims.
Context {F : Type} {AF : Arith F}.
Local Open Scope py_scope.
Implicit Types (h : heap F) (fs : pydict F) (l : loc) (self : model F).

Lemma explanation_heap_lookup self fs h :
  (explanation_heap self fs h).2 !! (explanation_heap self fs h).1
  = Some (dict_of_items (sorted_reverse (fun x => fabs x.2) (loop_dict self fs))).
Proof. unfold explanation_heap. cbn [fst snd]. apply lookup_insert_eq. Qed.

Lemma explanation_heap_frame self fs h : h ⊆ (explanation_heap self fs h).2.
Proof.
  unfold explanation_heap. cbn [fst snd].
  set (h1 := <[fresh (dom h) := loop_dict self fs]> h).
  transitivity h1.
  - apply insert_subseteq, not_elem_of_dom, is_fresh.
  - apply insert_subseteq, not_elem_of_dom, is_fresh.
Qed.

Lemma run_generate_explanation_sorted self h l fs :
  NoDup (weights self).*1 -> h !! l = Some fs ->
  exists e h',
    _generate_explanation self l h = (Return e, h')
    /\ h' !! e = Some (sorted_reverse (fun x => fabs x.2) (rounded (contributions self fs))).
Proof.
  intros Hnd Hl. eexists _, _. split; [by apply run_generate_explanation|].
  rewrite explanation_heap_lookup, loop_dict_NoDup by done.
  f_equal. apply sorted_dict_NoDup. rewrite rounded_keys.
  by apply contributions_NoDup.
Qed.

(** C1.  The explanation is a linear decomposition of the logit: with [cs] the
    unrounded contributions [weight * normalize(features[feature])] of the
    weighted features present in the FeatureSet (all of them, when the
    FeatureSet has every weighted feature), [_generate_explanation]
    returns exactly the entries [(feature, round(c, 4))] of [cs], sorted, and
    the intercept plus the contributions of [cs], added in table order, is the
    value of [score] that [_calculate_score] hands to the sigmoid.  The
    equality is exact in every arithmetic, binary64 included. *)
Theorem logit_decomposition self h l fs :
  NoDup (weights self).*1 -> h !! l = Some fs ->
  let cs := contributions self fs in
  ((forall f, f ∈ (weights self).*1 -> dict_contains f fs = true) ->
   cs.*1 = (weights self).*1)
  /\ (exists e h',
      _generate_explanation self l h = (Return e, h')
      /\ h' !! e = Some (sorted_reverse (fun x => fabs x.2) (rounded cs)))
  /\ linear_score self l h = (Return (accumulate cs (intercept self)), h)
  /\ _calculate_score self l h
     = (Return (#1 / (#1 + np_exp (- accumulate cs (intercept self) * #2))), h).
Proof.
  intros Hnd Hl cs. split_and!.
  - apply contributions_keys_complete.
  - by apply run_generate_explanation_sorted.
  - by apply run_linear_score.
  - by apply run_calculate_score.
Qed.

(** C8.  Scoring is a function of the FeatureSet and the weight table alone.
    The score is [logistic (linear_sum self fs)], a value computed from the
    weight table and the contents of the FeatureSet and from nothing else:
    not from the address of the FeatureSet, not from the other objects of the
    heap, not from the calls made before.  So two calls in a row return that
    value twice and leave the heap as it was; a call on any other heap
    holding the same FeatureSet, at any address, returns it too (in binary64:
    the same bits); and so does a call made after [predict] has run and has
    left its explanation objects behind. *)
Theorem scoring_deterministic self now h1 h2 l1 l2 fs :
  h1 !! l1 = Some fs -> h2 !! l2 = Some fs ->
  let s := logistic (linear_sum self fs) in
  (s1 ← _calculate_score self l1; s2 ← _calculate_score self l1; mret (s1, s2)) h1
  = (Return (s, s), h1)
  /\ _calculate_score self l2 h2 = (Return s, h2)
  /\ (forall r h', predict self now l1 h1 = (r, h') ->
      _calculate_score self l1 h' = (Return s, h')).
Proof.
  intros Hl1 Hl2 s. split_and!.
  - rewrite (run_bind _ _ h1 _ h1 (run_calculate_score self h1 l1 fs Hl1)).
    by rewrite (run_bind _ _ h1 _ h1 (run_calculate_score self h1 l1 fs Hl1)).
  - by apply run_calculate_score.
  - intros r h' Hrun. apply run_calculate_score.
    destruct (decide (missing_features fs = ∅)) as [Hm|Hm].
    + rewrite (run_predict self now h1 l1 fs Hl1 Hm) in Hrun. injection Hrun as _ <-.
      eapply lookup_weaken; [done|apply explanation_heap_frame].
    + rewrite (run_predict_missing self now h1 l1 fs Hl1 Hm) in Hrun.
      by injection Hrun as _ <-.
Qed.

(** C9.  The pipeline never writes to the FeatureSet: after validation,
    scoring, explanation or the whole of [predict], whether it returns or
    raises, the FeatureSet object holds what it held, and so does every other
    object that existed before the call (the only writes go to the
    dictionaries [_generate_explanation] creates). *)
Theorem features_not_mutated self now h l fs :
  h !! l = Some fs ->
  (forall r h', _validate_features l h = (r, h') -> h' !! l = Some fs /\ h ⊆ h')
  /\ (forall r h', _calculate_score self l h = (r, h') -> h' !! l = Some fs /\ h ⊆ h')
  /\ (forall r h', _generate_explanation self l h = (r, h') -> h' !! l = Some fs /\ h ⊆ h')
  /\ (forall r h', predict self now l h = (r, h') -> h' !! l = Some fs /\ h ⊆ h').
Proof.
  intros Hl.
  assert (forall h', h ⊆ h' -> h' !! l = Some fs /\ h ⊆ h') as Hsub.
  { intros h' Hh'. split; [|done]. by eapply lookup_weaken. }
  split_and!; intros r h'.
  - rewrite (run_validate_features h l fs Hl). intros [= _ <-]. by apply Hsub.
  - rewrite (run_calculate_score self h l fs Hl). intros [= _ <-]. by apply Hsub.
  - rewrite (run_generate_explanation self h l fs Hl). intros [= _ <-].
    apply Hsub, explanation_heap_frame.
  - destruct (decide (missing_features fs = ∅)) as [Hm|Hm].
    + rewrite (run_predict self now h l fs Hl Hm). intros [= _ <-].
      apply Hsub, explanation_heap_frame.
    + rewrite (run_predict_missing self now h l fs Hl Hm). intros [= _ <-].
      by apply Hsub.
Qed.
End Claims.

(** * The pipeline over Python's numbers *)

Section NumbersFacts.
Context {F : Type} {AF : Arith F} {IF : IntToFloat F}.
Local Open Scope py_scope.
Implicit Types (h : heap (number F)) (fs d : pydict (number F)) (l : loc).
Implicit Types (self : model F) (ws : list (string * F)).

Lemma run_as_float h (x : number F) :
  Numbers.as_float x h
  = (match Numbers.to_float x with
     | Some y => Return y
     | None => Raise OverflowError
     end, h).
Proof.
  destruct x as [x|z]; [done|]. unfold Numbers.as_float, Numbers.to_float.
  by destruct (float_of_int z).
Qed.

Lemma run_number_normalized h l fs k (v : number F) :
  h !! l = Some fs -> dict_get k fs = Some v ->
  Numbers.normalized l k h
  = (if Numbers.gt_one v then
       match Numbers.to_float v with
       | Some y => Return (Float (y / #100))
       | None => Raise OverflowError
       end
     else Return v, h).
Proof.
  intros Hl Hk. unfold Numbers.normalized.
  rewrite (run_bind _ _ h v h) by eauto using run_getitem.
  destruct (Numbers.gt_one v); [|eauto using run_getitem].
  rewrite (run_bind _ _ h v h) by eauto using run_getitem.
  unfold mbind, M_bind, bind. rewrite run_as_float.
  by destruct (Numbers.to_float v).
Qed.

(** one turn of either loop: the normalized value reaches the arithmetic as a
    float, or the conversion raises *)
Lemma run_number_contribution {A} (f : F -> M (number F) A) h l fs k (v : number F) :
  h !! l = Some fs -> dict_get k fs = Some v ->
  (n ← Numbers.normalized l k; y ← Numbers.as_float n; f y) h
  = match Numbers.normalize v with
    | Some y => f y h
    | None => (Raise OverflowError, h)
    end.
Proof.
  intros Hl Hk. unfold Numbers.normalize.
  unfold mbind at 1, M_bind at 1, bind at 1.
  rewrite (run_number_normalized h l fs k v Hl Hk).
  destruct (Numbers.gt_one v), (Numbers.to_float v) as [y|] eqn:Hy; cbn; try done;
    unfold mbind, M_bind, bind; by rewrite run_as_float, Hy.
Qed.

(** *** The scoring loop *)

Lemma run_number_linear_score_from ws h l fs acc :
  h !! l = Some fs ->
  for_each ws (fun score '(feature, weight) =>
      b ← contains l feature;
      if b : bool then
        normalized ← Numbers.normalized l feature;
        normalized ← Numbers.as_float normalized;
        mret (score + weight * normalized)
      else mret score) acc h
  = (match Numbers.linear_from ws fs acc with
     | Some s => Return s
     | None => Raise OverflowError
     end, h).
Proof.
  intros Hl. revert acc. induction ws as [|[feature weight] ws IH]; intros acc; [done|].
  cbn [for_each Numbers.linear_from]. unfold bind at 1.
  rewrite (run_bind _ _ h (dict_contains feature fs) h) by eauto using run_contains.
  destruct (dict_get feature fs) as [v|] eqn:Hk.
  - rewrite (dict_contains_Some _ _ _ Hk).
    rewrite (run_number_contribution _ h l fs feature v Hl Hk).
    destruct (Numbers.normalize v) as [y|]; [|done]. cbn. apply IH.
  - rewrite (dict_contains_None _ _ Hk). cbn. apply IH.
Qed.

Lemma run_number_calculate_score self h l fs :
  h !! l = Some fs ->
  Numbers._calculate_score self l h
  = (match Numbers.linear_from (weights self) fs (intercept self) with
     | Some s => Return (logistic s)
     | None => Raise OverflowError
     end, h).
Proof.
  intros Hl. unfold Numbers._calculate_score, Numbers.linear_score.
  unfold mbind, M_bind, bind.
  rewrite (run_number_linear_score_from _ h l fs _ Hl).
  by destruct (Numbers.linear_from _ _ _).
Qed.

(** *** The explanation *)

Lemma run_number_explanation_loop ws h l e fs d d' :
  h !! l = Some fs -> h !! e = Some d -> e ≠ l ->
  Numbers.explained ws fs d = Some d' ->
  for_each ws (fun _ '(feature, weight) =>
      b ← contains l feature;
      if b : bool then
        normalized ← Numbers.normalized l feature;
        normalized ← Numbers.as_float normalized;
        let contribution := weight * normalized in
        setitem e feature (Float (round4 contribution))
      else mret tt) tt h
  = (Return tt, <[e := d']> h).
Proof.
  intros Hl He Hne. revert h d Hl He.
  induction ws as [|[feature weight] ws IH]; intros h d Hl He Hd.
  - injection Hd as <-. simpl. by rewrite insert_id.
  - cbn [for_each Numbers.explained] in *. unfold bind at 1.
    rewrite (run_bind _ _ h (dict_contains feature fs) h) by eauto using run_contains.
    destruct (dict_get feature fs) as [v|] eqn:Hk.
    + rewrite (dict_contains_Some _ _ _ Hk).
      rewrite (run_number_contribution _ h l fs feature v Hl Hk).
      destruct (Numbers.normalize v) as [y|] eqn:Hy; [|done]. cbn in Hd.
      rewrite (run_setitem h e d) by done.
      rewrite (IH _ (dict_set feature (Float (round4 (weight * y))) d)).
      * by rewrite insert_insert_eq.
      * by rewrite lookup_insert_ne.
      * by rewrite lookup_insert_eq.
      * done.
    + rewrite (dict_contains_None _ _ Hk). cbn. by apply (IH h d).
Qed.

Lemma run_number_generate_explanation self h l fs d :
  h !! l = Some fs ->
  Numbers.explained (weights self) fs [] = Some d ->
  let e1 := fresh (dom h) in
  let h1 := <[e1 := d]> h in
  let e2 := fresh (dom h1) in
  Numbers._generate_explanation self l h
  = (Return e2,
     <[e2 := dict_of_items (sorted_reverse (fun x => Numbers.magnitude x.2) d)]> h1).
Proof.
  intros Hl Hd e1 h1 e2. unfold Numbers._generate_explanation.
  rewrite (run_bind _ _ h _ _ (run_new_dict [] h)).
  assert (e1 ≠ l) as Hne by eauto using fresh_ne.
  rewrite (run_bind _ _ _ tt h1).
  - rewrite (run_bind _ _ _ d h1).
    + apply run_new_dict.
    + apply run_deref, lookup_insert_eq.
  - rewrite (run_number_explanation_loop _ _ l e1 fs [] d).
    + by rewrite insert_insert_eq.
    + by rewrite lookup_insert_ne.
    + apply lookup_insert_eq.
    + done.
    + done.
Qed.

(** *** Which requests overflow *)

Lemma linear_from_overflows ws fs acc :
  Numbers.overflows ws fs = true -> Numbers.linear_from ws fs acc = None.
Proof.
  revert acc. induction ws as [|[feature weight] ws IH]; intros acc; [done|].
  cbn [Numbers.overflows existsb Numbers.linear_from]. unfold Numbers.normalize.
  destruct (dict_get feature fs) as [v|]; [|by apply IH].
  destruct (Numbers.to_float v); [|done]. by apply IH.
Qed.

Lemma linear_from_converts ws fs acc :
  Numbers.overflows ws fs = false -> is_Some (Numbers.linear_from ws fs acc).
Proof.
  revert acc. induction ws as [|[feature weight] ws IH]; intros acc; [by eexists|].
  cbn [Numbers.overflows existsb Numbers.linear_from]. unfold Numbers.normalize.
  destruct (dict_get feature fs) as [v|]; [|by apply IH].
  destruct (Numbers.to_float v); [|done]. by apply IH.
Qed.

Lemma explained_converts ws fs d :
  Numbers.overflows ws fs = false -> is_Some (Numbers.explained ws fs d).
Proof.
  revert d. induction ws as [|[feature weight] ws IH]; intros d; [by eexists|].
  cbn [Numbers.overflows existsb Numbers.explained]. unfold Numbers.normalize.
  destruct (dict_get feature fs) as [v|]; [|by apply IH].
  destruct (Numbers.to_float v); [|done]. by apply IH.
Qed.

(** *** The whole of [predict] *)

Lemma run_number_predict_missing self now h l fs :
  h !! l = Some fs -> missing_features fs ≠ ∅ ->
  Numbers.predict self now l h = (Raise (ValueError (missing_features fs)), h).
Proof.
  intros Hl Hm. unfold Numbers.predict. apply run_bind_raise.
  rewrite (run_validate_features h l fs Hl). by case_decide.
Qed.

Lemma run_number_predict_overflow self now h l fs :
  h !! l = Some fs -> missing_features fs = ∅ ->
  Numbers.linear_from (weights self) fs (intercept self) = None ->
  Numbers.predict self now l h = (Raise OverflowError, h).
Proof.
  intros Hl Hm Hs. unfold Numbers.predict.
  rewrite (run_bind _ _ h tt h).
  2:{ rewrite (run_validate_features h l fs Hl). by case_decide. }
  apply run_bind_raise. by rewrite (run_number_calculate_score self h l fs Hl), Hs.
Qed.

Lemma run_number_predict self now h l fs s d :
  h !! l = Some fs -> missing_features fs = ∅ ->
  Numbers.linear_from (weights self) fs (intercept self) = Some s ->
  Numbers.explained (weights self) fs [] = Some d ->
  let e1 := fresh (dom h) in
  let h1 := <[e1 := d]> h in
  let e2 := fresh (dom h1) in
  Numbers.predict self now l h
  = (Return {| score := np_round4 (logistic s);
               decision := (decision_policy (logistic s)).1;
               confidence := np_round4 (decision_policy (logistic s)).2;
               explanation := e2;
               model_version := VERSION;
               timestamp := now |},
     <[e2 := dict_of_items (sorted_reverse (fun x => Numbers.magnitude x.2) d)]> h1).
Proof.
  intros Hl Hm Hs Hd e1 h1 e2. unfold Numbers.predict.
  rewrite (run_bind _ _ h tt h).
  2:{ rewrite (run_validate_features h l fs Hl). by case_decide. }
  rewrite (run_bind _ _ h (logistic s) h).
  2:{ by rewrite (run_number_calculate_score self h l fs Hl), Hs. }
  unfold decision_policy at 1. cbv zeta.
  by rewrite (run_bind _ _ h _ _ (run_number_generate_explanation self h l fs d Hl Hd)).
Qed.

(** C4.  Validation fails closed.  The names reported missing are exactly the
    required names absent from the FeatureSet; when some name is absent, both
    [_validate_features] and [predict] raise the error carrying that whole
    set, and the heap is left as it was.  This holds whatever the values of
    the FeatureSet are, also where scoring it would raise [OverflowError]:
    [predict] reports the missing names and not the failure of the
    arithmetic, so no feature value has met the arithmetic before the
    validation, and no explanation object has been created.  When all 8
    names are present (whatever else the FeatureSet holds) validation
    passes. *)
Theorem validation_fails_closed self now h l fs :
  h !! l = Some fs ->
  (forall f, f ∈ missing_features fs <-> f ∈ FEATURES /\ f ∉ fs.*1)
  /\ (has_required fs = false ->
      missing_features fs ≠ ∅
      /\ _validate_features l h = (Raise (ValueError (missing_features fs)), h)
      /\ Numbers.predict self now l h = (Raise (ValueError (missing_features fs)), h))
  /\ (has_required fs = true -> _validate_features l h = (Return tt, h)).
Proof.
  intros Hl. split_and!.
  - intros f. unfold missing_features.
    by rewrite elem_of_difference, !elem_of_list_to_set.
  - intros Hreq.
    assert (missing_features fs ≠ ∅) as Hm.
    { intros Hm%has_required_missing. congruence. }
    split_and!; [done| |by apply run_number_predict_missing].
    rewrite (run_validate_features h l fs Hl). by case_decide.
  - intros Hm%has_required_missing.
    rewrite (run_validate_features h l fs Hl). by case_decide.
Qed.

(** X3.  [predict] has three outcomes.  Without some required feature it
    raises the error naming the missing features.  With all of them, it
    raises [OverflowError] when a weighted feature is an [int] too large for
    a float, and otherwise it returns a prediction, stamped with version
    2.1.0 and the time of the call.  When it raises, the heap is as before.
    The lookups [features[feature]] never raise. *)
Theorem predict_outcomes self now h l fs :
  h !! l = Some fs ->
  (has_required fs = false ->
   Numbers.predict self now l h = (Raise (ValueError (missing_features fs)), h))
  /\ (has_required fs = true -> Numbers.overflows (weights self) fs = true ->
      Numbers.predict self now l h = (Raise OverflowError, h))
  /\ (has_required fs = true -> Numbers.overflows (weights self) fs = false ->
      exists p h', Numbers.predict self now l h = (Return p, h')
                   /\ model_version p = "2.1.0" /\ timestamp p = now).
Proof.
  intros Hl. split_and!.
  - intros Hreq. apply run_number_predict_missing; [done|].
    intros Hm%has_required_missing. congruence.
  - intros Hm%has_required_missing Hov.
    apply (run_number_predict_overflow self now h l fs Hl Hm).
    by apply linear_from_overflows.
  - intros Hm%has_required_missing Hov.
    destruct (linear_from_converts (weights self) fs (intercept self) Hov) as [s Hs].
    destruct (explained_converts (weights self) fs [] Hov) as [d Hd].
    eexists _, _. split; [by apply (run_number_predict self now h l fs s d)|done].
Qed.

(** *** FeatureSets of floats

    On a FeatureSet of floats no conversion takes place, and [Numbers] does
    what the float-valued reading of the pipeline does. *)

Lemma floats_keys (fs0 : pydict F) : (Numbers.floats fs0).*1 = fs0.*1.
Proof. unfold Numbers.floats. by rewrite <- list_fmap_compose. Qed.

Lemma dict_get_floats k (fs0 : pydict F) :
  dict_get k (Numbers.floats fs0) = Float <$> dict_get k fs0.
Proof.
  induction fs0 as [|[k' v] fs0 IH]; [done|]. cbn. by case_decide.
Qed.

Lemma dict_set_floats k (x : F) (d0 : pydict F) :
  dict_set k (Float x) (Numbers.floats d0) = Numbers.floats (dict_set k x d0).
Proof.
  induction d0 as [|[k' v] d0 IH]; [done|]. cbn. case_decide; [done|].
  cbn. f_equal. apply IH.
Qed.

Lemma dict_of_items_floats (cs : pydict F) :
  dict_of_items (Numbers.floats cs) = Numbers.floats (dict_of_items cs).
Proof.
  unfold dict_of_items.
  assert (forall d0 : pydict F,
    fold_left (fun a kv => dict_set kv.1 kv.2 a) (Numbers.floats cs) (Numbers.floats d0)
    = Numbers.floats (fold_left (fun a kv => dict_set kv.1 kv.2 a) cs d0)) as Hfold.
  { induction cs as [|[k v] cs IH]; intros d0; [done|].
    cbn. rewrite dict_set_floats. apply IH. }
  apply (Hfold []).
Qed.

Lemma insert_desc_floats (x : string * F) (d0 : pydict F) :
  insert_desc (fun x => Numbers.magnitude x.2) (x.1, Float x.2) (Numbers.floats d0)
  = Numbers.floats (insert_desc (fun x => fabs x.2) x d0).
Proof.
  induction d0 as [|y d0 IH]; [done|]. cbn.
  destruct (fabs x.2 <? fabs y.2); [|done]. cbn. f_equal. apply IH.
Qed.

Lemma sorted_reverse_floats (d0 : pydict F) :
  sorted_reverse (fun x => Numbers.magnitude x.2) (Numbers.floats d0)
  = Numbers.floats (sorted_reverse (fun x => fabs x.2) d0).
Proof.
  induction d0 as [|x d0 IH]; [done|]. cbn.
  change (foldr _ _ (_ <$> d0))
    with (sorted_reverse (fun x => Numbers.magnitude x.2) (Numbers.floats d0)).
  rewrite IH. apply insert_desc_floats.
Qed.

Lemma linear_from_floats ws (fs0 : pydict F) acc :
  Numbers.linear_from ws (Numbers.floats fs0) acc
  = Some (accumulate
            (omap (fun '(feature, weight) =>
                     v ← dict_get feature fs0; Some (feature, weight * normalize v)) ws)
            acc).
Proof.
  revert acc. induction ws as [|[feature weight] ws IH]; intros acc; [done|].
  cbn [Numbers.linear_from omap list_omap]. rewrite dict_get_floats.
  destruct (dict_get feature fs0) as [v|]; cbn; apply IH.
Qed.

Lemma explained_floats ws (fs0 d0 : pydict F) :
  Numbers.explained ws (Numbers.floats fs0) (Numbers.floats d0)
  = Some (Numbers.floats
            (fold_left (fun a c => dict_set c.1 c.2 a)
               (rounded (omap (fun '(feature, weight) =>
                  v ← dict_get feature fs0; Some (feature, weight * normalize v)) ws))
               d0)).
Proof.
  revert d0. induction ws as [|[feature weight] ws IH]; intros d0; [done|].
  cbn [Numbers.explained omap list_omap]. rewrite dict_get_floats.
  destruct (dict_get feature fs0) as [v|]; cbn; [|apply IH].
  rewrite dict_set_floats. apply IH.
Qed.

Lemma float_heap_insert (h0 : heap F) l (d0 : pydict F) :
  Numbers.float_heap (<[l := d0]> h0) = <[l := Numbers.floats d0]> (Numbers.float_heap h0).
Proof. apply fmap_insert. Qed.

Lemma float_heap_fresh (h0 : heap F) :
  fresh (dom (Numbers.float_heap h0)) = fresh (dom h0).
Proof. unfold Numbers.float_heap. by rewrite dom_fmap_L. Qed.

Lemma float_heap_lookup (h0 : heap F) l (fs0 : pydict F) :
  h0 !! l = Some fs0 -> Numbers.float_heap h0 !! l = Some (Numbers.floats fs0).
Proof. intros Hl. unfold Numbers.float_heap. by rewrite lookup_fmap, Hl. Qed.

Lemma missing_features_floats (fs0 : pydict F) :
  missing_features (Numbers.floats fs0) = missing_features fs0.
Proof. unfold missing_features. by rewrite floats_keys. Qed.

Lemma numbers_agree_on_floats self now (h0 : heap F) l (fs0 : pydict F) :
  h0 !! l = Some fs0 ->
  Numbers._calculate_score self l (Numbers.float_heap h0)
  = ((_calculate_score self l h0).1, Numbers.float_heap (_calculate_score self l h0).2)
  /\ Numbers._generate_explanation self l (Numbers.float_heap h0)
     = ((_generate_explanation self l h0).1,
        Numbers.float_heap (_generate_explanation self l h0).2)
  /\ Numbers.predict self now l (Numbers.float_heap h0)
     = ((predict self now l h0).1, Numbers.float_heap (predict self now l h0).2).
Proof.
  intros Hl0. pose proof (float_heap_lookup h0 l fs0 Hl0) as Hl.
  pose proof (linear_from_floats (weights self) fs0 (intercept self)) as Hs.
  pose proof (explained_floats (weights self) fs0 []) as Hd.
  fold (contributions self fs0) in Hs, Hd. fold (linear_sum self fs0) in Hs.
  fold (loop_dict self fs0) in Hd. change (Numbers.floats []) with (@nil (string * number F)) in Hd.
  assert (forall d0 : pydict F,
    <[fresh (dom (<[fresh (dom (Numbers.float_heap h0)) := Numbers.floats (loop_dict self fs0)]>
                   (Numbers.float_heap h0))) :=
        dict_of_items (sorted_reverse (fun x => Numbers.magnitude x.2)
                         (Numbers.floats (loop_dict self fs0)))]>
      (<[fresh (dom (Numbers.float_heap h0)) := Numbers.floats (loop_dict self fs0)]>
         (Numbers.float_heap h0))
    = Numbers.float_heap (explanation_heap self fs0 h0).2
    /\ fresh (dom (<[fresh (dom (Numbers.float_heap h0)) := Numbers.floats (loop_dict self fs0)]>
                     (Numbers.float_heap h0)))
       = (explanation_heap self fs0 h0).1) as Hheap.
  { intros _. unfold explanation_heap. cbn [fst snd].
    rewrite sorted_reverse_floats, dict_of_items_floats, float_heap_fresh.
    rewrite <- !float_heap_insert, float_heap_fresh. done. }
  destruct (Hheap []) as [Hh He]. split_and!.
  - rewrite (run_number_calculate_score self _ l _ Hl), Hs.
    by rewrite (run_calculate_score self h0 l fs0 Hl0).
  - rewrite (run_number_generate_explanation self _ l _ _ Hl Hd).
    rewrite (run_generate_explanation self h0 l fs0 Hl0). cbn [fst snd].
    by rewrite Hh, He.
  - destruct (decide (missing_features fs0 = ∅)) as [Hm|Hm].
    + rewrite (run_number_predict self now _ l _ _ _ Hl
                 ltac:(by rewrite missing_features_floats) Hs Hd).
      rewrite (run_predict self now h0 l fs0 Hl0 Hm). cbn [fst snd].
      by rewrite Hh, He.
    + rewrite (run_number_predict_missing self now _ l _ Hl
                 ltac:(by rewrite missing_features_floats)).
      rewrite (run_predict_missing self now h0 l fs0 Hl0 Hm). cbn [fst snd].
      by rewrite missing_features_floats.
Qed.
End NumbersFacts.

(** * The sort, given an order on the keys *)

Section Sorting.
Context {F : Type} {AF : Arith F} {A : Type} (key : A -> F).
Local Open Scope py_scope.
Implicit Types (x y a b : A) (xs ys : list A).

Lemma before_cons z xs a b :
  before (z :: xs) a b <-> (a = z /\ b ∈ xs) \/ before xs a b.
Proof.
  split.
  - intros (i & j & Hij & Hi & Hj). destruct j as [|j]; [lia|].
    destruct i as [|i]; simpl in *.
    + left. split; [congruence|]. by eapply list_elem_of_lookup_2.
    + right. exists i, j. split_and!; [lia|done..].
  - intros [[-> [j Hj]%list_elem_of_lookup_1]|(i & j & Hij & Hi & Hj)].
    + exists 0, (S j). split_and!; [lia|done..].
    + exists (S i), (S j). split_and!; [lia|done..].
Qed.

Lemma before_nil a b : ~ before (@nil A) a b.
Proof. by intros (i & j & _ & Hi & _). Qed.

Lemma before_sublist xs ys a b : xs `sublist_of` ys -> before xs a b -> before ys a b.
Proof.
  induction 1 as [|z xs ys Hsub IH|z xs ys Hsub IH]; [done| |].
  - rewrite !before_cons. intros [[-> Hb]|Hab]; [left|right; auto].
    split; [done|]. by eapply sublist_subseteq.
  - rewrite before_cons. auto.
Qed.

(** Where a pair of the output of one insertion comes from *)
Lemma insert_desc_before x ys a b :
  before (insert_desc key x ys) a b ->
  before (x :: ys) a b \/ (b = x /\ a ∈ ys /\ (key x <? key a) = true).
Proof.
  induction ys as [|y ys IH]; simpl; [by left|].
  destruct (key x <? key y) eqn:Hxy; [|by left].
  rewrite before_cons. intros [[-> Hb]|Hab].
  - rewrite insert_desc_perm, elem_of_cons in Hb. destruct Hb as [->|Hb].
    + right. split_and!; [done|left|done].
    + left. rewrite !before_cons. right. by left.
  - destruct (IH Hab) as [Hab'|(-> & Ha & Hlt)].
    + left. rewrite !before_cons in *. destruct Hab' as [[-> Hb]|Hab'].
      * left. split; [done|by right].
      * right. by right.
    + right. split_and!; [done|by right|done].
Qed.

(** Stability: a pair is out of its original order only when the first has
    the strictly greater key. *)
Lemma sorted_reverse_before xs a b :
  before (sorted_reverse key xs) a b ->
  before xs a b \/ (key b <? key a) = true.
Proof.
  revert a b. induction xs as [|x xs IH]; intros a b; simpl.
  - by intros ?%before_nil.
  - intros [Hab|(-> & _ & Hlt)]%insert_desc_before; [|by right].
    rewrite before_cons in Hab. destruct Hab as [[-> Hb]|Hab].
    + left. rewrite before_cons. left. split; [done|].
      by rewrite sorted_reverse_perm in Hb.
    + destruct (IH _ _ Hab) as [Hab'|Hlt]; [|by right].
      left. rewrite before_cons. by right.
Qed.

(** Order: when [<] on the keys is asymmetric and negatively transitive (a
    strict weak order), no entry has a smaller key than a later one. *)
Section Ordered.
Hypothesis flt_asym : forall u v : F, (u <? v) = true -> (v <? u) = false.
Hypothesis flt_negtrans :
  forall u v w : F, (u <? v) = false -> (v <? w) = false -> (u <? w) = false.

Lemma insert_desc_sorted x ys :
  (forall a b, before ys a b -> (key a <? key b) = false) ->
  forall a b, before (insert_desc key x ys) a b -> (key a <? key b) = false.
Proof.
  induction ys as [|y ys IH]; intros Hys a b; simpl.
  - rewrite before_cons. intros [[_ []%elem_of_nil]|[]%before_nil].
  - destruct (key x <? key y) eqn:Hxy.
    + rewrite before_cons. intros [[-> Hb]|Hab].
      * rewrite insert_desc_perm, elem_of_cons in Hb. destruct Hb as [->|Hb].
        -- by apply flt_asym.
        -- apply Hys. rewrite before_cons. by left.
      * apply IH; [|done]. intros a' b' Hab'. apply Hys.
        rewrite before_cons. by right.
    + rewrite before_cons. intros [[-> Hb]|Hab]; [|by apply Hys].
      apply elem_of_cons in Hb as [->|Hb]; [done|].
      apply (flt_negtrans _ (key y)); [done|].
      apply Hys. rewrite before_cons. by left.
Qed.

Lemma sorted_reverse_sorted xs a b :
  before (sorted_reverse key xs) a b -> (key a <? key b) = false.
Proof.
  revert a b. induction xs as [|x xs IH]; simpl.
  - by intros a b ?%before_nil.
  - by apply insert_desc_sorted.
Qed.
End Ordered.
End Sorting.

Lemma before_fmap {A B} (f : A -> B) (xs : list A) a b :
  before xs a b -> before (f <$> xs) (f a) (f b).
Proof.
  intros (i & j & Hij & Hi & Hj). exists i, j.
  rewrite !list_lookup_fmap, Hi, Hj. done.
Qed.

(** * Properties of the exact arithmetic *)

Module ExactFacts.
Import Exact.
Local Open Scope R_scope.

Lemma Rltb_true a b : Rltb a b = true <-> a < b.
Proof. unfold Rltb. destruct (Rlt_dec a b); split; (done || lra). Qed.

Lemma Rltb_false a b : Rltb a b = false <-> b <= a.
Proof. unfold Rltb. destruct (Rlt_dec a b); split; (done || lra). Qed.

Lemma Rleb_true a b : Rleb a b = true <-> a <= b.
Proof. unfold Rleb. destruct (Rle_dec a b); split; (done || lra). Qed.

Lemma Rleb_false a b : Rleb a b = false <-> b < a.
Proof. unfold Rleb. destruct (Rle_dec a b); split; (done || lra). Qed.

Lemma lit_exact n d : lit n d = IZR n / IZR d.
Proof. done. Qed.

Lemma accumulate_Rsum (cs : list (string * R)) a : accumulate cs a = a + Rsum cs.*2.
Proof.
  unfold accumulate. revert a. induction cs as [|c cs IH]; intros a.
  - simpl. lra.
  - cbn [fold_left]. rewrite IH, fmap_cons.
    change (Rsum (c.2 :: cs.*2)) with (c.2 + Rsum cs.*2).
    change (fadd a c.2) with (a + c.2). lra.
Qed.

Lemma linear_sum_Rsum (self : model R) fs :
  linear_sum self fs = intercept self + Rsum (contributions self fs).*2.
Proof. apply accumulate_Rsum. Qed.

Lemma logistic_exact s : logistic s = 1 / (1 + exp (-2 * s)).
Proof. unfold logistic. simpl. do 3 f_equal. lra. Qed.

Lemma logistic_range s : 0 < 1 / (1 + exp (-2 * s)) < 1.
Proof.
  pose proof (exp_pos (-2 * s)) as He. split.
  - apply Rdiv_lt_0_compat; lra.
  - apply (Rmult_lt_reg_r (1 + exp (-2 * s))); [lra|]. field_simplify; lra.
Qed.

Lemma confidence_exact s : (decision_policy s).2 = Rmin (Rabs (s - 0.5) / 0.5) 1.
Proof.
  unfold decision_policy, py_min, THRESHOLD. rewrite lit_exact. simpl.
  replace (5 / 10) with 0.5 by lra.
  unfold Rmin. destruct (Rltb _ _) eqn:Hlt.
  - apply Rltb_true in Hlt. destruct (Rle_dec _ _); lra.
  - apply Rltb_false in Hlt. destruct (Rle_dec _ _); lra.
Qed.

Lemma decision_exact s :
  (decision_policy s).1 = if Rle_dec 0.5 s then "approved" else "denied".
Proof.
  unfold decision_policy, THRESHOLD. rewrite lit_exact. simpl.
  replace (5 / 10) with 0.5 by lra. unfold Rleb. by destruct (Rle_dec _ _).
Qed.

(** C5.  The decision is "approved" exactly from 0.5 upwards and "denied"
    below; the confidence is [min(|score - 0.5| / 0.5, 1)]: 0 at 0.5, and 1 at
    0 and at 1. *)
Theorem decision_policy_spec (s : R) :
  ((decision_policy s).1 = "approved" <-> s >= 0.5)
  /\ ((decision_policy s).1 = "denied" <-> s < 0.5)
  /\ (decision_policy s).2 = Rmin (Rabs (s - 0.5) / 0.5) 1
  /\ (s = 0.5 -> (decision_policy s).2 = 0)
  /\ (s = 0 \/ s = 1 -> (decision_policy s).2 = 1).
Proof.
  rewrite decision_exact, confidence_exact. split_and!.
  - destruct (Rle_dec 0.5 s); split; (done || lra).
  - destruct (Rle_dec 0.5 s); split; (done || lra).
  - done.
  - intros ->. replace (0.5 - 0.5) with 0 by lra. rewrite Rabs_R0.
    unfold Rmin. destruct (Rle_dec _ _); lra.
  - intros [-> | ->].
    + rewrite Rabs_left by lra. unfold Rmin. destruct (Rle_dec _ _); lra.
    + rewrite Rabs_pos_eq by lra. unfold Rmin. destruct (Rle_dec _ _); lra.
Qed.
(** C6.  The oversight gate takes the first rule that matches: a score in
    [[0.4, 0.6]] is reported as borderline whatever the confidence, also when
    the confidence is below 0.3 (as at a score of exactly 0.4 or 0.6); outside
    the band a confidence below 0.3 is reported as low confidence; otherwise
    no review is required and the reason is empty. *)
Theorem oversight_first_match (p : CreditPrediction R) :
  (0.4 <= score p <= 0.6 ->
   requires_review p = (true, "Borderline score requires human review"))
  /\ (~ 0.4 <= score p <= 0.6 -> confidence p < 0.3 ->
      requires_review p = (true, "Low confidence prediction"))
  /\ (~ 0.4 <= score p <= 0.6 -> ~ confidence p < 0.3 ->
      requires_review p = (false, ""))
  /\ (score p = 0.4 \/ score p = 0.6 -> confidence p < 0.3 ->
      requires_review p = (true, "Borderline score requires human review")).
Proof.
  assert (0.4 <= score p <= 0.6 ->
          requires_review p = (true, "Borderline score requires human review"))
    as Hband.
  { intros [Hlo Hhi]. unfold requires_review, REVIEW_THRESHOLD_LOW, REVIEW_THRESHOLD_HIGH.
    rewrite !lit_exact. simpl.
    rewrite (proj2 (Rleb_true _ _)), (proj2 (Rleb_true _ _)) by lra. done. }
  assert (~ 0.4 <= score p <= 0.6 ->
          requires_review p
          = if Rlt_dec (confidence p) 0.3 then (true, "Low confidence prediction")
            else (false, "")) as Hout.
  { intros Hband'. unfold requires_review, REVIEW_THRESHOLD_LOW, REVIEW_THRESHOLD_HIGH.
    rewrite !lit_exact. simpl.
    replace (Rleb (4 / 10) (score p) && Rleb (score p) (6 / 10)) with false.
    - unfold Rltb.
      destruct (Rlt_dec (confidence p) (3 / 10)), (Rlt_dec (confidence p) 0.3);
        (done || lra).
    - symmetry. apply andb_false_iff.
      destruct (Rle_dec 0.4 (score p)); [right|left; apply Rleb_false; lra].
      apply Rleb_false. lra. }
  split_and!.
  - done.
  - intros Hn Hc. rewrite (Hout Hn). by destruct (Rlt_dec _ _).
  - intros Hn Hc. rewrite (Hout Hn). by destruct (Rlt_dec _ _).
  - intros Hs _. apply Hband. lra.
Qed.

Lemma Rltb_asym u v : Rltb u v = true -> Rltb v u = false.
Proof. rewrite Rltb_true, Rltb_false. lra. Qed.

Lemma Rltb_negtrans u v w : Rltb u v = false -> Rltb v w = false -> Rltb u w = false.
Proof. rewrite !Rltb_false. lra. Qed.

(** C7.  The dictionary [_generate_explanation] returns holds the rounded
    contributions, each once, in descending order of absolute value; entries
    of equal absolute value keep the order their features have in the weight
    table. *)
Theorem explanation_sorted_stable (self : model R) (h : heap R) l fs :
  NoDup (weights self).*1 -> h !! l = Some fs ->
  exists e h' out,
    _generate_explanation self l h = (Return e, h')
    /\ h' !! e = Some out
    /\ out ≡ₚ rounded (contributions self fs)
    /\ (forall i x y, out !! i = Some x -> out !! S i = Some y ->
        Rabs x.2 >= Rabs y.2)
    /\ (forall x y, before out x y -> Rabs x.2 = Rabs y.2 ->
        before (weights self).*1 x.1 y.1).
Proof.
  intros Hnd Hl.
  destruct (run_generate_explanation_sorted self h l fs Hnd Hl) as (e & h' & Hrun & He).
  exists e, h', (sorted_reverse (fun x => Rabs x.2) (rounded (contributions self fs))).
  split_and!; [done..|apply sorted_reverse_perm| |].
  - intros i x y Hx Hy.
    assert (Rltb (Rabs x.2) (Rabs y.2) = false) as Hxy%Rltb_false; [|lra].
    apply (sorted_reverse_sorted (AF:=arith) (fun x => Rabs x.2) Rltb_asym Rltb_negtrans
             (rounded (contributions self fs))).
    exists i, (S i). split_and!; [lia|done..].
  - intros x y Hxy Heq.
    apply (sorted_reverse_before (AF:=arith)) in Hxy as [Hxy|Hlt%Rltb_true]; [|simpl in Hlt; lra].
    apply (before_fmap fst) in Hxy. rewrite rounded_keys in Hxy.
    eapply before_sublist; [apply contributions_keys_sublist|done].
Qed.

End ExactFacts.

(** * Properties of binary64 *)

Module Binary64Facts.
Import Binary64 Samples PrimFloat.
Local Open Scope float_scope.
#[local] Set Warnings "-inexact-float".

(** C2 (as amended).  The normalizer divides by 100 exactly when the value is
    greater than 1, the comparison being the signed one, and otherwise returns
    the value as it is; 1.0 itself is returned undivided. *)
Theorem normalized_signed_threshold (h : heap float) l fs k (v : float) :
  h !! l = Some fs -> dict_get k fs = Some v ->
  normalized l k h = (Return (if 1 <? v then v / 100 else v), h)
  /\ (v = 1 -> normalized l k h = (Return 1, h)).
Proof.
  intros Hl Hk. rewrite (run_normalized h l fs k v Hl Hk). split; [done|].
  by intros ->.
Qed.

Lemma normalized_signed_threshold_witness :
  normalized 0%nat "debt_to_income" (heap_with sample_features)
  = (Return (if 1 <? 35 then 35 / 100 else 35), heap_with sample_features).
Proof.
  apply (normalized_signed_threshold (heap_with sample_features) 0%nat
           sample_features "debt_to_income" 35); reflexivity.
Defined.

(** C2 as stated fails: -50 has a magnitude above 1, so that the normalizer
    of the specification divides it, and the code returns it undivided. *)
Lemma normalized_magnitude_counterexample :
  (1 <? abs (-50)) = true
  /\ spec_normalize (-50) = -0.5
  /\ normalized 0%nat "debt_to_income" (heap_with [("debt_to_income", -50)])
     = (Return (-50), heap_with [("debt_to_income", -50)])
  /\ (-50 =? -0.5) = false.
Proof. by vm_compute. Qed.

(** C10 as stated fails: a request with all 8 features whose score is exactly
    1.0, not below it, and whose confidence is exactly 1.0, not below it. *)
Lemma score_saturates :
  has_required saturating_features = true
  /\ _calculate_score _create_demo_model 0%nat (heap_with saturating_features)
     = (Return 1, heap_with saturating_features)
  /\ (1 <? 1) = false
  /\ (decision_policy 1).2 = 1
  /\ ((decision_policy 1).2 <? 1) = false.
Proof. by vm_compute. Qed.

(** The saturation does not hang on the last digits of [numpy.exp]: the
    neighbouring floats of the exponential, and its double, give 1.0 too. *)
Lemma saturation_is_robust :
  let s := linear_sum _create_demo_model saturating_features in
  let y := np_exp (- s * 2) in
  (30 <? s) = true
  /\ 1 / (1 + next_down y) = 1
  /\ 1 / (1 + next_up y) = 1
  /\ 1 / (1 + 2 * y) = 1.
Proof. by vm_compute. Qed.

(** The boundaries of the decision policy and of the oversight gate, as the
    interpreter computes them *)
Lemma decision_policy_boundaries :
  decision_policy 0.5 = ("approved", 0)
  /\ decision_policy 0 = ("denied", 1)
  /\ decision_policy 1 = ("approved", 1).
Proof. by vm_compute. Qed.

Lemma oversight_band_ends (e : loc) :
  let p s := {| score := s; decision := (decision_policy s).1;
                confidence := np_round4 (decision_policy s).2; explanation := e;
                model_version := VERSION; timestamp := "" |} in
  (confidence (p 0.4) <? 0.3) = true
  /\ requires_review (p 0.4) = (true, "Borderline score requires human review")
  /\ (confidence (p 0.6) <? 0.3) = true
  /\ requires_review (p 0.6) = (true, "Borderline score requires human review").
Proof. by vm_compute. Qed.

(** The request of the demo: score, decision, confidence and ranked
    explanation *)
Lemma demo_prediction :
  exists p h',
    predict _create_demo_model "2024-01-01T00:00:00" 0%nat (heap_with sample_features)
    = (Return p, h')
    /\ score p = 0.8288 /\ decision p = "approved" /\ confidence p = 0.6576
    /\ h' !! explanation p
       = Some [ ("payment_history_score", 0.255); ("income_stability", 0.16);
                ("debt_to_income", -0.1225); ("credit_utilization", -0.1125);
                ("account_age_months", 0.072); ("employment_length", 0.036);
                ("existing_accounts", 0.0025); ("inquiry_count_6mo", -0.002) ]
    /\ requires_review p = (false, "").
Proof. eexists _, _. split; [by vm_compute|]. by vm_compute. Qed.

(** Equal magnitudes: [inquiry_count_6mo] stays ahead of [employment_length],
    as in the weight table. *)
Lemma explanation_ties_keep_table_order :
  exists e h',
    _generate_explanation _create_demo_model 0%nat (heap_with tied_features)
    = (Return e, h')
    /\ h' !! e
       = Some [ ("payment_history_score", 0.255); ("income_stability", 0.16);
                ("debt_to_income", -0.1225); ("credit_utilization", -0.1125);
                ("account_age_months", 0.072); ("inquiry_count_6mo", -0.036);
                ("employment_length", 0.036); ("existing_accounts", 0.0025) ].
Proof. eexists _, _. split; by vm_compute. Qed.

Lemma sample_heap_lookup fs : heap_with fs !! 0%nat = Some fs.
Proof. apply lookup_singleton_eq. Qed.

Lemma logit_decomposition_witness :
  linear_score _create_demo_model 0%nat (heap_with sample_features)
  = (Return (accumulate (contributions _create_demo_model sample_features)
               (intercept _create_demo_model)),
     heap_with sample_features).
Proof.
  pose proof (logit_decomposition _create_demo_model (heap_with sample_features) 0%nat
                sample_features demo_weights_NoDup (sample_heap_lookup _)) as Hw.
  cbv zeta in Hw. exact (proj1 (proj2 (proj2 Hw))).
Defined.

(** Where the conversion of an [int] starts to fail: half an ulp above the
    largest float, the tie going to the even mantissa above it *)
Lemma float_of_int_boundary :
  float_of_int (F:=float) (2 ^ 1024 - 2 ^ 970 - 1) = Some 0x1.fffffffffffffp+1023
  /\ float_of_int (F:=float) (2 ^ 1024 - 2 ^ 970) = None
  /\ float_of_int (F:=float) (- (2 ^ 1024 - 2 ^ 970 - 1)) = Some (-0x1.fffffffffffffp+1023)
  /\ float_of_int (F:=float) (- (2 ^ 1024 - 2 ^ 970)) = None
  /\ float_of_int (F:=float) (10 ^ 400) = None.
Proof. by vm_compute. Qed.

Lemma number_heap_lookup fs : number_heap fs !! 0%nat = Some fs.
Proof. apply lookup_singleton_eq. Qed.

(** A request without two required features and with an [int] that scoring
    cannot convert: scoring alone raises [OverflowError], and [predict]
    reports the missing names, the heap untouched. *)
Lemma validation_fails_closed_witness :
  has_required overflowing_incomplete = false
  /\ elements (missing_features overflowing_incomplete)
     = [ "credit_utilization"; "income_stability" ]
  /\ Numbers._calculate_score _create_demo_model 0%nat (number_heap overflowing_incomplete)
     = (Raise OverflowError, number_heap overflowing_incomplete)
  /\ Numbers.predict _create_demo_model "" 0%nat (number_heap overflowing_incomplete)
     = (Raise (ValueError (missing_features overflowing_incomplete)),
        number_heap overflowing_incomplete).
Proof.
  split; [reflexivity|]. split; [vm_compute; reflexivity|].
  split; [vm_compute; reflexivity|].
  pose proof (validation_fails_closed _create_demo_model ""
                (number_heap overflowing_incomplete) 0%nat overflowing_incomplete
                (number_heap_lookup _)) as (_ & Hw & _).
  exact (proj2 (proj2 (Hw eq_refl))).
Defined.

Lemma scoring_deterministic_witness :
  (s1 ← _calculate_score _create_demo_model 0%nat;
   s2 ← _calculate_score _create_demo_model 0%nat; mret (s1, s2))
    (heap_with sample_features)
  = (Return (logistic (linear_sum _create_demo_model sample_features),
             logistic (linear_sum _create_demo_model sample_features)),
     heap_with sample_features)
  /\ _calculate_score _create_demo_model 7%nat {[ 7%nat := sample_features ]}
     = (Return (logistic (linear_sum _create_demo_model sample_features)),
        {[ 7%nat := sample_features ]})
  /\ _calculate_score _create_demo_model 0%nat
       (predict _create_demo_model "" 0%nat (heap_with sample_features)).2
     = (Return (logistic (linear_sum _create_demo_model sample_features)),
        (predict _create_demo_model "" 0%nat (heap_with sample_features)).2).
Proof.
  pose proof (scoring_deterministic _create_demo_model "" (heap_with sample_features)
                {[ 7%nat := sample_features ]} 0%nat 7%nat sample_features
                (sample_heap_lookup _) (lookup_singleton_eq _ _)) as Hw.
  cbv zeta in Hw. destruct Hw as (Hw1 & Hw2 & Hw3).
  split; [exact Hw1|]. split; [exact Hw2|].
  exact (Hw3 _ _ (surjective_pairing _)).
Defined.

(** What C8 excludes can be written in the monad of the pipeline: a scorer
    that looks beyond its FeatureSet (this one counts the objects of the
    heap) returns different values on two heaps holding the same
    FeatureSet. *)
Lemma heap_reading_scorer_differs :
  let scorer (features : loc) : M float float :=
    fun h => (Return (float_of_Z (Z.of_nat (size h))), h) in
  (scorer 0%nat (heap_with sample_features)).1 = Return 1
  /\ (scorer 0%nat (<[1%nat := []]> (heap_with sample_features))).1 = Return 2.
Proof. by vm_compute. Qed.

Lemma features_not_mutated_witness :
  (predict _create_demo_model "" 0%nat (heap_with sample_features)).2 !! 0%nat
  = Some sample_features
  /\ heap_with sample_features
     ⊆ (predict _create_demo_model "" 0%nat (heap_with sample_features)).2.
Proof.
  pose proof (features_not_mutated _create_demo_model "" (heap_with sample_features)
                0%nat sample_features (sample_heap_lookup _)) as (_ & _ & _ & Hw).
  apply (Hw (predict _create_demo_model "" 0%nat (heap_with sample_features)).1).
  apply surjective_pairing.
Defined.
End Binary64Facts.

Module ExactWitnesses.
Import Exact Samples ExactFacts.
Local Open Scope R_scope.

Lemma explanation_sorted_stable_witness :
  exists e h' out,
    _generate_explanation _create_demo_model 0%nat exact_heap = (Return e, h')
    /\ h' !! e = Some out
    /\ out ≡ₚ rounded (contributions _create_demo_model exact_features)
    /\ (forall i x y, out !! i = Some x -> out !! S i = Some y ->
        Rabs x.2 >= Rabs y.2)
    /\ (forall x y, before out x y -> Rabs x.2 = Rabs y.2 ->
        before (weights _create_demo_model).*1 x.1 y.1).
Proof.
  apply (explanation_sorted_stable _create_demo_model exact_heap 0%nat exact_features
           demo_weights_NoDup).
  reflexivity.
Defined.

End ExactWitnesses.

(** * Further properties, in every arithmetic *)

Section Pipeline.
Context {F : Type} {AF : Arith F}.
Local Open Scope py_scope.
Implicit Types (h : heap F) (fs : pydict F) (l : loc) (self : model F).

Lemma contributions_agree self fs fs' :
  (forall k, k ∈ (weights self).*1 -> dict_get k fs = dict_get k fs') ->
  contributions self fs = contributions self fs'.
Proof.
  unfold contributions. induction (weights self) as [|[k w] ws IH]; intros Hagree; [done|].
  cbn [omap list_omap]. rewrite (Hagree k) by left.
  rewrite <- IH; [done|]. intros k' Hk'. apply Hagree. by right.
Qed.

Lemma contributions_none self fs :
  (forall k, k ∈ (weights self).*1 -> dict_contains k fs = false) ->
  contributions self fs = [].
Proof.
  unfold contributions. induction (weights self) as [|[k w] ws IH]; intros Hnone; [done|].
  cbn [omap list_omap].
  destruct (dict_get k fs) as [v|] eqn:Hk.
  - apply dict_contains_Some in Hk. rewrite Hnone in Hk; [done|by left].
  - cbn. apply IH. intros k' Hk'. apply Hnone. by right.
Qed.

Lemma dict_get_elem_of {V} k (v : V) (d : list (string * V)) :
  NoDup d.*1 -> dict_get k d = Some v <-> (k, v) ∈ d.
Proof.
  induction d as [|[k' v'] d IH]; simpl; intros Hnd.
  - split; [done|]. by intros ?%elem_of_nil.
  - apply NoDup_cons in Hnd as [Hk' Hnd]. rewrite elem_of_cons. case_decide as Hk.
    + subst k'. split; [intros [= ->]; by left|].
      intros [[= ->]|Hin]; [done|]. destruct Hk'.
      apply list_elem_of_fmap. by exists (k, v).
    + rewrite (IH Hnd). split; [by right|]. by intros [[= ? ?]|?].
Qed.

Lemma dict_get_perm {V} k (d d' : list (string * V)) :
  NoDup d.*1 -> d ≡ₚ d' -> dict_get k d = dict_get k d'.
Proof.
  intros Hnd Hp.
  assert (NoDup d'.*1) as Hnd' by (by rewrite <- Hp).
  destruct (dict_get k d) as [v|] eqn:Hk.
  - symmetry. apply dict_get_elem_of; [done|]. rewrite <- Hp.
    by apply dict_get_elem_of.
  - destruct (dict_get k d') as [v'|] eqn:Hk'; [|done].
    apply dict_get_elem_of in Hk'; [|done]. rewrite <- Hp in Hk'.
    apply dict_get_elem_of in Hk'; [|done]. congruence.
Qed.

Lemma dict_get_rounded_contributions self fs k :
  dict_get k (rounded (contributions self fs))
  = w ← dict_get k (weights self); v ← dict_get k fs;
    Some (round4 (w * normalize v)).
Proof.
  unfold contributions, rounded.
  induction (weights self) as [|[k' w'] ws IH]; [done|].
  cbn [omap list_omap dict_get].
  destruct (dict_get k' fs) as [v|] eqn:Hk'.
  - cbn. case_decide as Hk; [|done]. subst k'. by rewrite Hk'.
  - cbn. rewrite IH. case_decide as Hk; [|done]. subst k'. rewrite Hk'. cbn.
    by destruct (dict_get k ws).
Qed.

Lemma explanation_heap_fresh self fs h :
  h !! (explanation_heap self fs h).1 = None.
Proof.
  unfold explanation_heap. cbn [fst].
  set (h1 := <[fresh (dom h) := loop_dict self fs]> h).
  assert (h ⊆ h1) as Hsub by apply insert_subseteq, not_elem_of_dom, is_fresh.
  destruct (h !! fresh (dom h1)) as [d|] eqn:Hd; [|done].
  apply (lookup_weaken _ _ _ _ Hd) in Hsub.
  apply elem_of_dom_2 in Hsub. by apply is_fresh in Hsub.
Qed.

(** X1.  The score and the explanation depend on the FeatureSet only through
    the values of the weighted features: two FeatureSets that agree on them
    (whatever their order and their other entries) get the same score and the
    same explanation. *)
Theorem weighted_features_decide self h h' l l' fs fs' :
  h !! l = Some fs -> h' !! l' = Some fs' ->
  (forall k, k ∈ (weights self).*1 -> dict_get k fs = dict_get k fs') ->
  exists s out,
    _calculate_score self l h = (Return s, h)
    /\ _calculate_score self l' h' = (Return s, h')
    /\ (exists e h1, _generate_explanation self l h = (Return e, h1)
                    /\ h1 !! e = Some out)
    /\ (exists e h1, _generate_explanation self l' h' = (Return e, h1)
                    /\ h1 !! e = Some out).
Proof.
  intros Hl Hl' Hagree. apply contributions_agree in Hagree.
  exists (logistic (linear_sum self fs)),
    (dict_of_items (sorted_reverse (fun x => fabs x.2) (loop_dict self fs))).
  split_and!.
  - by apply run_calculate_score.
  - rewrite (run_calculate_score self h' l' fs' Hl').
    unfold linear_sum. by rewrite Hagree.
  - eexists _, _. split; [by apply run_generate_explanation|].
    apply explanation_heap_lookup.
  - eexists _, _. split; [by apply run_generate_explanation|].
    rewrite explanation_heap_lookup. unfold loop_dict. by rewrite Hagree.
Qed.

(** X2.  Scoring and explanation do not validate: when the FeatureSet has
    none of the weighted features (the empty FeatureSet, say) neither raises;
    the score is the logistic of the intercept alone and the explanation is
    the empty dictionary. *)
Theorem unweighted_features_score_intercept self h l fs :
  h !! l = Some fs ->
  (forall k, k ∈ (weights self).*1 -> dict_contains k fs = false) ->
  _calculate_score self l h
  = (Return (#1 / (#1 + np_exp (- intercept self * #2))), h)
  /\ exists e h', _generate_explanation self l h = (Return e, h')
                 /\ h' !! e = Some [].
Proof.
  intros Hl Hnone. apply contributions_none in Hnone. split.
  - rewrite (run_calculate_score self h l fs Hl).
    unfold linear_sum. by rewrite Hnone.
  - eexists _, _. split; [by apply run_generate_explanation|].
    rewrite explanation_heap_lookup. unfold loop_dict. by rewrite Hnone.
Qed.

(** X4.  Reading the explanation: for every feature [k],
    [explanation[k]] is [round(weight * normalized, 4)] when [k] has a weight
    and is in the FeatureSet, and [k] is not a key of the explanation
    otherwise; no key occurs twice. *)
Theorem explanation_lookup self h l fs :
  NoDup (weights self).*1 -> h !! l = Some fs ->
  exists e h' out,
    _generate_explanation self l h = (Return e, h')
    /\ h' !! e = Some out
    /\ NoDup out.*1
    /\ forall k,
        dict_get k out
        = w ← dict_get k (weights self); v ← dict_get k fs;
          Some (round4 (w * (if v >? #1 then v / #100 else v))).
Proof.
  intros Hnd Hl.
  destruct (run_generate_explanation_sorted self h l fs Hnd Hl) as (e & h' & Hrun & He).
  assert (NoDup (rounded (contributions self fs)).*1) as Hnd'.
  { rewrite rounded_keys. by apply contributions_NoDup. }
  eexists e, h', _. split_and!; [done..| |].
  - by rewrite sorted_reverse_perm.
  - intros k. rewrite <- dict_get_rounded_contributions.
    symmetry. apply dict_get_perm; [done|]. by rewrite sorted_reverse_perm.
Qed.

(** X5.  Every call of [predict] returns an explanation dictionary of its
    own: an object that did not exist before the call, distinct from the
    FeatureSet and from the explanation of an earlier call, which a later
    call leaves as it is.  Two calls on the same FeatureSet give equal
    contents, score, decision and confidence. *)
Theorem explanation_objects_are_fresh self now now' h l fs :
  h !! l = Some fs -> has_required fs = true ->
  exists p1 h1 p2 h2 out,
    predict self now l h = (Return p1, h1)
    /\ predict self now' l h1 = (Return p2, h2)
    /\ h !! explanation p1 = None /\ explanation p1 ≠ l
    /\ h1 !! explanation p2 = None /\ explanation p2 ≠ explanation p1
    /\ h1 !! explanation p1 = Some out
    /\ h2 !! explanation p1 = Some out /\ h2 !! explanation p2 = Some out
    /\ score p2 = score p1 /\ decision p2 = decision p1
    /\ confidence p2 = confidence p1.
Proof.
  intros Hl Hm%has_required_missing.
  set (h1 := (explanation_heap self fs h).2).
  assert (h1 !! l = Some fs) as Hl1.
  { eapply lookup_weaken; [done|apply explanation_heap_frame]. }
  eexists _, h1, _, _, _. split_and!.
  - by apply run_predict.
  - by apply run_predict.
  - apply explanation_heap_fresh.
  - cbn [explanation]. intros Heq.
    pose proof (explanation_heap_fresh self fs h) as Hf. rewrite Heq in Hf. congruence.
  - apply explanation_heap_fresh.
  - cbn [explanation]. intros Heq.
    pose proof (explanation_heap_fresh self fs h1) as Hf. rewrite Heq in Hf.
    unfold h1 in Hf. by rewrite explanation_heap_lookup in Hf.
  - apply explanation_heap_lookup.
  - cbn [explanation]. eapply lookup_weaken; [apply explanation_heap_lookup|].
    apply explanation_heap_frame.
  - cbn [explanation]. apply explanation_heap_lookup.
  - done.
  - done.
  - done.
Qed.

(** X6.  The verdict of the oversight gate is well formed: the reason is
    empty exactly when no review is required, and otherwise it is one of the
    two messages. *)
Theorem review_reason_well_formed (p : CreditPrediction F) :
  ((requires_review p).1 = false <-> (requires_review p).2 = "")
  /\ ((requires_review p).1 = true ->
      (requires_review p).2 = "Borderline score requires human review"
      \/ (requires_review p).2 = "Low confidence prediction").
Proof.
  unfold requires_review.
  destruct (_ && _); [|destruct (_ <? _)]; cbn.
  - split; [by split|]. by left.
  - split; [by split|]. by right.
  - by split.
Qed.
End Pipeline.

(** * Further properties, in exact arithmetic *)

Module ExactPipeline.
Import Exact Samples ExactFacts.
Local Open Scope R_scope.

(** ** Rounding to the nearest integer, ties to even *)

Lemma nearest_even_bounds x : x - 1 / 2 <= IZR (nearest_even x) <= x + 1 / 2.
Proof.
  unfold nearest_even, frac_part. pose proof (base_Int_part x) as [Hlo Hhi].
  destruct (Rlt_dec _ _); [lra|].
  destruct (Rlt_dec _ _); [rewrite plus_IZR; lra|].
  destruct (Z.even _); [lra|rewrite plus_IZR; lra].
Qed.

Lemma nearest_even_ge n x : IZR n <= x -> (n <= nearest_even x)%Z.
Proof.
  intros Hx. pose proof (nearest_even_bounds x) as [Hlo _].
  assert (n - 1 < nearest_even x)%Z; [|lia].
  apply lt_IZR. rewrite minus_IZR. lra.
Qed.

Lemma nearest_even_le n x : x <= IZR n -> (nearest_even x <= n)%Z.
Proof.
  intros Hx. pose proof (nearest_even_bounds x) as [_ Hhi].
  assert (nearest_even x < n + 1)%Z; [|lia].
  apply lt_IZR. rewrite plus_IZR. lra.
Qed.

Lemma nearest_even_lt n x : x < IZR n - 1 / 2 -> (nearest_even x < n)%Z.
Proof.
  intros Hx. pose proof (nearest_even_bounds x) as [_ Hhi]. apply lt_IZR. lra.
Qed.

Lemma nearest_even_gt n x : IZR n + 1 / 2 < x -> (n < nearest_even x)%Z.
Proof.
  intros Hx. pose proof (nearest_even_bounds x) as [Hlo _]. apply lt_IZR. lra.
Qed.

Lemma nearest_even_tie_up n x :
  Z.even n = true -> IZR n - 1 / 2 <= x -> (n <= nearest_even x)%Z.
Proof.
  intros Hn [Hx|Hx]%Rle_lt_or_eq_dec.
  - pose proof (nearest_even_bounds x) as [Hlo _].
    assert (n - 1 < nearest_even x)%Z; [|lia].
    apply lt_IZR. rewrite minus_IZR. lra.
  - destruct (Int_part_frac_part_spec x (n - 1) (1 / 2)) as [Hi Hf]; [lra| |].
    { rewrite minus_IZR. lra. }
    unfold nearest_even. rewrite <- Hi, <- Hf.
    destruct (Rlt_dec _ _); [lra|].
    replace (Z.even (n - 1)) with false; [lia|].
    rewrite Z.even_sub, Hn. done.
Qed.

Lemma nearest_even_tie_down n x :
  Z.even n = true -> x <= IZR n + 1 / 2 -> (nearest_even x <= n)%Z.
Proof.
  intros Hn [Hx|Hx]%Rle_lt_or_eq_dec.
  - pose proof (nearest_even_bounds x) as [_ Hhi].
    assert (nearest_even x < n + 1)%Z; [|lia].
    apply lt_IZR. rewrite plus_IZR. lra.
  - destruct (Int_part_frac_part_spec x n (1 / 2)) as [Hi Hf]; [lra|lra|].
    unfold nearest_even. rewrite <- Hi, <- Hf.
    destruct (Rlt_dec _ _); [lra|].
    rewrite Hn. lia.
Qed.

(** [round(x, 4)] against a bound [n / 10^4] *)
Lemma round_4_ge n x : IZR n / 10000 <= x -> IZR n / 10000 <= round_4 x.
Proof.
  intros Hx. unfold round_4.
  assert (IZR n <= IZR (nearest_even (x * 10000))); [|lra].
  apply IZR_le, nearest_even_ge. lra.
Qed.

Lemma round_4_le n x : x <= IZR n / 10000 -> round_4 x <= IZR n / 10000.
Proof.
  intros Hx. unfold round_4.
  assert (IZR (nearest_even (x * 10000)) <= IZR n); [|lra].
  apply IZR_le, nearest_even_le. lra.
Qed.

Lemma round_4_lt_iff n x :
  Z.even n = true -> round_4 x < IZR n / 10000 <-> x < (IZR n - 1 / 2) / 10000.
Proof.
  intros Hn. unfold round_4. split.
  - intros Hr. destruct (Rlt_dec x ((IZR n - 1 / 2) / 10000)) as [|Hx]; [done|].
    assert (IZR n <= IZR (nearest_even (x * 10000))); [|lra].
    apply IZR_le, nearest_even_tie_up; [done|lra].
  - intros Hx.
    assert (IZR (nearest_even (x * 10000)) < IZR n); [|lra].
    apply IZR_lt, nearest_even_lt. lra.
Qed.

Lemma round_4_ge_iff n x :
  Z.even n = true -> IZR n / 10000 <= round_4 x <-> (IZR n - 1 / 2) / 10000 <= x.
Proof.
  intros Hn. pose proof (round_4_lt_iff n x Hn) as Hiff.
  split; intros Hx.
  - destruct (Rlt_dec x ((IZR n - 1 / 2) / 10000)) as [Hlt|]; [|lra].
    apply Hiff in Hlt. lra.
  - destruct (Rlt_dec (round_4 x) (IZR n / 10000)) as [Hlt|]; [|lra].
    apply Hiff in Hlt. lra.
Qed.

Lemma round_4_le_iff n x :
  Z.even n = true -> round_4 x <= IZR n / 10000 <-> x <= (IZR n + 1 / 2) / 10000.
Proof.
  intros Hn. unfold round_4. split.
  - intros Hr. destruct (Rle_dec x ((IZR n + 1 / 2) / 10000)) as [|Hx]; [done|].
    assert (IZR n < IZR (nearest_even (x * 10000))); [|lra].
    apply IZR_lt, nearest_even_gt. lra.
  - intros Hx.
    assert (IZR (nearest_even (x * 10000)) <= IZR n); [|lra].
    apply IZR_le, nearest_even_tie_down; [done|lra].
Qed.

(** ** The prediction, in terms of the unrounded score *)

Lemma run_predict_exact (self : model R) now (h : heap R) l fs :
  h !! l = Some fs -> has_required fs = true ->
  let s := 1 / (1 + exp (-2 * linear_sum self fs)) in
  exists p h',
    predict self now l h = (Return p, h')
    /\ score p = round_4 s
    /\ decision p = (if Rle_dec 0.5 s then "approved" else "denied")
    /\ confidence p = round_4 (Rmin (Rabs (s - 0.5) / 0.5) 1).
Proof.
  intros Hl Hm%has_required_missing s. eexists _, _.
  split; [by apply run_predict|]. cbn [score decision confidence].
  rewrite decision_exact, confidence_exact, logistic_exact. done.
Qed.
Lemma requires_review_exact (p : CreditPrediction R) :
  requires_review p
  = if Rle_dec 0.4 (score p) then
      if Rle_dec (score p) 0.6 then (true, "Borderline score requires human review")
      else if Rlt_dec (confidence p) 0.3 then (true, "Low confidence prediction")
           else (false, "")
    else if Rlt_dec (confidence p) 0.3 then (true, "Low confidence prediction")
         else (false, "").
Proof.
  unfold requires_review, REVIEW_THRESHOLD_LOW, REVIEW_THRESHOLD_HIGH.
  rewrite !lit_exact. simpl. unfold Rleb, Rltb.
  repeat match goal with
         | |- context [Rle_dec ?a ?b] => destruct (Rle_dec a b)
         | |- context [Rlt_dec ?a ?b] => destruct (Rlt_dec a b)
         end; simpl; (done || lra).
Qed.

Lemma confidence_in_range x : 0 <= (decision_policy x).2 <= 1.
Proof.
  rewrite confidence_exact. pose proof (Rabs_pos (x - 0.5)).
  unfold Rmin. destruct (Rle_dec _ _); lra.
Qed.

(** X7.  What a prediction reports is in range: the score and the confidence,
    as rounded, lie in [[0, 1]], and the decision is one of the two words.
    The confidence of the policy is in [[0, 1]] for every score, also one
    outside [[0, 1]]. *)
Theorem prediction_in_range (self : model R) now (h : heap R) l fs :
  h !! l = Some fs -> has_required fs = true ->
  (exists p h',
      predict self now l h = (Return p, h')
      /\ 0 <= score p <= 1
      /\ 0 <= confidence p <= 1
      /\ (decision p = "approved" \/ decision p = "denied"))
  /\ forall x, 0 <= (decision_policy x).2 <= 1.
Proof.
  intros Hl Hreq. split; [|apply confidence_in_range].
  destruct (run_predict_exact self now h l fs Hl Hreq) as (p & h' & Hrun & Hp & Hd & Hc').
  exists p, h'. rewrite Hp, Hd, Hc'.
  pose proof (logistic_range (linear_sum self fs)) as Hs.
  set (s := 1 / (1 + exp (-2 * linear_sum self fs))) in *.
  pose proof (confidence_in_range s) as Hc. rewrite confidence_exact in Hc.
  split_and!; [done| | | | |].
  - pose proof (round_4_ge 0 s). lra.
  - pose proof (round_4_le 10000 s). lra.
  - pose proof (round_4_ge 0 (Rmin (Rabs (s - 0.5) / 0.5) 1)). lra.
  - pose proof (round_4_le 10000 (Rmin (Rabs (s - 0.5) / 0.5) 1)). lra.
  - destruct (Rle_dec _ _); auto.
Qed.

(** X8.  The decision is taken on the unrounded score and the score is
    reported rounded, yet the two never contradict each other: an approved
    prediction reports a score of at least 0.5 and a denied one a score of at
    most 0.5, so that a reported score above 0.5 is approved and one below
    0.5 is denied. *)
Theorem decision_agrees_with_reported_score (self : model R) now (h : heap R) l fs :
  h !! l = Some fs -> has_required fs = true ->
  exists p h',
    predict self now l h = (Return p, h')
    /\ (decision p = "approved" -> 0.5 <= score p)
    /\ (decision p = "denied" -> score p <= 0.5)
    /\ (0.5 < score p -> decision p = "approved")
    /\ (score p < 0.5 -> decision p = "denied").
Proof.
  intros Hl Hreq.
  destruct (run_predict_exact self now h l fs Hl Hreq) as (p & h' & Hrun & Hp & Hd & _).
  exists p, h'. rewrite Hp, Hd. set (s := 1 / (1 + exp (-2 * linear_sum self fs))).
  pose proof (round_4_ge 5000 s) as Hge. pose proof (round_4_le 5000 s) as Hle.
  split; [done|]. destruct (Rle_dec 0.5 s); split_and!; intros; (done || lra).
Qed.

(** X9.  Which predictions go to review, in terms of the unrounded score [s]:
    review is required exactly when [|s - 0.5| < 0.149975]; the reason is the
    borderline one exactly for [0.39995 <= s <= 0.60005], and low confidence
    in the two strips left between.  Roundings included, an automated
    decision needs a score at least 0.149975 away from the threshold. *)
Theorem review_in_terms_of_score (self : model R) now (h : heap R) l fs :
  h !! l = Some fs -> has_required fs = true ->
  let s := 1 / (1 + exp (-2 * linear_sum self fs)) in
  exists p h',
    predict self now l h = (Return p, h')
    /\ ((requires_review p).1 = true <-> Rabs (s - 0.5) < 0.149975)
    /\ ((requires_review p).2 = "Borderline score requires human review"
        <-> 0.39995 <= s <= 0.60005)
    /\ ((requires_review p).2 = "Low confidence prediction"
        <-> 0.350025 < s < 0.39995 \/ 0.60005 < s < 0.649975).
Proof.
  intros Hl Hreq s.
  destruct (run_predict_exact self now h l fs Hl Hreq) as (p & h' & Hrun & Hs & _ & Hc).
  fold s in Hs, Hc. exists p, h'. split; [done|].
  rewrite requires_review_exact, Hs, Hc.
  pose proof (round_4_ge_iff 4000 s eq_refl) as [Hlo1 Hlo2].
  pose proof (round_4_le_iff 6000 s eq_refl) as [Hhi1 Hhi2].
  pose proof (round_4_lt_iff 3000 (Rmin (Rabs (s - 0.5) / 0.5) 1) eq_refl) as [Hc1 Hc2].
  assert (Rmin (Rabs (s - 0.5) / 0.5) 1 < (3000 - 1 / 2) / 10000
          <-> Rabs (s - 0.5) < 0.149975) as [Hm1 Hm2].
  { unfold Rmin. destruct (Rle_dec _ _); split; lra. }
  assert (Rabs (s - 0.5) < 0.149975 <-> 0.350025 < s < 0.649975) as [Ha1 Ha2].
  { unfold Rabs. destruct (Rcase_abs _); split; lra. }
  destruct (Rle_dec 0.4 (round_4 s)) as [H4|H4];
    [destruct (Rle_dec (round_4 s) 0.6) as [H6|H6]|];
    try destruct (Rlt_dec _ 0.3) as [H3|H3]; cbn [fst snd].
  all: assert (0.4 = 4000 / 10000) as E4 by lra.
  all: assert (0.6 = 6000 / 10000) as E6 by lra.
  all: assert (0.3 = 3000 / 10000) as E3 by lra.
  all: rewrite ?E4, ?E6, ?E3 in *.
  all: try (apply Hlo1 in H4). all: try (apply Hhi1 in H6). all: try (apply Hc1, Hm1, Ha1 in H3).
  all: split_and!; split; intros; try done; try lra.
  all: try (exfalso; apply H4, Hlo2; lra).
  all: try (exfalso; apply H6, Hhi2; lra).
  all: try (exfalso; apply H3, Hc2, Hm2, Ha2; lra).
  all: try (apply Ha2; lra).
Qed.

(** X10.  The normalizer lands in [[0, 1]] exactly for raw values between 0
    and 100: a value above 100 stays above 1, and a negative value stays
    negative. *)
Theorem normalized_in_unit_range (h : heap R) l fs k v :
  h !! l = Some fs -> dict_get k fs = Some v ->
  exists n, normalized l k h = (Return n, h) /\ (0 <= n <= 1 <-> 0 <= v <= 100).
Proof.
  intros Hl Hk. exists (normalize v).
  split; [by eapply run_normalized|].
  unfold normalize. simpl. unfold Rltb. destruct (Rlt_dec 1 v); split; lra.
Qed.
(** ** How far the score can go *)

Lemma normalize_unit v : 0 <= v <= 100 -> 0 <= normalize v <= 1.
Proof.
  intros Hv. unfold normalize. simpl. unfold Rltb. destruct (Rlt_dec 1 v); lra.
Qed.

Lemma contributions_range (self : model R) fs :
  (forall k v, k ∈ (weights self).*1 -> dict_get k fs = Some v -> 0 <= v <= 100) ->
  Rsum ((fun kw => Rmin kw.2 0) <$> weights self)
  <= Rsum (contributions self fs).*2
  <= Rsum ((fun kw => Rmax kw.2 0) <$> weights self).
Proof.
  unfold contributions. induction (weights self) as [|[k w] ws IH]; intros Hin.
  - simpl. lra.
  - assert (Rsum ((fun kw => Rmin kw.2 0) <$> ws)
            <= Rsum (omap (fun '(feature, weight) =>
                             v ← dict_get feature fs;
                             Some (feature, (weight * normalize v)%py)) ws).*2
            <= Rsum ((fun kw => Rmax kw.2 0) <$> ws)) as IH'.
    { apply IH. intros k' v' Hk'. apply Hin. by right. }
    clear IH. cbn [omap list_omap]. rewrite !fmap_cons.
    change (Rsum ?x) with (foldr Rplus 0 x) in *. cbn [foldr snd].
    assert (Rmin w 0 <= 0 <= Rmax w 0) as H0.
    { unfold Rmin, Rmax. destruct (Rle_dec w 0); lra. }
    destruct (dict_get k fs) as [v|] eqn:Hk; cbn; cbn in IH'; [|lra].
    pose proof (normalize_unit v (Hin k v ltac:(by left) Hk)) as Hn.
    assert (Rmin w 0 <= w * normalize v <= Rmax w 0); [|lra].
    unfold Rmin, Rmax. destruct (Rle_dec w 0); nra.
Qed.

Lemma exp_le x y : x <= y -> exp x <= exp y.
Proof.
  intros [Hlt| ->]%Rle_lt_or_eq_dec; [|lra]. apply Rlt_le. by apply exp_increasing.
Qed.

Lemma logistic_monotone a b :
  a <= b -> 1 / (1 + exp (-2 * a)) <= 1 / (1 + exp (-2 * b)).
Proof.
  intros Hab. pose proof (exp_pos (-2 * a)). pose proof (exp_pos (-2 * b)).
  assert (exp (-2 * b) <= exp (-2 * a)) by (apply exp_le; lra).
  unfold Rdiv. rewrite !Rmult_1_l. apply Rinv_le_contravar; lra.
Qed.

(** X11.  For features between 0 and 100 the score stays between the two
    values the weight table allows: the logistic of the intercept plus the
    negative weights, and that of the intercept plus the positive weights. *)
Theorem score_between_table_extremes (self : model R) (h : heap R) l fs :
  h !! l = Some fs ->
  (forall k v, k ∈ (weights self).*1 -> dict_get k fs = Some v -> 0 <= v <= 100) ->
  exists s,
    _calculate_score self l h = (Return s, h)
    /\ 1 / (1 + exp (-2 * Range.linear_floor self)) <= s
       <= 1 / (1 + exp (-2 * Range.linear_ceiling self)).
Proof.
  intros Hl Hin. exists (1 / (1 + exp (-2 * linear_sum self fs))). split.
  - by rewrite (run_calculate_score self h l fs Hl), logistic_exact.
  - pose proof (contributions_range self fs Hin) as Hr.
    rewrite linear_sum_Rsum. unfold Range.linear_floor, Range.linear_ceiling.
    split; apply logistic_monotone; lra.
Qed.

(** ** The demo model on percentages *)

Lemma exp_small_le x : 0 <= x < 1 -> exp x <= 1 / (1 - x).
Proof.
  intros Hx. pose proof (exp_ineq1_le (- x)) as Hlo. pose proof (exp_pos x) as Hp.
  rewrite exp_Ropp in Hlo.
  apply (Rmult_le_reg_r (1 - x)); [lra|]. unfold Rdiv. rewrite Rmult_1_l, Rinv_l by lra.
  apply (Rmult_le_compat_l (exp x)) in Hlo; [|lra].
  rewrite Rinv_r in Hlo by lra. lra.
Qed.

Lemma exp_double x : exp (2 * x) = exp x * exp x.
Proof. rewrite <- exp_plus. f_equal. lra. Qed.

Lemma exp_double_le x b c : exp x <= b -> b * b <= c -> exp (2 * x) <= c.
Proof. intros Hb Hc. rewrite exp_double. pose proof (exp_pos x). nra. Qed.

Lemma exp_double_ge x b c : 0 <= b <= exp x -> c <= b * b -> c <= exp (2 * x).
Proof. intros Hb Hc. rewrite exp_double. nra. Qed.

Lemma exp_04 : exp 0.4 <= 1.5.
Proof.
  assert (exp 0.025 <= 1.02565) as H1.
  { etransitivity; [apply exp_small_le|]; lra. }
  assert (exp 0.05 <= 1.05196) as H2.
  { replace 0.05 with (2 * 0.025) by lra. eapply exp_double_le; [done|lra]. }
  assert (exp 0.1 <= 1.10663) as H3.
  { replace 0.1 with (2 * 0.05) by lra. eapply exp_double_le; [done|lra]. }
  assert (exp 0.2 <= 1.22464) as H4.
  { replace 0.2 with (2 * 0.1) by lra. eapply exp_double_le; [done|lra]. }
  replace 0.4 with (2 * 0.2) by lra. eapply exp_double_le; [done|lra].
Qed.

Lemma exp_m26 : 0.0702 <= exp (-2.6).
Proof.
  assert (0.959375 <= exp (-0.040625)) as H1.
  { pose proof (exp_ineq1_le (-0.040625)). lra. }
  assert (0.9204 <= exp (-0.08125)) as H2.
  { replace (-0.08125) with (2 * -0.040625) by lra.
    eapply exp_double_ge; [split; [|done]|]; lra. }
  assert (0.8471 <= exp (-0.1625)) as H3.
  { replace (-0.1625) with (2 * -0.08125) by lra.
    eapply exp_double_ge; [split; [|done]|]; lra. }
  assert (0.7175 <= exp (-0.325)) as H4.
  { replace (-0.325) with (2 * -0.1625) by lra.
    eapply exp_double_ge; [split; [|done]|]; lra. }
  assert (0.5148 <= exp (-0.65)) as H5.
  { replace (-0.65) with (2 * -0.325) by lra.
    eapply exp_double_ge; [split; [|done]|]; lra. }
  assert (0.2650 <= exp (-1.3)) as H6.
  { replace (-1.3) with (2 * -0.65) by lra.
    eapply exp_double_ge; [split; [|done]|]; lra. }
  replace (-2.6) with (2 * -1.3) by lra.
  eapply exp_double_ge; [split; [|done]|]; lra.
Qed.

Lemma demo_linear_extremes :
  Range.linear_floor _create_demo_model = -0.2
  /\ Range.linear_ceiling _create_demo_model = 1.3.
Proof.
  unfold Range.linear_floor, Range.linear_ceiling. simpl. unfold lit. simpl.
  unfold Rmin, Rmax.
  repeat match goal with |- context [Rle_dec ?a ?b] => destruct (Rle_dec a b) end;
    lra.
Qed.

(** X12.  The demo model never denies on its own.  When the 8 required
    features are between 0 and 100, the score lies between 0.4 and 0.94, so
    that every denied prediction falls in the borderline band and goes to
    human review. *)
Theorem demo_model_never_denies_unreviewed now (h : heap R) l fs :
  h !! l = Some fs ->
  (forall k, k ∈ FEATURES -> exists v, dict_get k fs = Some v /\ 0 <= v <= 100) ->
  exists p h',
    predict _create_demo_model now l h = (Return p, h')
    /\ 0.4 <= score p <= 0.94
    /\ (decision p = "denied" ->
        requires_review p = (true, "Borderline score requires human review")).
Proof.
  intros Hl Hin.
  assert (has_required fs = true) as Hreq.
  { unfold has_required. apply forallb_forall. intros k Hk%list_elem_of_In.
    destruct (Hin k Hk) as (v & Hv & _). by eapply dict_contains_Some. }
  assert (forall k v, k ∈ (weights (@_create_demo_model R _)).*1 ->
                      dict_get k fs = Some v -> 0 <= v <= 100) as Hin'.
  { intros k v Hk Hv. destruct (Hin k Hk) as (v' & Hv' & Hb). congruence. }
  destruct (score_between_table_extremes _ h l fs Hl Hin') as (s & Hs & Hlo & Hhi).
  destruct demo_linear_extremes as [Ef Ec]. rewrite Ef in Hlo. rewrite Ec in Hhi.
  destruct (run_predict_exact _create_demo_model now h l fs Hl Hreq)
    as (p & h' & Hrun & Hp & Hd & _).
  rewrite (run_calculate_score _ h l fs Hl), logistic_exact in Hs.
  injection Hs as Hs. rewrite Hs in Hp, Hd. clear Hs.
  assert (0.4 <= s <= 0.94) as Hrange.
  { pose proof exp_04 as H04. pose proof exp_m26 as H26.
    replace (-2 * -0.2) with 0.4 in Hlo by lra.
    replace (-2 * 1.3) with (-2.6) in Hhi by lra.
    pose proof (exp_pos 0.4). pose proof (exp_pos (-2.6)).
    split.
    - etransitivity; [|exact Hlo].
      apply (Rmult_le_reg_r (1 + exp 0.4)); [lra|]. field_simplify; lra.
    - etransitivity; [exact Hhi|].
      apply (Rmult_le_reg_r (1 + exp (-2.6))); [lra|]. field_simplify; lra. }
  exists p, h'. split; [done|].
  pose proof (round_4_ge 4000 s) as Hge. pose proof (round_4_le 9400 s) as Hle.
  pose proof (round_4_le 5000 s) as Hle5.
  split; [rewrite Hp; lra|].
  intros Hden. rewrite Hd in Hden. destruct (Rle_dec 0.5 s); [done|].
  rewrite requires_review_exact, Hp.
  destruct (Rle_dec 0.4 (round_4 s)); [|lra].
  destruct (Rle_dec (round_4 s) 0.6); [done|lra].
Qed.
(** X15.  The explanation is a ranking: an entry has at least the absolute
    contribution of every entry after it, so that the first [n] entries (the
    demo prints five) are [n] largest ones. *)
Theorem explanation_ranks (self : model R) (h : heap R) l fs :
  NoDup (weights self).*1 -> h !! l = Some fs ->
  exists e h' out,
    _generate_explanation self l h = (Return e, h')
    /\ h' !! e = Some out
    /\ (forall i j x y, (i < j)%nat -> out !! i = Some x -> out !! j = Some y ->
        Rabs x.2 >= Rabs y.2)
    /\ (forall n x y, x ∈ take n out -> y ∈ drop n out -> Rabs x.2 >= Rabs y.2).
Proof.
  intros Hnd Hl.
  destruct (run_generate_explanation_sorted self h l fs Hnd Hl) as (e & h' & Hrun & He).
  set (out := sorted_reverse (fun x => fabs x.2) (rounded (contributions self fs))) in *.
  assert (forall i j x y, (i < j)%nat -> out !! i = Some x -> out !! j = Some y ->
                          Rabs x.2 >= Rabs y.2) as Hrank.
  { intros i j x y Hij Hx Hy.
    assert (Rltb (Rabs x.2) (Rabs y.2) = false) as Hxy%Rltb_false; [|lra].
    apply (sorted_reverse_sorted (AF:=arith) (fun x => Rabs x.2) Rltb_asym Rltb_negtrans
             (rounded (contributions self fs))).
    by exists i, j. }
  exists e, h', out. split_and!; [done..|].
  intros n x y [i Hi]%list_elem_of_lookup_1 [j Hj]%list_elem_of_lookup_1.
  apply lookup_take_Some in Hi as [Hi Hin]. rewrite lookup_drop in Hj.
  apply (Hrank i (n + j)%nat); [lia|done..].
Qed.

(** X17.  The normalizer is not monotone.  It preserves the order of two
    values that are both at most 1, or both above 1; but every value between
    1 and 100 is normalized below what the value 1 itself gives. *)
Theorem normalizer_jumps_at_one (h : heap R) l fs k k' v v' :
  h !! l = Some fs -> dict_get k fs = Some v -> dict_get k' fs = Some v' ->
  exists n n',
    normalized l k h = (Return n, h) /\ normalized l k' h = (Return n', h)
    /\ (v <= v' <= 1 -> n <= n')
    /\ (1 < v <= v' -> n <= n')
    /\ (v = 1 -> 1 < v' < 100 -> n' < n).
Proof.
  intros Hl Hk Hk'. exists (normalize v), (normalize v').
  split_and!; [by eapply run_normalized..| | |];
    unfold normalize; simpl; unfold Rltb;
    destruct (Rlt_dec 1 v), (Rlt_dec 1 v'); lra.
Qed.
End ExactPipeline.

(** * Rounding in binary64

    What [SpecFloat] says of the rounding of a sum, a quotient and a product,
    as far as the sigmoid needs it: a value of at least [2^K] is rounded to
    one of at least [2^K], and a value below a bound to one that is at most
    the bound. *)

Module Rounding.
Import SpecFloat FloatOps Binary64.
Local Open Scope Z_scope.

Lemma digits2_pos_size p : digits2_pos p = Pos.size p.
Proof. induction p; simpl; congruence. Qed.

Lemma Zdigits2_bounds m : 0 < m -> 2 ^ (Zdigits2 m - 1) <= m < 2 ^ Zdigits2 m.
Proof.
  destruct m as [|p|p]; try lia. intros _. cbn [Zdigits2].
  rewrite digits2_pos_size. split.
  - pose proof (Pos.size_le p) as H.
    assert (2 ^ Z.pos (Pos.size p) <= 2 * Z.pos p) as H'.
    { change 2 with (Z.pos 2). rewrite <- Pos2Z.inj_pow. exact H. }
    replace (Z.pos (Pos.size p)) with (Z.pos (Pos.size p) - 1 + 1) in H' by lia.
    rewrite Z.pow_add_r in H' by lia. lia.
  - pose proof (Pos.size_gt p) as H.
    change 2 with (Z.pos 2). rewrite <- Pos2Z.inj_pow. exact H.
Qed.

Lemma Zdigits2_nonneg m : 0 <= Zdigits2 m.
Proof. destruct m; simpl; lia. Qed.

Lemma Zdigits2_le m k : 0 <= m -> 0 <= k -> m < 2 ^ k -> Zdigits2 m <= k.
Proof.
  intros Hm Hk Hlt. destruct (Z.eq_dec m 0) as [->|Hne]; [simpl; lia|].
  destruct (Zdigits2_bounds m ltac:(lia)) as [Hlo _].
  destruct (Z_le_gt_dec (Zdigits2 m) k) as [|Hgt]; [assumption|exfalso].
  assert (2 ^ k <= 2 ^ (Zdigits2 m - 1)) by (apply Z.pow_le_mono_r; lia). lia.
Qed.

Lemma Zdigits2_gt m k : 0 <= k -> 2 ^ k <= m -> k < Zdigits2 m.
Proof.
  intros Hk Hle. assert (0 < m) as Hm by (pose proof (Z.pow_pos_nonneg 2 k); lia).
  destruct (Zdigits2_bounds m Hm) as [_ Hhi].
  destruct (Z_lt_le_dec k (Zdigits2 m)) as [|Hge]; [assumption|exfalso].
  assert (2 ^ Zdigits2 m <= 2 ^ k) by (apply Z.pow_le_mono_r; lia). lia.
Qed.

Lemma shr_1_m r : 0 <= shr_m r -> shr_m (shr_1 r) = shr_m r / 2.
Proof.
  destruct r as [m b s]; cbn [shr_m shr_1]. intros Hm.
  destruct m as [|[p|p|]|p]; cbn [shr_m]; try lia; try reflexivity.
  - rewrite Pos2Z.inj_xI. apply Z.div_unique with 1; lia.
  - rewrite Pos2Z.inj_xO. apply Z.div_unique with 0; lia.
Qed.

Lemma iter_shr_1_m p : forall r,
  0 <= shr_m r -> shr_m (iter_pos shr_1 p r) = shr_m r / 2 ^ Z.pos p.
Proof.
  assert (forall r, 0 <= shr_m r -> 0 <= shr_m (shr_1 r)) as Hnn.
  { intros r Hr. rewrite shr_1_m by assumption. apply Z.div_pos; lia. }
  induction p as [p IH|p IH|]; intros r Hr; cbn [iter_pos].
  - rewrite IH, IH, shr_1_m; try assumption.
    + rewrite !Z.div_div by lia. f_equal.
      replace (Z.pos p~1) with (1 + Z.pos p + Z.pos p) by lia.
      rewrite !Z.pow_add_r by lia. change (2 ^ 1) with 2. lia.
    + auto.
    + rewrite IH by auto. apply Z.div_pos; [auto|lia].
  - rewrite IH, IH; try assumption.
    + rewrite !Z.div_div by lia. f_equal.
      replace (Z.pos p~0) with (Z.pos p + Z.pos p) by lia.
      rewrite !Z.pow_add_r by lia. lia.
    + rewrite IH by auto. apply Z.div_pos; [auto|lia].
  - rewrite shr_1_m by assumption. reflexivity.
Qed.

Lemma shr_fexp_spec m e l :
  0 <= m ->
  let n := Z.max (fexp prec emax (Zdigits2 m + e) - e) 0 in
  shr_m (fst (shr_fexp prec emax m e l)) = m / 2 ^ n
  /\ snd (shr_fexp prec emax m e l) = e + n.
Proof.
  intros Hm n. unfold shr_fexp, shr. subst n.
  assert (shr_m (shr_record_of_loc m l) = m) as Hl by (destruct l as [|[]]; reflexivity).
  destruct (fexp prec emax (Zdigits2 m + e) - e) as [|p|p] eqn:E; cbn [fst snd].
  - rewrite Hl. cbn. rewrite Z.div_1_r. lia.
  - rewrite iter_shr_1_m, Hl by (rewrite Hl; assumption).
    rewrite Z.max_l by lia. split; reflexivity.
  - rewrite Hl. rewrite Z.max_r by lia. cbn. rewrite Z.div_1_r. lia.
Qed.

Lemma round_nearest_even_bounds m l : m <= round_nearest_even m l <= m + 1.
Proof. destruct l as [|[]]; cbn; try destruct (Z.even m); lia. Qed.

(** [binary_round_aux] on a mantissa that is not negative: two truncating
    shifts around one rounding step *)
Lemma binary_round_aux_spec sx m e l :
  0 <= m ->
  exists m1,
    let n1 := Z.max (fexp prec emax (Zdigits2 m + e) - e) 0 in
    let e1 := e + n1 in
    let n2 := Z.max (fexp prec emax (Zdigits2 m1 + e1) - e1) 0 in
    m / 2 ^ n1 <= m1 <= m / 2 ^ n1 + 1
    /\ binary_round_aux prec emax sx m e l =
       match m1 / 2 ^ n2 with
       | Z0 => S754_zero sx
       | Zpos p => if e1 + n2 <=? emax - prec then S754_finite sx p (e1 + n2)
                   else S754_infinity sx
       | Zneg _ => S754_nan
       end.
Proof.
  intros Hm. unfold binary_round_aux.
  destruct (shr_fexp_spec m e l Hm) as [H1 H2].
  destruct (shr_fexp prec emax m e l) as [r1 e1] eqn:E1. cbn [fst snd] in H1, H2.
  set (m1 := round_nearest_even (shr_m r1) (loc_of_shr_record r1)).
  exists m1.
  pose proof (round_nearest_even_bounds (shr_m r1) (loc_of_shr_record r1)) as Hb.
  fold m1 in Hb. rewrite H1 in Hb.
  assert (0 <= m1) as Hm1.
  { assert (0 <= m / 2 ^ Z.max (fexp prec emax (Zdigits2 m + e) - e) 0)
      by (apply Z.div_pos; [assumption|apply Z.pow_pos_nonneg; lia]). lia. }
  cbn zeta. split; [exact Hb|].
  destruct (shr_fexp_spec m1 e1 loc_Exact Hm1) as [H3 H4].
  destruct (shr_fexp prec emax m1 e1 loc_Exact) as [r2 e2] eqn:E2. cbn [fst snd] in H3, H4.
  rewrite H3, H4, H2. reflexivity.
Qed.

Lemma fexp_eq k : fexp prec emax k = Z.max (k - 53) (-1074).
Proof. reflexivity. Qed.

(** A value below [2^K] rounds to at most [2^K] *)
Lemma binary_round_aux_lt_pow K m e l :
  0 <= m -> -1021 <= K <= 1023 -> e <= K - 53 -> m < 2 ^ (K - e) ->
  binary_round_aux prec emax false m e l = S754_zero false
  \/ exists p e', binary_round_aux prec emax false m e l = S754_finite false p e'
       /\ (e' < K - 52 \/ e' = K - 52 /\ Z.pos p <= 2 ^ 52).
Proof.
  intros Hm HK He Hlt.
  destruct (binary_round_aux_spec false m e l Hm) as (m1 & H). cbv zeta in H.
  destruct H as [Hb ->].
  rewrite !fexp_eq in *. change (emax - prec) with 971.
  pose proof (Zdigits2_le m (K - e) Hm ltac:(lia) Hlt) as Hd.
  pose proof (Zdigits2_nonneg m) as Hd0.
  set (n1 := Z.max (Z.max (Zdigits2 m + e - 53) (-1074) - e) 0) in *.
  assert (0 <= n1 <= K - 53 - e) as Hn1 by lia.
  assert (m / 2 ^ n1 < 2 ^ (K - e - n1)) as Hq.
  { apply Z.div_lt_upper_bound; [apply Z.pow_pos_nonneg; lia|].
    rewrite <- Z.pow_add_r by lia.
    replace (n1 + (K - e - n1)) with (K - e) by lia. exact Hlt. }
  assert (0 <= m / 2 ^ n1) as Hq0 by (apply Z.div_pos; [lia|apply Z.pow_pos_nonneg; lia]).
  set (e1 := e + n1) in *.
  assert (0 <= m1 <= 2 ^ (K - e1)) as Hm1.
  { unfold e1. replace (K - (e + n1)) with (K - e - n1) by lia. lia. }
  assert (m1 < 2 ^ (K - e1 + 1)) as Hm1'.
  { rewrite Z.pow_add_r by lia. change (2 ^ 1) with 2.
    pose proof (Z.pow_pos_nonneg 2 (K - e1)); lia. }
  pose proof (Zdigits2_le m1 (K - e1 + 1) ltac:(lia) ltac:(lia) Hm1') as Hd1.
  pose proof (Zdigits2_nonneg m1) as Hd10.
  set (n2 := Z.max (Z.max (Zdigits2 m1 + e1 - 53) (-1074) - e1) 0) in *.
  assert (0 <= n2 /\ e1 + n2 <= K - 52) as Hn2 by lia.
  assert (0 <= m1 / 2 ^ n2 <= 2 ^ (K - e1 - n2)) as Hq2.
  { split; [apply Z.div_pos; [lia|apply Z.pow_pos_nonneg; lia]|].
    apply Z.div_le_upper_bound; [apply Z.pow_pos_nonneg; lia|].
    rewrite <- Z.pow_add_r by lia.
    replace (n2 + (K - e1 - n2)) with (K - e1) by lia. lia. }
  destruct (m1 / 2 ^ n2) as [|p|p] eqn:E; [left; reflexivity| |lia].
  right. exists p, (e1 + n2).
  replace (e1 + n2 <=? 971) with true by (symmetry; apply Z.leb_le; lia).
  split; [reflexivity|].
  destruct (Z.eq_dec (e1 + n2) (K - 52)) as [Heq|Hne]; [right|left; lia].
  split; [assumption|]. replace (K - e1 - n2) with 52 in Hq2 by lia. lia.
Qed.

(** A value of at least [2^K] rounds to at least [2^K] *)
Lemma binary_round_aux_ge_pow K m e l :
  -1021 <= K -> e <= K -> 2 ^ (K - e) <= m ->
  binary_round_aux prec emax false m e l = S754_infinity false
  \/ exists p e', binary_round_aux prec emax false m e l = S754_finite false p e'
       /\ K - 52 <= e'.
Proof.
  intros HK He Hle.
  assert (0 < m) as Hm by (pose proof (Z.pow_pos_nonneg 2 (K - e)); lia).
  destruct (binary_round_aux_spec false m e l ltac:(lia)) as (m1 & H). cbv zeta in H.
  destruct H as [Hb ->].
  rewrite !fexp_eq in *. change (emax - prec) with 971.
  pose proof (Zdigits2_gt m (K - e) ltac:(lia) Hle) as Hd.
  destruct (Zdigits2_bounds m Hm) as [Hlo _].
  set (n1 := Z.max (Z.max (Zdigits2 m + e - 53) (-1074) - e) 0) in *.
  assert (0 <= n1 <= Zdigits2 m - 1 /\ K - 52 <= e + n1) as Hn1 by lia.
  assert (1 <= m / 2 ^ n1) as Hq.
  { apply Z.div_le_lower_bound; [apply Z.pow_pos_nonneg; lia|]. rewrite Z.mul_1_r.
    transitivity (2 ^ (Zdigits2 m - 1)); [apply Z.pow_le_mono_r; lia|assumption]. }
  set (e1 := e + n1) in *.
  assert (1 <= m1) as Hm1 by lia.
  destruct (Zdigits2_bounds m1 ltac:(lia)) as [Hlo1 _].
  pose proof (Zdigits2_gt m1 0 ltac:(lia) Hm1) as Hd1.
  set (n2 := Z.max (Z.max (Zdigits2 m1 + e1 - 53) (-1074) - e1) 0) in *.
  assert (0 <= n2 <= Zdigits2 m1 - 1) as Hn2 by lia.
  assert (1 <= m1 / 2 ^ n2) as Hq2.
  { apply Z.div_le_lower_bound; [apply Z.pow_pos_nonneg; lia|]. rewrite Z.mul_1_r.
    transitivity (2 ^ (Zdigits2 m1 - 1)); [apply Z.pow_le_mono_r; lia|assumption]. }
  destruct (m1 / 2 ^ n2) as [|p|p] eqn:E; try lia.
  destruct (e1 + n2 <=? 971).
  - right. exists p, (e1 + n2). split; [reflexivity|lia].
  - left. reflexivity.
Qed.

(** A value below an integer [c < 2^K] rounds to at most [c] *)
Lemma binary_round_aux_lt_int K c m e l :
  0 <= m -> 0 <= K <= 52 -> 0 < c <= 2 ^ K -> e <= K - 53 -> m < c * 2 ^ (- e) ->
  binary_round_aux prec emax false m e l = S754_zero false
  \/ exists p e', binary_round_aux prec emax false m e l = S754_finite false p e'
       /\ e' <= K - 52 /\ Z.pos p <= c * 2 ^ (- e').
Proof.
  intros Hm HK Hc He Hlt.
  assert (m < 2 ^ (K - e)) as Hlt'.
  { replace (K - e) with (K + - e) by lia. rewrite Z.pow_add_r by lia.
    assert (0 < 2 ^ (- e)) by (apply Z.pow_pos_nonneg; lia). nia. }
  destruct (binary_round_aux_spec false m e l Hm) as (m1 & H). cbv zeta in H.
  destruct H as [Hb ->].
  rewrite !fexp_eq in *. change (emax - prec) with 971.
  pose proof (Zdigits2_le m (K - e) Hm ltac:(lia) Hlt') as Hd.
  pose proof (Zdigits2_nonneg m) as Hd0.
  set (n1 := Z.max (Z.max (Zdigits2 m + e - 53) (-1074) - e) 0) in *.
  assert (0 <= n1 <= K - 53 - e) as Hn1 by lia.
  assert (m / 2 ^ n1 < c * 2 ^ (- e - n1)) as Hq.
  { apply Z.div_lt_upper_bound; [apply Z.pow_pos_nonneg; lia|].
    replace (2 ^ n1 * (c * 2 ^ (- e - n1))) with (c * (2 ^ n1 * 2 ^ (- e - n1))) by lia.
    rewrite <- Z.pow_add_r by lia.
    replace (n1 + (- e - n1)) with (- e) by lia. exact Hlt. }
  assert (0 <= m / 2 ^ n1) as Hq0 by (apply Z.div_pos; [lia|apply Z.pow_pos_nonneg; lia]).
  set (e1 := e + n1) in *.
  assert (0 <= m1 <= c * 2 ^ (- e1)) as Hm1.
  { unfold e1. replace (- (e + n1)) with (- e - n1) by lia. lia. }
  assert (m1 < 2 ^ (K - e1 + 1)) as Hm1'.
  { replace (K - e1 + 1) with (1 + K + - e1) by lia. rewrite !Z.pow_add_r by lia.
    change (2 ^ 1) with 2.
    assert (0 < 2 ^ (- e1)) by (apply Z.pow_pos_nonneg; lia). nia. }
  pose proof (Zdigits2_le m1 (K - e1 + 1) ltac:(lia) ltac:(lia) Hm1') as Hd1.
  pose proof (Zdigits2_nonneg m1) as Hd10.
  set (n2 := Z.max (Z.max (Zdigits2 m1 + e1 - 53) (-1074) - e1) 0) in *.
  assert (0 <= n2 /\ e1 + n2 <= K - 52) as Hn2 by lia.
  assert (0 <= m1 / 2 ^ n2 <= c * 2 ^ (- e1 - n2)) as Hq2.
  { split; [apply Z.div_pos; [lia|apply Z.pow_pos_nonneg; lia]|].
    apply Z.div_le_upper_bound; [apply Z.pow_pos_nonneg; lia|].
    replace (2 ^ n2 * (c * 2 ^ (- e1 - n2))) with (c * (2 ^ n2 * 2 ^ (- e1 - n2))) by lia.
    rewrite <- Z.pow_add_r by lia.
    replace (n2 + (- e1 - n2)) with (- e1) by lia. lia. }
  destruct (m1 / 2 ^ n2) as [|p|p] eqn:E; [left; reflexivity| |lia].
  right. exists p, (e1 + n2).
  replace (e1 + n2 <=? 971) with true by (symmetry; apply Z.leb_le; lia).
  split; [reflexivity|]. split; [lia|].
  replace (- (e1 + n2)) with (- e1 - n2) by lia. lia.
Qed.

Lemma iter_xO m d : Z.pos (Pos.iter xO m d) = Z.pos m * 2 ^ Z.pos d.
Proof.
  induction d as [|d IH] using Pos.peano_ind.
  - cbn [Pos.iter]. rewrite Pos2Z.inj_xO. change (2 ^ 1) with 2. lia.
  - rewrite Pos.iter_succ, Pos2Z.inj_xO, IH, Pos2Z.inj_succ, Z.pow_succ_r by lia. lia.
Qed.

Lemma shl_align_spec m e e' :
  Z.pos (fst (shl_align m e e')) = Z.pos m * 2 ^ (e - Z.min e e')
  /\ snd (shl_align m e e') = Z.min e e'.
Proof.
  unfold shl_align. destruct (e' - e) as [|d|d] eqn:E; cbn [fst snd].
  - rewrite Z.min_l by lia. replace (e - e) with 0 by lia. cbn. lia.
  - rewrite Z.min_l by lia. replace (e - e) with 0 by lia. cbn. lia.
  - rewrite Z.min_r by lia. rewrite iter_xO. replace (e - e') with (Z.pos d) by lia.
    split; reflexivity.
Qed.

(** [1 + y] for a positive finite [y] is at least 1 *)
Lemma SFadd_one_ge my ey :
  SFadd prec emax SF_one (S754_finite false my ey) = S754_infinity false
  \/ exists p e', SFadd prec emax SF_one (S754_finite false my ey) = S754_finite false p e'
       /\ -52 <= e'.
Proof.
  unfold SFadd, SF_one. cbn [cond_Zopp].
  set (ez := Z.min (-52) ey).
  destruct (shl_align_spec 4503599627370496 (-52) ez) as [Ha _].
  destruct (shl_align_spec my ey ez) as [Hb _].
  set (a := fst (shl_align 4503599627370496 (-52) ez)) in *.
  set (b := fst (shl_align my ey ez)) in *.
  change (Z.pos a + Z.pos b) with (Z.pos (a + b)).
  cbn [binary_normalize]. unfold binary_round.
  destruct (shl_align_spec (a + b) ez
              (fexp prec emax (Z.pos (digits2_pos (a + b)) + ez))) as [Hc Hd].
  destruct (shl_align (a + b) ez (fexp prec emax (Z.pos (digits2_pos (a + b)) + ez)))
    as [mz ez1]. cbn [fst snd] in Hc, Hd.
  apply (binary_round_aux_ge_pow 0); [lia|lia|].
  rewrite Hc, Pos2Z.inj_add, Ha.
  replace (Z.min (-52) ez) with ez by lia.
  change (Z.pos 4503599627370496) with (2 ^ 52).
  rewrite <- Z.pow_add_r by lia.
  replace (52 + (-52 - ez)) with (- ez) by lia.
  assert (2 ^ (- ez) * 2 ^ (ez - ez1) = 2 ^ (0 - ez1)) as <-.
  { rewrite <- Z.pow_add_r by lia. f_equal. lia. }
  rewrite <- Hd.
  apply Z.mul_le_mono_nonneg_r; [apply Z.pow_nonneg; lia|lia].
Qed.

(** [1 / z] for a float [z >= 1] is at most 1 *)
Lemma SFdiv_one_le mz ez :
  bounded prec emax mz ez = true -> -52 <= ez ->
  SFdiv prec emax SF_one (S754_finite false mz ez) = S754_zero false
  \/ exists p e', SFdiv prec emax SF_one (S754_finite false mz ez) = S754_finite false p e'
       /\ (e' < -52 \/ e' = -52 /\ Z.pos p <= 2 ^ 52).
Proof.
  intros Hb He. unfold bounded, canonical_mantissa in Hb.
  apply andb_prop in Hb as [Hc Hm]. apply Z.eqb_eq in Hc. apply Z.leb_le in Hm.
  rewrite fexp_eq in Hc. change (emax - prec) with 971 in Hm.
  assert (Z.pos (digits2_pos mz) = 53) as Hd by lia.
  destruct (Zdigits2_bounds (Z.pos mz) ltac:(lia)) as [Hlo Hhi].
  cbn [Zdigits2] in Hlo, Hhi. rewrite Hd in Hlo, Hhi. change (53 - 1) with 52 in Hlo.
  destruct (Z.eq_dec (Z.pos mz * 2 ^ (ez + 52)) (2 ^ 52)) as [Heq|Hne].
  - assert (ez = -52) as ->.
    { destruct (Z.eq_dec ez (-52)) as [|Hne]; [assumption|exfalso].
      assert (2 ^ 1 <= 2 ^ (ez + 52)) by (apply Z.pow_le_mono_r; lia).
      change (2 ^ 1) with 2 in *. nia. }
    change (2 ^ (-52 + 52)) with 1 in Heq. rewrite Z.mul_1_r in Heq.
    right. injection Heq as ->. do 2 eexists. split; [vm_compute; reflexivity|].
    right. split; reflexivity.
  - unfold SFdiv, SF_one, SFdiv_core_binary. cbn [xorb Zdigits2].
    rewrite Hd. change (Z.pos (digits2_pos 4503599627370496)) with 53.
    rewrite fexp_eq.
    set (e' := Z.min (Z.max (53 + -52 - (53 + ez) - 53) (-1074)) (-52 - ez)).
    set (s := -52 - ez - e').
    assert (e' <= -53 /\ 51 <= s) as [He' Hs] by lia.
    destruct s as [|ps|ps] eqn:Es; try lia. rewrite <- Es.
    rewrite Z.shiftl_mul_pow2 by lia.
    assert (Z.div_eucl (2 ^ 52 * 2 ^ s) (Z.pos mz)
            = ((2 ^ 52 * 2 ^ s) / Z.pos mz, (2 ^ 52 * 2 ^ s) mod Z.pos mz)) as Hq.
    { unfold Z.div, Z.modulo. destruct (Z.div_eucl (2 ^ 52 * 2 ^ s) (Z.pos mz)); reflexivity. }
    change (Z.pos 4503599627370496) with (2 ^ 52). rewrite Hq.
    apply (binary_round_aux_lt_pow 0);
      [apply Z.div_pos; [apply Z.mul_nonneg_nonneg; apply Z.pow_nonneg|]; lia|lia|lia|].
    apply Z.div_lt_upper_bound; [lia|].
    replace (0 - e') with ((ez + 52) + s) by lia.
    rewrite Z.pow_add_r by lia.
    assert (1 <= 2 ^ (ez + 52)) by (apply (Z.pow_le_mono_r 2 0); lia).
    assert (0 < 2 ^ s) by (apply Z.pow_pos_nonneg; lia).
    nia.
Qed.

End Rounding.

(** ** The range of the sigmoid *)

Module FloatRange.
Import SpecFloat FloatOps FloatAxioms Rounding Binary64.
Import PrimFloat.
Local Open Scope float_scope.

Lemma SF_unit_range S :
  SF_unit S -> SFleb (S754_zero false) S = true /\ SFleb S SF_one = true.
Proof.
  intros [->|(p & e & -> & H)]; [split; reflexivity|].
  split; [reflexivity|]. unfold SFleb, SFcompare, SF_one.
  destruct H as [H|[-> H]].
  - apply Z.compare_lt_iff in H. rewrite H. reflexivity.
  - cbn [Z.compare Pos.compare]. rewrite Pos.compare_cont_spec. cbn [Pos.switch_Eq].
    change (2 ^ 52)%Z with (Z.pos 4503599627370496) in H.
    destruct (Pos.compare_spec p 4503599627370496); try reflexivity. lia.
Qed.

Lemma SF_sigmoid y :
  (0 <=? y) = true -> SF_unit (Prim2SF (1 / (1 + y))).
Proof.
  intros Hy. rewrite leb_spec in Hy. rewrite div_spec.
  pose proof (Prim2SF_valid (1 + y)) as Hv. rewrite add_spec in *.
  change (Prim2SF 1) with SF_one in *. change (Prim2SF 0) with (S754_zero false) in Hy.
  unfold SF64div, SF64add in *.
  destruct (Prim2SF y) as [s|[]| |[] my ey]; try discriminate Hy.
  - right. do 2 eexists. split; [vm_compute; reflexivity|]. right. split; reflexivity.
  - left. reflexivity.
  - destruct (SFadd_one_ge my ey) as [->|(p & e' & E & He)]; [left; reflexivity|].
    rewrite E in *. apply SFdiv_one_le; assumption.
Qed.

(** For every float [y >= 0] (infinite or not; not a NaN), [1 / (1 + y)] lies
    between 0 and 1. *)
Lemma sigmoid_range y :
  (0 <=? y) = true ->
  (0 <=? 1 / (1 + y)) = true /\ (1 / (1 + y) <=? 1) = true.
Proof.
  intros Hy. rewrite !leb_spec.
  change (Prim2SF 0) with (S754_zero false). change (Prim2SF 1) with SF_one.
  apply SF_unit_range, SF_sigmoid, Hy.
Qed.
End FloatRange.

(** ** The sigmoid rounded to four digits *)

Module FloatRound.
Import SpecFloat FloatOps FloatAxioms Rounding FloatRange Binary64.
Local Open Scope Z_scope.

Lemma round_half_even_bounds num den c :
  0 < den -> 0 <= num <= c * den -> 0 <= round_half_even num den <= c.
Proof.
  intros Hden [H0 Hc]. unfold round_half_even.
  pose proof (Z.div_mod num den ltac:(lia)) as Hdm.
  pose proof (Z.mod_pos_bound num den Hden) as Hr.
  assert (0 <= num / den) as Hq0 by (apply Z.div_pos; lia).
  assert (num / den <= c) as Hq by (apply Z.div_le_upper_bound; lia).
  assert (num / den = c -> num mod den = 0) as Hex by nia.
  destruct (2 * (num mod den) ?= den) eqn:E.
  - apply Z.compare_eq in E. destruct (Z.even (num / den)); [lia|].
    destruct (Z.eq_dec (num / den) c) as [Heq|]; [|lia]. specialize (Hex Heq). lia.
  - lia.
  - apply Z.compare_gt_iff in E.
    destruct (Z.eq_dec (num / den) c) as [Heq|]; [|lia]. specialize (Hex Heq). lia.
Qed.

(** The sigmoid of the code, rounded as [predict] rounds it, is one of the
    decimals [0.0000, 0.0001, ..., 1.0000] *)
Lemma np_round_4_sigmoid y :
  PrimFloat.leb PrimFloat.zero y = true ->
  exists n, 0 <= n <= 10000
    /\ np_round_4 (PrimFloat.div PrimFloat.one (PrimFloat.add PrimFloat.one y))
       = PrimFloat.div (float_of_Z n) (float_of_Z 10000).
Proof.
  intros Hy. set (s := PrimFloat.div PrimFloat.one (PrimFloat.add PrimFloat.one y)).
  assert (SF_unit (Prim2SF s)) as Hs by apply SF_sigmoid, Hy.
  pose proof (Prim2SF_valid s) as Hv. clearbody s.
  unfold np_round_4.
  set (t := PrimFloat.mul s (float_of_Z 10000)).
  assert (exists n, 0 <= n <= 10000 /\ rint t = float_of_Z n) as (n & Hn & ->);
    [|exists n; split; [assumption|reflexivity]].
  assert (Prim2SF t = SF64mul (Prim2SF s) (S754_finite false 5497558138880000 (-39)))
    as Ht by (unfold t; rewrite mul_spec; reflexivity).
  clearbody t. unfold rint.
  destruct Hs as [Hs|(p & e & Hs & He)]; rewrite Hs in Ht, Hv.
  - cbn in Ht. rewrite Ht. exists 0. split; [lia|].
    rewrite <- (SF2Prim_Prim2SF t), Ht. reflexivity.
  - cbn [valid_binary] in Hv. unfold bounded, canonical_mantissa in Hv.
    apply andb_prop in Hv as [Hc _]. apply Z.eqb_eq in Hc. rewrite fexp_eq in Hc.
    destruct (Zdigits2_bounds (Z.pos p) ltac:(lia)) as [Hlo Hhi]. cbn [Zdigits2] in Hlo, Hhi.
    destruct (Z.eq_dec e (-52)) as [->|Hne].
    + assert (Z.pos (digits2_pos p) = 53) as Hd by lia. rewrite Hd in Hlo.
      change (2 ^ (53 - 1)) with (2 ^ 52) in Hlo.
      assert (p = 4503599627370496%positive) as -> by lia.
      change (SF64mul _ _) with (S754_finite false 5497558138880000 (-39)) in Ht.
      rewrite Ht. exists 10000. split; [lia|]. reflexivity.
    + assert (e <= -53) as He' by lia.
      assert (Z.pos p < 2 ^ (- e)) as Hp.
      { eapply Z.lt_le_trans; [exact Hhi|]. apply Z.pow_le_mono_r; lia. }
      unfold SF64mul, SFmul in Ht. cbn [xorb] in Ht.
      destruct (binary_round_aux_lt_int 14 10000
                  (Z.pos (p * 5497558138880000)) (e + -39) loc_Exact)
        as [E|(q & e' & E & He'' & Hq)]; try lia.
      { rewrite Pos2Z.inj_mul. replace (- (e + -39)) with (39 + - e) by lia.
        rewrite Z.pow_add_r by lia.
        change (Z.pos 5497558138880000) with (10000 * 2 ^ 39). nia. }
      * rewrite E in Ht. rewrite Ht. exists 0. split; [lia|].
        rewrite <- (SF2Prim_Prim2SF t), Ht. reflexivity.
      * rewrite E in Ht. rewrite Ht.
        replace (0 <=? e') with false by (symmetry; apply Z.leb_gt; lia).
        eexists. split; [|reflexivity].
        apply round_half_even_bounds; [apply Z.pow_pos_nonneg; lia|lia].
Qed.
End FloatRound.

(** ** The sign of the exponential *)

Module ExpSign.
Import SpecFloat FloatOps FloatAxioms Rounding Binary64.
Local Open Scope Z_scope.

Lemma binary_round_aux_nonneg m e l :
  0 <= m -> SFleb (S754_zero false) (binary_round_aux prec emax false m e l) = true.
Proof.
  intros Hm. destruct (binary_round_aux_spec false m e l Hm) as (m1 & H). cbv zeta in H.
  destruct H as [Hb ->].
  assert (0 <= m / 2 ^ Z.max (fexp prec emax (Zdigits2 m + e) - e) 0) as Hq
    by (apply Z.div_pos; [lia|apply Z.pow_pos_nonneg; lia]).
  match goal with |- context [match ?q with _ => _ end] =>
    assert (0 <= q) as Hq2 by (apply Z.div_pos; [lia|apply Z.pow_pos_nonneg; lia]);
    destruct q as [|p|p]; [reflexivity| |lia] end.
  destruct (_ <=? _); reflexivity.
Qed.

Lemma binary_round_nonneg m e :
  SFleb (S754_zero false) (binary_round prec emax false m e) = true.
Proof.
  unfold binary_round. destruct (shl_align _ _ _) as [mz ez].
  apply binary_round_aux_nonneg. lia.
Qed.

Lemma binary_normalize_nonneg z e :
  0 <= z -> SFleb (S754_zero false) (binary_normalize prec emax z e false) = true.
Proof.
  intros Hz. destruct z as [|p|p]; [reflexivity| |lia]. apply binary_round_nonneg.
Qed.

Lemma SF2Prim_nonneg x :
  SFleb (S754_zero false) x = true -> PrimFloat.leb PrimFloat.zero (SF2Prim x) = true.
Proof.
  intros Hx. destruct x as [[]|[]| |[] m e]; try discriminate Hx; try reflexivity.
  cbn [SF2Prim]. rewrite leb_spec, FloatLemmas.Z_ldexp_spec, of_uint63_spec.
  change (Prim2SF PrimFloat.zero) with (S754_zero false).
  pose proof (Uint63.to_Z_bounded (Uint63.of_Z (Z.pos m))) as [Hn _].
  pose proof (binary_normalize_nonneg _ 0 Hn) as Hb.
  destruct (binary_normalize prec emax _ 0 false) as [[]|[]| |[] m' e'];
    try discriminate Hb; try reflexivity.
  apply binary_round_nonneg.
Qed.

Lemma float_of_Z_nonneg z : 0 <= z -> PrimFloat.leb PrimFloat.zero (float_of_Z z) = true.
Proof. intros Hz. apply SF2Prim_nonneg, binary_normalize_nonneg, Hz. Qed.

(** the Taylor sum stays positive for [|r| <= ln 2 / 2] *)
Lemma taylor_step term r n :
  (1 <= n)%nat -> 2 * Z.abs r <= 2 ^ guard ->
  2 * Z.abs (term * r / (Z.of_nat n * 2 ^ guard)) <= Z.abs term + 2.
Proof.
  intros Hn Hr.
  assert (0 < 2 ^ guard) as Hg by (apply Z.pow_pos_nonneg; unfold guard; lia).
  set (g := 2 ^ guard) in *. set (d := Z.of_nat n * g).
  assert (g <= d) as Hd by (unfold d; nia).
  pose proof (Z.mul_div_le (term * r) d ltac:(lia)) as Hlo.
  pose proof (Z.mul_succ_div_gt (term * r) d ltac:(lia)) as Hhi.
  set (q := term * r / d) in *.
  assert (2 * Z.abs (term * r) <= Z.abs term * d) as Ha.
  { rewrite Z.abs_mul. nia. }
  destruct (Z.abs_spec q) as [[Hq ->]|[Hq ->]], (Z.abs_spec (term * r)) as [[Ht Hab]|[Ht Hab]];
    rewrite Hab in Ha; nia.
Qed.

Lemma taylor_lower r (ns : list nat) acc term :
  Forall (fun n => 1 <= n)%nat ns -> 2 * Z.abs r <= 2 ^ guard ->
  acc - Z.abs term - 2 * Z.of_nat (length ns)
  <= fst (fold_left (fun '(acc, term) n =>
                       let term' := term * r / (Z.of_nat n * 2 ^ guard) in
                       (acc + term', term')) ns (acc, term)).
Proof.
  intros Hns Hr. revert acc term.
  induction Hns as [|n ns Hn Hns IH]; intros acc term; [cbn; lia|].
  cbn [fold_left length]. etransitivity; [|apply IH].
  pose proof (taylor_step term r n Hn Hr). lia.
Qed.

Lemma exp_fix_pos r : 2 * Z.abs r <= ln2_fix -> 0 < exp_fix r.
Proof.
  intros Hr. unfold exp_fix.
  assert (ln2_fix + 200 < 2 ^ guard) as Hln by (vm_compute; reflexivity).
  change (seq 1 48) with (1%nat :: seq 2 47). cbn [fold_left].
  eapply Z.lt_le_trans; [|apply taylor_lower].
  - rewrite length_seq.
    replace (2 ^ guard * r / (Z.of_nat 1 * 2 ^ guard)) with r.
    + change (Z.of_nat 47) with 47. lia.
    + change (Z.of_nat 1) with 1. rewrite Z.mul_1_l, Z.mul_comm.
      symmetry. apply Z.div_mul. lia.
  - apply Forall_forall. intros n Hn. apply elem_of_seq in Hn. lia.
  - lia.
Qed.

Lemma reduced_argument x :
  2 * Z.abs (x - (2 * x + ln2_fix) / (2 * ln2_fix) * ln2_fix) <= ln2_fix.
Proof.
  assert (0 < ln2_fix) as HL by (vm_compute; reflexivity).
  pose proof (Z.mul_div_le (2 * x + ln2_fix) (2 * ln2_fix) ltac:(lia)) as Hlo.
  pose proof (Z.mul_succ_div_gt (2 * x + ln2_fix) (2 * ln2_fix) ltac:(lia)) as Hhi.
  lia.
Qed.

(** numpy.exp, as modelled, is at least 0 on every argument but NaN *)
Lemma exp_nonneg x :
  Prim2SF x <> S754_nan -> PrimFloat.leb PrimFloat.zero (exp x) = true.
Proof.
  intros Hx. unfold exp.
  destruct (Prim2SF x) as [s|[]| |s m e]; try reflexivity; [done|].
  destruct (PrimFloat.ltb _ x); [reflexivity|].
  destruct (PrimFloat.ltb x _); [reflexivity|].
  cbv zeta. apply SF2Prim_nonneg, binary_normalize_nonneg, Z.lt_le_incl, exp_fix_pos.
  apply reduced_argument.
Qed.

Lemma binary_round_aux_not_nan sx m e l :
  0 <= m -> binary_round_aux prec emax sx m e l <> S754_nan.
Proof.
  intros Hm. destruct (binary_round_aux_spec sx m e l Hm) as (m1 & H). cbv zeta in H.
  destruct H as [Hb ->].
  assert (0 <= m / 2 ^ Z.max (fexp prec emax (Zdigits2 m + e) - e) 0) as Hq
    by (apply Z.div_pos; [lia|apply Z.pow_pos_nonneg; lia]).
  match goal with |- context [match ?q with _ => _ end] =>
    assert (0 <= q) as Hq2 by (apply Z.div_pos; [lia|apply Z.pow_pos_nonneg; lia]);
    destruct q as [|p|p]; [discriminate| |lia] end.
  destruct (_ <=? _); discriminate.
Qed.

(** [-t * 2] is a number when [t] is *)
Lemma scaled_not_nan t :
  Prim2SF t <> S754_nan ->
  Prim2SF (PrimFloat.mul (PrimFloat.opp t) (float_of_Z 2)) <> S754_nan.
Proof.
  intros Ht. rewrite mul_spec, opp_spec.
  change (Prim2SF (float_of_Z 2)) with (S754_finite false 4503599627370496 (-51)).
  destruct (Prim2SF t) as [s|s| |s m e]; [discriminate|discriminate|contradiction|].
  unfold SF64mul, SFmul, SFopp. apply binary_round_aux_not_nan. lia.
Qed.

(** [t == t] says that [t] is not a NaN *)
Lemma eqb_refl_not_nan t : PrimFloat.eqb t t = true -> Prim2SF t <> S754_nan.
Proof. rewrite eqb_spec. intros Ht Hn. by rewrite Hn in Ht. Qed.
End ExpSign.

(** * The score: its formula, its range and its rounding *)

Module ScoreFacts.
Import Exact Samples ExactFacts ExactPipeline.
Import PrimFloat.
Local Open Scope R_scope.
#[local] Set Warnings "-inexact-float".

(** [round(x, 4)] is the multiple of [10^-4] nearest to [x] *)
Lemma round_4_nearest x :
  round_4 x = IZR (nearest_even (x * 10000)) / 10000
  /\ Rabs (round_4 x - x) <= 1 / 20000.
Proof.
  split; [done|]. unfold round_4.
  pose proof (nearest_even_bounds (x * 10000)) as [Hlo Hhi].
  apply Rabs_le. lra.
Qed.

Lemma exact_score (self : model R) now (h : heap R) l fs :
  h !! l = Some fs ->
  let linear := intercept self + Rsum (contributions self fs).*2 in
  let s := 1 / (1 + exp (-2 * linear)) in
  _calculate_score self l h = (Return s, h)
  /\ 0 < s < 1
  /\ (decision_policy s).2 < 1
  /\ (has_required fs = true ->
      exists p h' n,
        predict self now l h = (Return p, h')
        /\ score p = IZR n / 10000 /\ (0 <= n <= 10000)%Z
        /\ Rabs (score p - s) <= 1 / 20000).
Proof.
  intros Hl linear s.
  pose proof (logistic_range linear) as Hs. fold s in Hs.
  split_and!; [|lra..| |].
  - rewrite (run_calculate_score self h l fs Hl).
    by rewrite logistic_exact, linear_sum_Rsum.
  - rewrite confidence_exact.
    assert (Rabs (s - 0.5) < 0.5) by (apply Rabs_def1; lra).
    unfold Rmin. destruct (Rle_dec _ _); lra.
  - intros Hm%has_required_missing.
    eexists _, _, (nearest_even (s * 10000)).
    split; [by apply run_predict|]. cbn [score].
    rewrite logistic_exact, linear_sum_Rsum. fold linear. fold s.
    destruct (round_4_nearest s) as [Hn Hd]. split_and!; [done| | |done].
    + apply nearest_even_ge. lra.
    + apply nearest_even_le. lra.
Qed.

Lemma binary64_score (e : float -> float) (self : model float) now (h : heap float) l fs :
  h !! l = Some fs ->
  let y := e (- linear_sum (AF:=Binary64.arith_with e) self fs * 2)%float in
  let s := (1 / (1 + y))%float in
  _calculate_score (AF:=Binary64.arith_with e) self l h = (Return s, h)
  /\ ((0 <=? y)%float = true -> (0 <=? s)%float = true /\ (s <=? 1)%float = true)
  /\ (has_required fs = true ->
      exists p h',
        predict (AF:=Binary64.arith_with e) self now l h = (Return p, h')
        /\ score p = Binary64.np_round_4 s
        /\ ((0 <=? y)%float = true ->
            exists n, (0 <= n <= 10000)%Z
              /\ score p = (Binary64.float_of_Z n / Binary64.float_of_Z 10000)%float)).
Proof.
  intros Hl y s. split_and!.
  - by rewrite (run_calculate_score (AF:=Binary64.arith_with e) self h l fs Hl).
  - apply FloatRange.sigmoid_range.
  - intros Hm%has_required_missing. eexists _, _.
    split; [by apply (run_predict (AF:=Binary64.arith_with e))|]. cbn [score].
    split; [done|]. apply FloatRound.np_round_4_sigmoid.
Qed.

Lemma binary64_model_score (self : model float) now (h : heap float) l fs :
  h !! l = Some fs ->
  let t := linear_sum (AF:=Binary64.arith) self fs in
  (t =? t)%float = true ->
  exists s,
    _calculate_score (AF:=Binary64.arith) self l h = (Return s, h)
    /\ (0 <=? s)%float = true /\ (s <=? 1)%float = true
    /\ (has_required fs = true ->
        exists p h' n,
          predict (AF:=Binary64.arith) self now l h = (Return p, h')
          /\ (0 <= n <= 10000)%Z
          /\ score p = (Binary64.float_of_Z n / Binary64.float_of_Z 10000)%float).
Proof.
  intros Hl t Ht.
  destruct (binary64_score Binary64.exp self now h l fs Hl) as (Hrun & Hrange & Hround).
  assert ((0 <=? Binary64.exp (- t * 2))%float = true) as Hy.
  { apply ExpSign.exp_nonneg, ExpSign.scaled_not_nan, ExpSign.eqb_refl_not_nan, Ht. }
  eexists. split; [exact Hrun|]. destruct (Hrange Hy) as [H0 H1].
  split; [exact H0|]. split; [exact H1|].
  intros Hreq. destruct (Hround Hreq) as (p & h' & Hp & _ & Hn).
  destruct (Hn Hy) as (n & Hn1 & Hn2). by exists p, h', n.
Qed.

(** C3.  [_calculate_score] returns [1 / (1 + e^(-2 * linear_sum))], with the
    linear sum the intercept plus the sum of [weight * normalize(value)] over
    the weight table, and returns it as computed, not rounded; [predict] is
    where the score is rounded to four digits.

    Over the reals: the score lies in [[0, 1]], and the score [predict]
    reports is [n / 10^4] for an integer [n] from 0 to [10^4], at most
    [0.00005] away from the score.

    In binary64, with any function [e] in the place of numpy.exp, every
    operation rounded as the interpreter rounds it: whenever the exponential
    is at least 0 (which says that it is not a NaN) the score lies in
    [[0, 1]], and the score [predict] reports is the float [n / 10^4] for an
    integer [n] from 0 to [10^4].  With the exponential of [Binary64] this
    is so whenever the linear sum is a number ([t == t], not a NaN). *)
Theorem score_is_logistic :
  (forall (self : model R) now (h : heap R) l fs,
      h !! l = Some fs ->
      let linear := intercept self + Rsum (contributions self fs).*2 in
      let s := 1 / (1 + exp (-2 * linear)) in
      _calculate_score self l h = (Return s, h)
      /\ 0 <= s <= 1
      /\ (has_required fs = true ->
          exists p h' n,
            predict self now l h = (Return p, h')
            /\ score p = IZR n / 10000 /\ (0 <= n <= 10000)%Z
            /\ Rabs (score p - s) <= 1 / 20000))
  /\ (forall (e : float -> float) (self : model float) now (h : heap float) l fs,
      h !! l = Some fs ->
      let y := e (- linear_sum (AF:=Binary64.arith_with e) self fs * 2)%float in
      let s := (1 / (1 + y))%float in
      _calculate_score (AF:=Binary64.arith_with e) self l h = (Return s, h)
      /\ ((0 <=? y)%float = true -> (0 <=? s)%float = true /\ (s <=? 1)%float = true)
      /\ (has_required fs = true ->
          exists p h',
            predict (AF:=Binary64.arith_with e) self now l h = (Return p, h')
            /\ score p = Binary64.np_round_4 s
            /\ ((0 <=? y)%float = true ->
                exists n, (0 <= n <= 10000)%Z
                  /\ score p = (Binary64.float_of_Z n / Binary64.float_of_Z 10000)%float)))
  /\ (forall (self : model float) now (h : heap float) l fs,
      h !! l = Some fs ->
      let t := linear_sum (AF:=Binary64.arith) self fs in
      (t =? t)%float = true ->
      exists s,
        _calculate_score (AF:=Binary64.arith) self l h = (Return s, h)
        /\ (0 <=? s)%float = true /\ (s <=? 1)%float = true
        /\ (has_required fs = true ->
            exists p h' n,
              predict (AF:=Binary64.arith) self now l h = (Return p, h')
              /\ (0 <= n <= 10000)%Z
              /\ score p = (Binary64.float_of_Z n / Binary64.float_of_Z 10000)%float)).
Proof.
  split; [|split].
  - intros self now h l fs Hl linear s.
    destruct (exact_score self now h l fs Hl) as (Hrun & Hs & _ & Hp).
    fold linear in Hrun, Hs, Hp. fold s in Hrun, Hs, Hp.
    split_and!; [done|lra|lra|done].
  - apply binary64_score.
  - apply binary64_model_score.
Qed.

(** C10 (as amended).  In exact arithmetic the score lies strictly between 0
    and 1 and the confidence computed from it is strictly below 1.  In
    binary64 (with any function [e] in the place of numpy.exp) the score lies
    between 0 and 1 whenever the exponential is at least 0, which with the
    exponential of [Binary64] is whenever the linear sum is a number; and
    both ends are reached: there are requests with all 8 features whose
    score is exactly 1.0, and exactly 0.0, and whose confidence is exactly
    1.0. *)
Theorem score_open_over_reals_closed_in_binary64 :
  (forall (self : model R) (h : heap R) l fs,
      h !! l = Some fs ->
      exists s,
        _calculate_score self l h = (Return s, h)
        /\ 0 < s < 1
        /\ (decision_policy s).2 < 1)
  /\ (forall (e : float -> float) (self : model float) (h : heap float) l fs,
      h !! l = Some fs ->
      (0 <=? e (- linear_sum (AF:=Binary64.arith_with e) self fs * 2))%float = true ->
      exists s,
        _calculate_score (AF:=Binary64.arith_with e) self l h = (Return s, h)
        /\ (0 <=? s)%float = true /\ (s <=? 1)%float = true)
  /\ (forall (self : model float) (h : heap float) l fs,
      h !! l = Some fs ->
      let t := linear_sum (AF:=Binary64.arith) self fs in
      (t =? t)%float = true ->
      exists s,
        _calculate_score (AF:=Binary64.arith) self l h = (Return s, h)
        /\ (0 <=? s)%float = true /\ (s <=? 1)%float = true)
  /\ (has_required saturating_features = true
      /\ _calculate_score (AF:=Binary64.arith) (_create_demo_model (AF:=Binary64.arith)) 0%nat
           (heap_with saturating_features)
         = (Return 1%float, heap_with saturating_features)
      /\ (decision_policy (AF:=Binary64.arith) 1%float).2 = 1%float)
  /\ (has_required vanishing_features = true
      /\ _calculate_score (AF:=Binary64.arith) (_create_demo_model (AF:=Binary64.arith)) 0%nat
           (heap_with vanishing_features)
         = (Return 0%float, heap_with vanishing_features)
      /\ (decision_policy (AF:=Binary64.arith) 0%float).2 = 1%float).
Proof.
  split_and!.
  - intros self h l fs Hl.
    destruct (exact_score self "" h l fs Hl) as (Hrun & Hs & Hc & _).
    eexists. split_and!; [exact Hrun|apply Hs..|exact Hc].
  - intros e self h l fs Hl Hy.
    destruct (binary64_score e self "" h l fs Hl) as (Hrun & Hs & _).
    eexists. split; [exact Hrun|]. by apply Hs.
  - intros self h l fs Hl t Ht.
    destruct (binary64_model_score self "" h l fs Hl Ht) as (s & Hrun & H0 & H1 & _).
    by exists s.
  - reflexivity.
  - by vm_compute.
  - by vm_compute.
  - reflexivity.
  - by vm_compute.
  - by vm_compute.
Qed.

(** The request of the demo, over the reals and in binary64 *)
Lemma score_is_logistic_witness :
  (exists p h' n,
      predict _create_demo_model "" 0%nat exact_heap = (Return p, h')
      /\ score p = IZR n / 10000 /\ (0 <= n <= 10000)%Z
      /\ Rabs (score p
               - 1 / (1 + exp (-2 * (intercept _create_demo_model
                        + Rsum (contributions _create_demo_model exact_features).*2))))
         <= 1 / 20000)
  /\ ((0 <=? 1 / (1 + Binary64.exp
                        (- linear_sum (AF:=Binary64.arith_with Binary64.exp)
                             (_create_demo_model (AF:=Binary64.arith_with Binary64.exp))
                             sample_features * 2)))%float = true
      /\ (1 / (1 + Binary64.exp
                     (- linear_sum (AF:=Binary64.arith_with Binary64.exp)
                          (_create_demo_model (AF:=Binary64.arith_with Binary64.exp))
                          sample_features * 2)) <=? 1)%float = true)
  /\ (exists s,
      _calculate_score (AF:=Binary64.arith) (_create_demo_model (AF:=Binary64.arith))
        0%nat (heap_with sample_features)
      = (Return s, heap_with sample_features)
      /\ (0 <=? s)%float = true /\ (s <=? 1)%float = true
      /\ exists p h' n,
          predict (AF:=Binary64.arith) (_create_demo_model (AF:=Binary64.arith)) ""
            0%nat (heap_with sample_features)
          = (Return p, h')
          /\ (0 <= n <= 10000)%Z
          /\ score p = (Binary64.float_of_Z n / Binary64.float_of_Z 10000)%float).
Proof.
  destruct score_is_logistic as (Hr & Hf & Hm).
  split; [|split].
  - exact (proj2 (proj2 (Hr _create_demo_model "" exact_heap 0%nat exact_features
                           (lookup_singleton_eq _ _))) eq_refl).
  - pose proof (Hf Binary64.exp (_create_demo_model (AF:=Binary64.arith_with Binary64.exp))
                  "" (heap_with sample_features) 0%nat
                  sample_features (lookup_singleton_eq _ _)) as Hw.
    cbv zeta in Hw. apply (proj1 (proj2 Hw)). vm_compute. reflexivity.
  - pose proof (Hm (_create_demo_model (AF:=Binary64.arith)) "" (heap_with sample_features)
                  0%nat sample_features (lookup_singleton_eq _ _)) as Hw.
    cbv zeta in Hw.
    assert ((linear_sum (AF:=Binary64.arith) (_create_demo_model (AF:=Binary64.arith))
               sample_features
             =? linear_sum (AF:=Binary64.arith) (_create_demo_model (AF:=Binary64.arith))
                  sample_features)%float = true) as Ht by (vm_compute; reflexivity).
    destruct (Hw Ht) as (s & Hs & H0 & H1 & Hp).
    exists s. split; [exact Hs|]. split; [exact H0|]. split; [exact H1|].
    exact (Hp eq_refl).
Defined.

Lemma score_open_over_reals_closed_in_binary64_witness :
  (exists s,
      _calculate_score _create_demo_model 0%nat exact_heap = (Return s, exact_heap)
      /\ 0 < s < 1
      /\ (decision_policy s).2 < 1)
  /\ (exists s,
      _calculate_score (AF:=Binary64.arith_with Binary64.exp)
        (_create_demo_model (AF:=Binary64.arith_with Binary64.exp)) 0%nat
        (heap_with vanishing_features)
      = (Return s, heap_with vanishing_features)
      /\ (0 <=? s)%float = true /\ (s <=? 1)%float = true).
Proof.
  destruct score_open_over_reals_closed_in_binary64 as (Hr & Hf & _). split.
  - exact (Hr _create_demo_model exact_heap 0%nat exact_features (lookup_singleton_eq _ _)).
  - apply (Hf Binary64.exp (_create_demo_model (AF:=Binary64.arith_with Binary64.exp))
             (heap_with vanishing_features) 0%nat
             vanishing_features (lookup_singleton_eq _ _)).
    vm_compute. reflexivity.
Defined.
End ScoreFacts.

(** * Construction, metadata and the audit log *)

Section ServiceFacts.
Context {F : Type} {AF : Arith F}.
Local Open Scope py_scope.

(** [model_path] is stored and never read: whatever the path, the
    constructor loads the demo weight table, prints the one loading line and
    leaves the clock alone. *)
Lemma model_path_is_ignored (path : option string) (w : world) :
  self_model (__init__ path w).1 = Some _create_demo_model
  /\ self_model_path (__init__ path w).1 = path
  /\ stdout (__init__ path w).2
     = stdout w ++ ["[Model] Loading Credit Scoring Model v2.1.0"]
  /\ reads (__init__ path w).2 = reads w
  /\ forall path', self_model (__init__ path' w).1 = self_model (__init__ path w).1.
Proof. done. Qed.

Lemma predict_returns_version (self : model F) now (h : heap F) l p h' :
  predict self now l h = (Return p, h') -> model_version p = VERSION.
Proof.
  intros Hrun. destruct (h !! l) as [fs|] eqn:Hl.
  - destruct (decide (missing_features fs = ∅)) as [Hm|Hm].
    + rewrite (run_predict self now h l fs Hl Hm) in Hrun. by injection Hrun as <- _.
    + by rewrite (run_predict_missing self now h l fs Hl Hm) in Hrun.
  - unfold predict, _validate_features, keys, deref in Hrun.
    unfold mbind, M_bind, bind in Hrun. by rewrite Hl in Hrun.
Qed.

Lemma has_required_forall (fs : pydict F) :
  has_required fs = true <-> forall f, f ∈ FEATURES -> dict_contains f fs = true.
Proof.
  unfold has_required. rewrite forallb_forall. split.
  - intros Hall f Hf. by apply Hall, list_elem_of_In.
  - intros Hall f Hf. by apply Hall, list_elem_of_In.
Qed.

(** X13.  The metadata describes the model that runs: the features it lists
    are the ones validation requires, the threshold it gives is the one the
    decision is taken at, and the version it gives is the one stamped on
    every prediction. *)
Theorem model_info_matches_behaviour (self : CreditScoringModel F) :
  exists features threshold version,
    dict_get "features" (get_model_info self) = Some (PyList features)
    /\ dict_get "threshold" (get_model_info self) = Some (PyNum threshold)
    /\ dict_get "version" (get_model_info self) = Some (PyStr version)
    /\ (forall (h : heap F) l fs, h !! l = Some fs ->
        _validate_features l h = (Return tt, h)
        <-> forall f, f ∈ features -> dict_contains f fs = true)
    /\ (forall s, (decision_policy s).1
                  = if threshold <=? s then "approved" else "denied")
    /\ (forall (m : model F) now (h : heap F) l p h',
        predict m now l h = (Return p, h') -> model_version p = version).
Proof.
  exists FEATURES, THRESHOLD, VERSION. split_and!; [done..| |done|].
  - intros h l fs Hl. rewrite (run_validate_features h l fs Hl).
    rewrite <- has_required_forall, has_required_missing.
    case_decide as Hm; [done|]. split; [done|]. intros Hm'. by destruct Hm.
  - apply predict_returns_version.
Qed.

(** ** The audit identifier *)

Lemma digit_inj a b : a < 10 -> b < 10 -> digit a = digit b -> a = b.
Proof.
  intros Ha Hb Heq. apply (f_equal Ascii.nat_of_ascii) in Heq. unfold digit in Heq.
  rewrite !Ascii.nat_ascii_embedding in Heq by lia. lia.
Qed.

Lemma length_fixed_digits w n : length (fixed_digits w n) = w.
Proof.
  revert n. induction w as [|w IH]; intros n; [done|].
  cbn [fixed_digits]. rewrite length_app, IH. simpl. lia.
Qed.

Lemma fixed_digits_inj w n m :
  n < 10 ^ w -> m < 10 ^ w -> fixed_digits w n = fixed_digits w m -> n = m.
Proof.
  revert n m. induction w as [|w IH]; intros n m Hn Hm Heq.
  - simpl in *. lia.
  - cbn [fixed_digits] in Heq.
    apply app_inj_2 in Heq as [Hhi Hlo]; [|done].
    assert (digit (n mod 10) = digit (m mod 10)) as Hlo' by congruence.
    rewrite Nat.pow_succ_r' in Hn, Hm.
    apply digit_inj in Hlo'; [|by apply Nat.mod_upper_bound..].
    apply IH in Hhi; [|apply Nat.Div0.div_lt_upper_bound; lia..].
    rewrite (Nat.div_mod_eq n 10), (Nat.div_mod_eq m 10). lia.
Qed.

Lemma count_digits_four fuel y :
  4 <= fuel -> 1000 <= y < 10 * 1000 -> count_digits fuel y = 4.
Proof.
  intros Hf Hy. destruct fuel as [|[|[|[|fuel]]]]; [lia..|]. cbn [count_digits].
  assert (y / 10 / 10 / 10 < 10) as H3.
  { do 3 apply Nat.Div0.div_lt_upper_bound. lia. }
  assert (10 <= y / 10 / 10) as H2.
  { do 2 (apply Nat.div_le_lower_bound; [lia|]). lia. }
  assert (10 <= y / 10) as H1 by (apply Nat.div_le_lower_bound; lia).
  rewrite (proj2 (Nat.ltb_ge y 10)) by lia.
  rewrite (proj2 (Nat.ltb_ge (y / 10) 10)) by lia.
  rewrite (proj2 (Nat.ltb_ge (y / 10 / 10) 10)) by lia.
  by rewrite (proj2 (Nat.ltb_lt (y / 10 / 10 / 10) 10)) by lia.
Qed.

Lemma decimal_four_digits y :
  1000 <= y < 10 * 1000 -> decimal y = fixed_digits 4 y.
Proof. intros Hy. unfold decimal. rewrite count_digits_four; [done|lia|done]. Qed.

Lemma strftime_compact_inj dt1 dt2 :
  valid_datetime dt1 -> valid_datetime dt2 ->
  1000 <= year dt1 -> 1000 <= year dt2 ->
  strftime_compact dt1 = strftime_compact dt2 -> same_second dt1 dt2.
Proof.
  intros (Hy1 & Hm1 & Hd1 & Hh1 & Hmi1 & Hs1 & _) (Hy2 & Hm2 & Hd2 & Hh2 & Hmi2 & Hs2 & _)
    Hy1' Hy2' Heq.
  unfold strftime_compact in Heq.
  apply (f_equal String.list_ascii_of_string) in Heq.
  rewrite !String.list_ascii_of_string_of_list_ascii in Heq.
  rewrite !decimal_four_digits in Heq by lia.
  repeat (apply app_inj_1 in Heq as [?%fixed_digits_inj Heq];
          [|simpl; lia..|by rewrite !length_fixed_digits]).
  apply fixed_digits_inj in Heq; [|simpl; lia..].
  by repeat split.
Qed.

Lemma log_decision_audit_id (p : CreditPrediction F) reviewer override (w : world) :
  dict_get "audit_id" (log_decision p reviewer override w).1
  = Some (PyStr ("AUDIT-" +:+ strftime_compact (clock w (S (reads w))))).
Proof. done. Qed.

(** X14.  An audit identifier names the second of the clock reading that
    [log_decision] takes last, and nothing else: two logged decisions get the
    same identifier exactly when those readings fall in the same second,
    whatever the predictions, reviewers and override flags are (for the
    years 1000 to 9999). *)
Theorem audit_ids_collide_within_a_second
    (p1 p2 : CreditPrediction F) r1 r2 o1 o2 (w1 w2 : world) :
  let t1 := clock w1 (S (reads w1)) in
  let t2 := clock w2 (S (reads w2)) in
  valid_datetime t1 -> valid_datetime t2 -> 1000 <= year t1 -> 1000 <= year t2 ->
  dict_get "audit_id" (log_decision p1 r1 o1 w1).1
  = dict_get "audit_id" (log_decision p2 r2 o2 w2).1
  <-> same_second t1 t2.
Proof.
  intros t1 t2 Hv1 Hv2 Hy1 Hy2. rewrite !log_decision_audit_id. fold t1 t2. split.
  - intros [= Heq]. by apply strftime_compact_inj.
  - intros (Hy & Hm & Hd & Hh & Hmi & Hs). unfold strftime_compact.
    by rewrite Hy, Hm, Hd, Hh, Hmi, Hs.
Qed.

(** What [log_decision] does to the world and keeps of the prediction:
    it reads the clock twice and prints one line, which ends in the audit
    identifier; the entry holds the score, decision and model version of the
    prediction and the reviewer and override it was given, under five keys,
    and neither the confidence nor the explanation. *)
Lemma log_decision_entry (p : CreditPrediction F) reviewer override (w : world) :
  let entry := (log_decision p reviewer override w).1 in
  let w' := (log_decision p reviewer override w).2 in
  entry.*1 = ["timestamp"; "prediction"; "reviewer"; "override"; "audit_id"]
  /\ dict_get "prediction" entry
     = Some (PyDict [ ("score", PyNum (score p)); ("decision", PyStr (decision p));
                      ("model_version", PyStr (model_version p)) ])
  /\ dict_get "reviewer" entry = Some (from_option PyStr PyNone reviewer)
  /\ dict_get "override" entry = Some (PyBool override)
  /\ dict_get "timestamp" entry = Some (PyStr (isoformat (clock w (reads w))))
  /\ reads w' = S (S (reads w))
  /\ clock w' = clock w
  /\ stdout w'
     = stdout w ++ ["[Audit] Logged decision: AUDIT-"
                    +:+ strftime_compact (clock w (S (reads w)))].
Proof. intros entry w'. by split_and!. Qed.
End ServiceFacts.

(** * The further properties at concrete inputs *)

Module PipelineWitnesses.
Import Binary64 Samples PrimFloat.
Local Open Scope float_scope.

Lemma heap_with_lookup fs : heap_with fs !! 0%nat = Some fs.
Proof. apply lookup_singleton_eq. Qed.

Lemma extras_agree k :
  k ∈ (weights (@_create_demo_model float _)).*1 ->
  dict_get k sample_features = dict_get k sample_with_extras.
Proof.
  intros Hk. cbn in Hk.
  repeat (apply elem_of_cons in Hk as [->|Hk]; [reflexivity|]).
  by apply elem_of_nil in Hk.
Qed.

Lemma weighted_features_decide_witness :
  exists s out,
    _calculate_score _create_demo_model 0%nat (heap_with sample_features)
    = (Return s, heap_with sample_features)
    /\ _calculate_score _create_demo_model 0%nat (heap_with sample_with_extras)
       = (Return s, heap_with sample_with_extras)
    /\ (exists e h1,
          _generate_explanation _create_demo_model 0%nat (heap_with sample_features)
          = (Return e, h1) /\ h1 !! e = Some out)
    /\ (exists e h1,
          _generate_explanation _create_demo_model 0%nat (heap_with sample_with_extras)
          = (Return e, h1) /\ h1 !! e = Some out).
Proof.
  exact (weighted_features_decide _create_demo_model _ _ 0%nat 0%nat _ _
           (heap_with_lookup sample_features) (heap_with_lookup sample_with_extras)
           extras_agree).
Defined.

Lemma unweighted_features_score_intercept_witness :
  _calculate_score _create_demo_model 0%nat (heap_with [])
  = (Return (#1 / (#1 + np_exp (- intercept _create_demo_model * #2)))%py,
     heap_with [])
  /\ exists e h', _generate_explanation _create_demo_model 0%nat (heap_with [])
                   = (Return e, h')
                 /\ h' !! e = Some [].
Proof.
  refine (unweighted_features_score_intercept _create_demo_model (heap_with []) 0%nat []
            (heap_with_lookup []) _).
  intros k _. reflexivity.
Defined.

(** The request of the demo, with its [int] values, is answered; with an
    [int] beyond the floats it raises [OverflowError]; and without two
    required features it raises the error naming them. *)
Lemma predict_outcomes_witness :
  (exists p h',
      Numbers.predict _create_demo_model "2024-05-17T09:30:07" 0%nat
        (number_heap demo_request)
      = (Return p, h')
      /\ model_version p = "2.1.0" /\ timestamp p = "2024-05-17T09:30:07")
  /\ Numbers.predict _create_demo_model "" 0%nat (number_heap overflowing_request)
     = (Raise OverflowError, number_heap overflowing_request)
  /\ Numbers.predict _create_demo_model "" 0%nat (number_heap overflowing_incomplete)
     = (Raise (ValueError (missing_features overflowing_incomplete)),
        number_heap overflowing_incomplete).
Proof.
  split; [|split].
  - pose proof (predict_outcomes (IF:=binary64_float_of_int) _create_demo_model
                  "2024-05-17T09:30:07" _ 0%nat _
                  (lookup_singleton_eq 0%nat demo_request)) as (_ & _ & Hw).
    apply Hw; [reflexivity|vm_compute; reflexivity].
  - pose proof (predict_outcomes (IF:=binary64_float_of_int) _create_demo_model
                  "" _ 0%nat _
                  (lookup_singleton_eq 0%nat overflowing_request)) as (_ & Hw & _).
    apply Hw; [reflexivity|vm_compute; reflexivity].
  - pose proof (predict_outcomes (IF:=binary64_float_of_int) _create_demo_model
                  "" _ 0%nat _
                  (lookup_singleton_eq 0%nat overflowing_incomplete)) as (Hw & _).
    apply Hw. reflexivity.
Defined.

Lemma explanation_lookup_witness :
  exists e h' out,
    _generate_explanation _create_demo_model 0%nat (heap_with incomplete_features)
    = (Return e, h')
    /\ h' !! e = Some out
    /\ NoDup out.*1
    /\ forall k,
        dict_get k out
        = w ← dict_get k (weights _create_demo_model);
          v ← dict_get k incomplete_features;
          Some (round4 (w * (if 1 <? v then v / 100 else v))).
Proof.
  exact (explanation_lookup _create_demo_model _ 0%nat _ demo_weights_NoDup
           (heap_with_lookup incomplete_features)).
Defined.

Lemma explanation_objects_are_fresh_witness :
  exists p1 h1 p2 h2 out,
    predict _create_demo_model "t1" 0%nat (heap_with sample_features) = (Return p1, h1)
    /\ predict _create_demo_model "t2" 0%nat h1 = (Return p2, h2)
    /\ heap_with sample_features !! explanation p1 = None /\ explanation p1 ≠ 0%nat
    /\ h1 !! explanation p2 = None /\ explanation p2 ≠ explanation p1
    /\ h1 !! explanation p1 = Some out
    /\ h2 !! explanation p1 = Some out /\ h2 !! explanation p2 = Some out
    /\ score p2 = score p1 /\ decision p2 = decision p1
    /\ confidence p2 = confidence p1.
Proof.
  exact (explanation_objects_are_fresh _create_demo_model "t1" "t2" _ 0%nat _
           (heap_with_lookup sample_features) eq_refl).
Defined.
End PipelineWitnesses.

Module ExactPipelineWitnesses.
Import Exact Samples ExactFacts ExactPipeline.
Local Open Scope R_scope.

Lemma exact_heap_lookup : exact_heap !! 0%nat = Some exact_features.
Proof. apply lookup_singleton_eq. Qed.

Lemma exact_features_are_percentages k :
  k ∈ FEATURES -> exists v, dict_get k exact_features = Some v /\ 0 <= v <= 100.
Proof.
  intros Hk. unfold FEATURES in Hk.
  repeat (apply elem_of_cons in Hk as [->|Hk];
          [eexists; split; [reflexivity|lra]|]).
  by apply elem_of_nil in Hk.
Qed.

Lemma exact_weighted_features_are_percentages k v :
  k ∈ (weights (@_create_demo_model R _)).*1 ->
  dict_get k exact_features = Some v -> 0 <= v <= 100.
Proof.
  intros Hk Hv. destruct (exact_features_are_percentages k Hk) as (v' & Hv' & Hb).
  congruence.
Qed.

Lemma prediction_in_range_witness :
  exists p h',
    predict _create_demo_model "" 0%nat exact_heap = (Return p, h')
    /\ 0 <= score p <= 1
    /\ 0 <= confidence p <= 1
    /\ (decision p = "approved" \/ decision p = "denied").
Proof.
  exact (proj1 (prediction_in_range _create_demo_model "" exact_heap 0%nat exact_features
                  exact_heap_lookup eq_refl)).
Defined.

Lemma decision_agrees_with_reported_score_witness :
  exists p h',
    predict _create_demo_model "" 0%nat exact_heap = (Return p, h')
    /\ (decision p = "approved" -> 0.5 <= score p)
    /\ (decision p = "denied" -> score p <= 0.5)
    /\ (0.5 < score p -> decision p = "approved")
    /\ (score p < 0.5 -> decision p = "denied").
Proof.
  exact (decision_agrees_with_reported_score _create_demo_model "" exact_heap 0%nat
           exact_features exact_heap_lookup eq_refl).
Defined.

Lemma review_in_terms_of_score_witness :
  exists p h',
    predict _create_demo_model "" 0%nat exact_heap = (Return p, h')
    /\ ((requires_review p).1 = true
        <-> Rabs (1 / (1 + exp (-2 * linear_sum _create_demo_model exact_features)) - 0.5)
            < 0.149975)
    /\ ((requires_review p).2 = "Borderline score requires human review"
        <-> 0.39995 <= 1 / (1 + exp (-2 * linear_sum _create_demo_model exact_features))
            <= 0.60005)
    /\ ((requires_review p).2 = "Low confidence prediction"
        <-> 0.350025 < 1 / (1 + exp (-2 * linear_sum _create_demo_model exact_features))
            < 0.39995
            \/ 0.60005 < 1 / (1 + exp (-2 * linear_sum _create_demo_model exact_features))
               < 0.649975).
Proof.
  exact (review_in_terms_of_score _create_demo_model "" exact_heap 0%nat exact_features
           exact_heap_lookup eq_refl).
Defined.

Lemma normalized_in_unit_range_witness :
  exists n, normalized 0%nat "payment_history_score" exact_heap = (Return n, exact_heap)
            /\ (0 <= n <= 1 <-> 0 <= 85 <= 100).
Proof.
  exact (normalized_in_unit_range exact_heap 0%nat exact_features
           "payment_history_score" 85 exact_heap_lookup eq_refl).
Defined.

Lemma score_between_table_extremes_witness :
  exists s,
    _calculate_score _create_demo_model 0%nat exact_heap = (Return s, exact_heap)
    /\ 1 / (1 + exp (-2 * Range.linear_floor _create_demo_model)) <= s
       <= 1 / (1 + exp (-2 * Range.linear_ceiling _create_demo_model)).
Proof.
  exact (score_between_table_extremes _create_demo_model exact_heap 0%nat exact_features
           exact_heap_lookup exact_weighted_features_are_percentages).
Defined.

Lemma demo_model_never_denies_unreviewed_witness :
  exists p h',
    predict _create_demo_model "" 0%nat exact_heap = (Return p, h')
    /\ 0.4 <= score p <= 0.94
    /\ (decision p = "denied" ->
        requires_review p = (true, "Borderline score requires human review")).
Proof.
  exact (demo_model_never_denies_unreviewed "" exact_heap 0%nat exact_features
           exact_heap_lookup exact_features_are_percentages).
Defined.
Lemma explanation_ranks_witness :
  exists e h' out,
    _generate_explanation _create_demo_model 0%nat exact_heap = (Return e, h')
    /\ h' !! e = Some out
    /\ (forall i j x y, (i < j)%nat -> out !! i = Some x -> out !! j = Some y ->
        Rabs x.2 >= Rabs y.2)
    /\ (forall n x y, x ∈ take n out -> y ∈ drop n out -> Rabs x.2 >= Rabs y.2).
Proof.
  exact (explanation_ranks _create_demo_model exact_heap 0%nat exact_features
           demo_weights_NoDup exact_heap_lookup).
Defined.

Lemma threshold_heap_lookup : threshold_heap !! 0%nat = Some threshold_features.
Proof. apply lookup_singleton_eq. Qed.

(** The three order facts at work: 0.5 and 1 keep their order, 2 and 50 keep
    theirs, and 2 is normalized (to 0.02) below what 1 gives (1). *)
Lemma normalizer_jumps_at_one_witness :
  (exists n n',
      normalized 0%nat "income_stability" threshold_heap = (Return n, threshold_heap)
      /\ normalized 0%nat "existing_accounts" threshold_heap = (Return n', threshold_heap)
      /\ n <= n')
  /\ (exists n n',
      normalized 0%nat "inquiry_count_6mo" threshold_heap = (Return n, threshold_heap)
      /\ normalized 0%nat "employment_length" threshold_heap = (Return n', threshold_heap)
      /\ n <= n')
  /\ (exists n n',
      normalized 0%nat "existing_accounts" threshold_heap = (Return n, threshold_heap)
      /\ normalized 0%nat "inquiry_count_6mo" threshold_heap = (Return n', threshold_heap)
      /\ n' < n).
Proof.
  split; [|split].
  - destruct (normalizer_jumps_at_one threshold_heap 0%nat threshold_features
                "income_stability" "existing_accounts" 0.5 1
                threshold_heap_lookup eq_refl eq_refl)
      as (n & n' & Hn & Hn' & Hle & _ & _).
    exists n, n'. split; [exact Hn|]. split; [exact Hn'|]. apply Hle. lra.
  - destruct (normalizer_jumps_at_one threshold_heap 0%nat threshold_features
                "inquiry_count_6mo" "employment_length" 2 50
                threshold_heap_lookup eq_refl eq_refl)
      as (n & n' & Hn & Hn' & _ & Hle & _).
    exists n, n'. split; [exact Hn|]. split; [exact Hn'|]. apply Hle. lra.
  - destruct (normalizer_jumps_at_one threshold_heap 0%nat threshold_features
                "existing_accounts" "inquiry_count_6mo" 1 2
                threshold_heap_lookup eq_refl eq_refl)
      as (n & n' & Hn & Hn' & _ & _ & Hlt).
    exists n, n'. split; [exact Hn|]. split; [exact Hn'|]. apply Hlt; [reflexivity|lra].
Defined.
End ExactPipelineWitnesses.

Module AuditWitnesses.
Import Binary64 AuditSamples.

Lemma reading_valid us : us < 1000 * 1000 -> valid_datetime (reading us).
Proof.
  intros Hus. unfold valid_datetime, reading.
  cbn [year month day hour minute second microsecond]. lia.
Qed.

Lemma audit_ids_collide_within_a_second_witness
  : dict_get "audit_id"
      (log_decision (F:=PrimFloat.float)
         {| score := PrimFloat.one; decision := "approved";
            confidence := PrimFloat.one; explanation := 0;
            model_version := "2.1.0"; timestamp := "" |}
         None false (world_at 100)).1
    = dict_get "audit_id"
        (log_decision (F:=PrimFloat.float)
           {| score := PrimFloat.zero; decision := "denied";
              confidence := PrimFloat.one; explanation := 0;
              model_version := "2.1.0"; timestamp := "" |}
           (Some "reviewer-7") true (world_at 2500)).1
    <-> same_second (reading 101) (reading 2501).
Proof.
  refine (audit_ids_collide_within_a_second _ _ None (Some "reviewer-7") false true
            (world_at 100) (world_at 2500)
            (reading_valid 101 _) (reading_valid 2501 _) _ _).
  - lia.
  - lia.
  - cbn [world_at clock reading year]. lia.
  - cbn [world_at clock reading year]. lia.
Defined.
End AuditWitnesses.
